(** * Facebook Ads analytics dashboard: API client, persistence layer and
    query engine, embedded from [facebook_api.py], [database.py] and
    [gemini_query.py].

    Python strings are modelled as lists of characters.  The character
    classes and case maps are the ones Python applies to ASCII code points;
    characters outside ASCII are carried through unchanged.  The guard of
    the query engine, which decides what reaches the database, takes its
    [strip] and [upper] from the interpreter instead (class [PyText]). *)

From Equations Require Import Equations.
From Stdlib Require Import Ascii String DecimalString.
From Stdlib Require Import List Arith Lia Bool ZArith Permutation.
Import ListNotations.
Open Scope list_scope.

Set Implicit Arguments.
Set Warnings "-register-all,-notation-for-abbreviation".

(** ** Python string primitives *)

Module PyStr.

Definition str := list ascii.

Definition lit (s : string) : str := list_ascii_of_string s.

Definition code (c : ascii) : nat := nat_of_ascii c.

(** [str.isspace] on one ASCII character: TAB, LF, VT, FF, CR, the four
    separators FS, GS, RS, US, and the space. *)
Definition is_space (c : ascii) : bool :=
  let n := code c in
  ((9 <=? n) && (n <=? 13)) || ((28 <=? n) && (n <=? 32)).

Definition upper_char (c : ascii) : ascii :=
  let n := code c in
  if (97 <=? n) && (n <=? 122) then ascii_of_nat (n - 32) else c.

Definition lower_char (c : ascii) : ascii :=
  let n := code c in
  if (65 <=? n) && (n <=? 90) then ascii_of_nat (n + 32) else c.

Definition upper (s : str) : str := map upper_char s.
Definition lower (s : str) : str := map lower_char s.

Fixpoint dropwhile (p : ascii -> bool) (s : str) : str :=
  match s with
  | [] => []
  | c :: r => if p c then dropwhile p r else s
  end.

Definition lstrip (s : str) : str := dropwhile is_space s.
Definition rstrip (s : str) : str := rev (dropwhile is_space (rev s)).
Definition strip (s : str) : str := rstrip (lstrip s).

Definition ascii_eqb (a b : ascii) : bool := Ascii.eqb a b.

Fixpoint startswith (p s : str) : bool :=
  match p, s with
  | [], _ => true
  | _ :: _, [] => false
  | a :: p', b :: s' => ascii_eqb a b && startswith p' s'
  end.

Definition endswith (p s : str) : bool := startswith (rev p) (rev s).

(** [p in s] *)
Fixpoint contains (p s : str) : bool :=
  startswith p s ||
  match s with
  | [] => false
  | _ :: r => contains p r
  end.

Fixpoint str_eqb (a b : str) : bool :=
  match a, b with
  | [], [] => true
  | x :: a', y :: b' => ascii_eqb x y && str_eqb a' b'
  | _, _ => false
  end.

Definition newline : ascii := ascii_of_nat 10.

Definition drop_newline (s : str) : str :=
  match s with
  | c :: r => if ascii_eqb c newline then r else s
  | [] => []
  end.

(** [re.sub(pat + r'\n?', '', s)] for a literal, non-empty [pat]: scanning
    from the left, every occurrence of [pat] is deleted together with one
    line feed that directly follows it, and the scan resumes after the
    deleted text. *)
Equations? re_sub_lit_nl (pat : str) (s : str) : str by wf (length s) lt :=
  re_sub_lit_nl pat [] := [];
  re_sub_lit_nl pat (c :: r) with startswith pat (c :: r) := {
    | true := re_sub_lit_nl pat (drop_newline (skipn (length pat - 1) r));
    | false := c :: re_sub_lit_nl pat r }.
Proof.
  assert (H : length (drop_newline (skipn (length pat - 1) r)) <= length r).
  { generalize (skipn (length pat - 1) r) (length_skipn (length pat - 1) r).
    intros l Hl. destruct l as [|a l]; simpl in *; [lia|].
    destruct (ascii_eqb a newline); simpl; lia. }
  simpl. lia.
Qed.

Definition cons_head (c : ascii) (parts : list str) : list str :=
  match parts with
  | [] => [[c]]
  | p :: ps => (c :: p) :: ps
  end.

(** [s.split(sep)] for a non-empty separator. *)
Equations? split (sep : str) (s : str) : list str by wf (length s) lt :=
  split sep [] := [[]];
  split sep (c :: r) with startswith sep (c :: r) := {
    | true := [] :: split sep (skipn (length sep - 1) r);
    | false := cons_head c (split sep r) }.
Proof.
  pose proof (length_skipn (length sep - 1) r). simpl. lia.
Qed.

(** [str(n)] for a non-negative integer. *)
Definition str_of_nat (n : nat) : str :=
  lit (NilEmpty.string_of_uint (Nat.to_uint n)).

(** The markdown code fence. *)
Definition backtick : ascii := ascii_of_nat 96.
Definition fence : str := [backtick; backtick; backtick].

End PyStr.

Import PyStr.

(** ** Python values and the library primitives the program calls *)

(** The values that flow through the program: JSON payloads decoded by
    [requests], parsed numbers, and [datetime] objects.  A [dict] keeps its
    insertion order, so it is an association list. *)
Inductive value (F D : Type) : Type :=
| VNone
| VBool (b : bool)
| VInt (z : Z)
| VFloat (f : F)
| VStr (s : str)
| VList (l : list (value F D))
| VDict (kv : list (str * value F D))
| VDatetime (d : D).

Arguments VNone {F D}.
Arguments VBool {F D} b.
Arguments VInt {F D} z.
Arguments VFloat {F D} f.
Arguments VStr {F D} s.
Arguments VList {F D} l.
Arguments VDict {F D} kv.
Arguments VDatetime {F D} d.

(** Exceptions.  [OutOfFuel] is not a Python exception: it marks a loop of
    the model that was given too few turns, and no library call of the model
    raises it. *)
Inductive exn : Type :=
| RequestException (msg : str)
| StopIteration
| ValueError (msg : str)
| DatabaseError (msg : str)
| OutOfFuel.

(** The four kinds of entity that are fetched and stored. *)
Inductive entity : Type := Campaigns | AdSets | Ads | Insights.

Definition entity_eqb (a b : entity) : bool :=
  match a, b with
  | Campaigns, Campaigns | AdSets, AdSets | Ads, Ads | Insights, Insights =>
      true
  | _, _ => false
  end.

(** A [pandas.DataFrame]: the columns in order, each with the flag that
    its dtype is numeric, and the rows as records. *)
Record DataFrame (F D : Type) : Type := {
  df_columns : list (str * bool);
  df_records : list (list (str * value F D))
}.

(** The relational store: table name to table content. *)
Definition database (F D : Type) : Type := list (str * DataFrame F D).

(** What the interpreter and the libraries provide: binary floating point
    ([F]), [datetime] ([D]), number parsing and printing, [json.dumps], and
    the [pandas] aggregations.  The program is verified for every
    implementation of this interface. *)
Class PyEnv (F D : Type) : Type := {
  (* floats *)
  float_lit : string -> F;
  float_nan : F;
  float_of_int : Z -> F;
  float_of_str : str -> option F;
  float_add : F -> F -> F;
  float_mul : F -> F -> F;
  float_repr : F -> str;
  (* integers *)
  int_of_float : F -> option Z;
  int_of_str : str -> option Z;
  (* strings *)
  str_repr : str -> str;
  (* datetime *)
  strptime : str -> string -> option D;
  minus_days : D -> nat -> D;
  datetime_str : D -> str;
  datetime_repr : D -> str;
  (* json *)
  json_dumps : value F D -> str;
  (* formatting with a format specification, as in f"{x:,.2f}" *)
  format_spec : value F D -> string -> str;
  (* pandas and SQL *)
  infer_number : list (value F D) -> bool;
  series_sum : list (value F D) -> value F D;
  series_mean : list (value F D) -> value F D;
  series_min : list (value F D) -> value F D;
  series_max : list (value F D) -> value F D;
  nlargest1 : DataFrame F D -> str -> list (str * value F D);
  head_to_string : DataFrame F D -> str;
  sql_leb : value F D -> value F D -> bool;
  read_sql :
    str -> database F D -> (exn + DataFrame F D) * database F D
}.

Section PythonValues.

Context {F D : Type} {E : PyEnv F D}.

Notation val := (value F D).
Definition dict := list (str * val).

(** [d.get(k, default)] *)
Fixpoint dict_get (k : str) (d : dict) (default : val) : val :=
  match d with
  | [] => default
  | (k', v) :: rest => if str_eqb k k' then v else dict_get k rest default
  end.

(** [k in d] *)
Fixpoint dict_has (k : str) (d : dict) : bool :=
  match d with
  | [] => false
  | (k', _) :: rest => str_eqb k k' || dict_has k rest
  end.

(** [d[k] = v]: an existing key keeps its position. *)
Fixpoint dict_set (k : str) (v : val) (d : dict) : dict :=
  match d with
  | [] => [(k, v)]
  | (k', v') :: rest =>
      if str_eqb k k' then (k, v) :: rest else (k', v') :: dict_set k v rest
  end.

(** [d.update(other)] *)
Definition dict_update (d other : dict) : dict :=
  fold_left (fun acc kv => dict_set (fst kv) (snd kv) acc) other d.

(** [sep.join(parts)] *)
Fixpoint join (sep : str) (parts : list str) : str :=
  match parts with
  | [] => []
  | [p] => p
  | p :: rest => p ++ sep ++ join sep rest
  end.

Definition str_of_Z (z : Z) : str :=
  lit (NilEmpty.string_of_int (Z.to_int z)).

(** [repr(v)] *)
Fixpoint py_repr (v : val) : str :=
  match v with
  | VNone => lit "None"
  | VBool true => lit "True"
  | VBool false => lit "False"
  | VInt z => str_of_Z z
  | VFloat f => float_repr f
  | VStr s => str_repr s
  | VList l => lit "[" ++ join (lit ", ") (map py_repr l) ++ lit "]"
  | VDict kv =>
      lit "{" ++
      join (lit ", ")
        (map (fun e => match e with
                       | (k, x) => str_repr k ++ lit ": " ++ py_repr x
                       end) kv) ++
      lit "}"
  | VDatetime d => datetime_repr d
  end.

(** [str(v)], which is what an f-string field without a format
    specification inserts. *)
Definition py_str (v : val) : str :=
  match v with
  | VStr s => s
  | VDatetime d => datetime_str d
  | _ => py_repr v
  end.

(** The largest magnitude an [int] may have for [float(int)] not to raise
    [OverflowError]. *)
Definition float_int_bound : Z := (2 ^ 1024 - 2 ^ 970)%Z.

(** [float(v)]; [None] when the call raises. *)
Definition py_float (v : val) : option F :=
  match v with
  | VBool b => Some (float_of_int (if b then 1 else 0)%Z)
  | VInt z =>
      if (Z.abs z <? float_int_bound)%Z then Some (float_of_int z) else None
  | VFloat f => Some f
  | VStr s => float_of_str s
  | VNone | VList _ | VDict _ | VDatetime _ => None
  end.

(** [int(v)]; [None] when the call raises. *)
Definition py_int (v : val) : option Z :=
  match v with
  | VBool b => Some (if b then 1 else 0)%Z
  | VInt z => Some z
  | VFloat f => int_of_float f
  | VStr s => int_of_str s
  | VNone | VList _ | VDict _ | VDatetime _ => None
  end.

End PythonValues.

(** ** The API client ([facebook_api.py]) *)

Section FacebookApi.

Context {F D : Type} {E : PyEnv F D}.

Notation val := (value F D).
Notation record := (@dict F D).

Record FacebookAPI : Type := {
  access_token : str;
  api_version : str;
  base_url : str;
  limit : Z
}.

(** [FacebookAPI.__init__], with the access token read from the
    environment. *)
Definition init (token : str) : FacebookAPI :=
  {| access_token := token;
     api_version := lit "v18.0";
     base_url := lit "https://graph.facebook.com/" ++ lit "v18.0";
     limit := 500 |}.

(** One GET request as handed to [requests.get]. *)
Record request : Type := {
  req_url : str;
  req_params : record
}.

(** The JSON body of a page: an optional ['data'] array of objects and an
    optional ['paging'] object with an optional ['next'] URL. *)
Record paging : Type := { paging_next : option str }.

Record response : Type := {
  resp_data : option (list record);
  resp_paging : option paging
}.

(** What the remote end does with one request: the call raises a
    [RequestException] (transport error or HTTP error status), or it returns
    a body. *)
Inductive reply : Type :=
| Raises (msg : str)
| Returns (r : response).

(** The network is a script of replies, served in order; a request that
    finds the script empty raises.  [sent] records the requests made and
    [slept] counts the calls of [time.sleep(0.1)]. *)
Record world : Type := {
  script : list reply;
  sent : list request;
  slept : nat
}.

(** The URL and the query parameters that [_make_request] passes to
    [requests.get]. *)
Definition request_of (api : FacebookAPI) (endpoint : str)
    (params : option record) : request :=
  let url := base_url api ++ lit "/" ++ endpoint in
  let default_params :=
    [(lit "access_token", VStr (access_token api));
     (lit "limit", VInt (limit api))] in
  let default_params :=
    match params with
    | Some ((_ :: _) as p) => dict_update default_params p
    | _ => default_params
    end in
  {| req_url := url; req_params := default_params |}.

Definition _make_request (api : FacebookAPI) (endpoint : str)
    (params : option record) (w : world) : (exn + response) * world :=
  let req := request_of api endpoint params in
  match script w with
  | [] =>
      (inl StopIteration,
       {| script := []; sent := sent w ++ [req]; slept := slept w |})
  | Raises msg :: rest =>
      (inl (RequestException msg),
       {| script := rest; sent := sent w ++ [req]; slept := slept w |})
  | Returns r :: rest =>
      (inr r, {| script := rest; sent := sent w ++ [req]; slept := slept w |})
  end.

(** [response['paging']['next']] when both keys are present. *)
Definition next_of (r : response) : option str :=
  match resp_paging r with
  | Some pg => paging_next pg
  | None => None
  end.

(** [next_url.split('after=')[1].split('&')[0] if 'after=' in next_url
    else None]; the index [1] exists whenever the separator occurs. *)
Definition after_param (next_url : str) : option str :=
  if contains (lit "after=") next_url
  then Some (nth 0 (split (lit "&") (nth 1 (split (lit "after=") next_url) []))
               [])
  else None.

Definition sleep (w : world) : world :=
  {| script := script w; sent := sent w; slept := S (slept w) |}.

(** The [while] loop of [_paginate_request].  Every turn that goes on
    consumes one reply of the script, so [fuel] bounds the turns. *)
Fixpoint paginate_loop (fuel : nat) (api : FacebookAPI) (endpoint : str)
    (params : option record) (response0 : response) (all_data : list record)
    (w : world) : (exn + list record) * world :=
  match fuel with
  | O => (inl OutOfFuel, w)
  | S fuel' =>
      match next_of response0 with
      | None => (inr all_data, w)
      | Some next_url =>
          match after_param next_url with
          | Some ((_ :: _) as after) =>
              let paginated_params :=
                dict_set (lit "after") (VStr after)
                  (match params with Some p => p | None => [] end) in
              match _make_request api endpoint (Some paginated_params) w with
              | (inl e, w') => (inl e, w')
              | (inr response1, w') =>
                  match resp_data response1 with
                  | Some d =>
                      paginate_loop fuel' api endpoint params response1
                        (all_data ++ d) (sleep w')
                  | None => (inr all_data, w')
                  end
              end
          | _ => (inr all_data, w)
          end
      end
  end.

Definition _paginate_request (api : FacebookAPI) (endpoint : str)
    (params : option record) (w : world) : (exn + list record) * world :=
  match _make_request api endpoint params w with
  | (inl e, w') => (inl e, w')
  | (inr response0, w') =>
      let all_data :=
        match resp_data response0 with Some d => d | None => [] end in
      paginate_loop (S (length (script w'))) api endpoint params response0
        all_data w'
  end.

(** *** The pages a pagination walks through *)

(** [response['data']], or nothing when the key is absent. *)
Definition page_items (r : response) : list record :=
  match resp_data r with Some d => d | None => [] end.

(** The cursor that the loop takes from a page: the non-empty [after]
    parameter of its [next] URL. *)
Definition cursor_of (r : response) : option str :=
  match next_of r with
  | Some next_url =>
      match after_param next_url with
      | Some ((_ :: _) as after) => Some after
      | _ => None
      end
  | None => None
  end.

(** The parameters of the request that follows a cursor. *)
Definition follow_params (params : option record) (after : str)
    : option record :=
  Some (dict_set (lit "after") (VStr after)
          (match params with Some p => p | None => [] end)).

Definition is_some {A : Type} (o : option A) : bool :=
  match o with Some _ => true | None => false end.

(** [walks current more]: from the page [current] the loop fetches exactly
    the pages [more] and then stops.  It goes on while the current page
    carries a cursor, and it stops on a page without cursor or right after
    fetching a page without ['data']. *)
Fixpoint walks (current : response) (more : list response) : bool :=
  match more with
  | [] => negb (is_some (cursor_of current))
  | q :: more' =>
      is_some (cursor_of current) &&
      match resp_data q with
      | Some _ => walks q more'
      | None => match more' with [] => true | _ :: _ => false end
      end
  end.

(** The cursors taken while walking: one for each page that is followed by
    another. *)
Fixpoint cursors_of (current : response) (more : list response) : list str :=
  match more with
  | [] => []
  | q :: more' =>
      match cursor_of current with
      | Some after => after :: cursors_of q more'
      | None => []
      end
  end.

(** The pauses made while walking: one after each fetched page that has
    ['data']. *)
Definition pauses (more : list response) : nat :=
  length (filter (fun q => is_some (resp_data q)) more).

(** [keeps_going current more]: from the page [current] the loop fetches
    the pages [more] and then asks for yet another page. *)
Fixpoint keeps_going (current : response) (more : list response) : bool :=
  is_some (cursor_of current) &&
  match more with
  | [] => true
  | q :: more' => is_some (resp_data q) && keeps_going q more'
  end.

(** The pages served before a request that fails: none, or the pages of a
    walk that goes on. *)
Definition continues (pages : list response) : bool :=
  match pages with
  | [] => true
  | first :: more => keeps_going first more
  end.

(** The next request fails: the script is exhausted or its next reply
    raises. *)
Definition request_fails (replies : list reply) : bool :=
  match replies with
  | Returns _ :: _ => false
  | _ => true
  end.

(** [params[k]] of a request. *)
Definition param_of (k : string) (rq : request) : val :=
  dict_get (lit k) (req_params rq) VNone.

(** Caller parameters that set neither the page size nor a cursor. *)
Definition plain (params : option record) : bool :=
  match params with
  | Some p => negb (dict_has (lit "limit") p) && negb (dict_has (lit "after") p)
  | None => true
  end.

(** *** Field parsers *)

(** A falsy argument returns [None] at the first test; any other value that
    is not a string makes [strptime] raise [TypeError], which the handlers
    swallow. *)
Definition _parse_datetime (date_string : val) : val :=
  match date_string with
  | VStr ((_ :: _) as s) =>
      match strptime s "%Y-%m-%dT%H:%M:%S%z" with
      | Some d => VDatetime d
      | None =>
          match strptime s "%Y-%m-%d %H:%M:%S" with
          | Some d => VDatetime d
          | None => VNone
          end
      end
  | _ => VNone
  end.

Definition _parse_date (date_string : val) : val :=
  match date_string with
  | VStr ((_ :: _) as s) =>
      match strptime s "%Y-%m-%d" with
      | Some d => VDatetime d
      | None => VNone
      end
  | _ => VNone
  end.

Definition is_none_or_empty (v : val) : bool :=
  match v with
  | VNone => true
  | VStr [] => true
  | _ => false
  end.

Definition _parse_float (v : val) : F :=
  if is_none_or_empty v then float_lit "0.0"
  else match py_float v with
       | Some f => f
       | None => float_lit "0.0"
       end.

Definition _parse_int (v : val) : Z :=
  if is_none_or_empty v then 0%Z
  else match py_int v with
       | Some z => z
       | None => 0%Z
       end.

(** [d.get(k)] *)
Definition get (k : string) (d : record) : val := dict_get (lit k) d VNone.

Definition entry (k : string) (v : val) : str * val := (lit k, v).

(** *** Sample data returned when the API fails.  [now k] is the value of
    the [k]-th evaluation of [datetime.now()] in the call. *)

Definition _get_sample_campaigns (account_id : str) (now : nat -> D)
    : list record :=
  [ [ entry "id" (VStr (lit "camp_001"));
      entry "account_id" (VStr account_id);
      entry "name" (VStr (lit "Holiday Sales Campaign"));
      entry "status" (VStr (lit "ACTIVE"));
      entry "objective" (VStr (lit "CONVERSIONS"));
      entry "created_time" (VDatetime (minus_days (now 0) 30));
      entry "updated_time" (VDatetime (minus_days (now 1) 1));
      entry "start_time" (VDatetime (minus_days (now 2) 30));
      entry "stop_time" VNone;
      entry "budget_remaining" (VFloat (float_lit "5000.0"));
      entry "daily_budget" (VFloat (float_lit "100.0"));
      entry "lifetime_budget" VNone;
      entry "data" (VDict []) ];
    [ entry "id" (VStr (lit "camp_002"));
      entry "account_id" (VStr account_id);
      entry "name" (VStr (lit "Brand Awareness Campaign"));
      entry "status" (VStr (lit "ACTIVE"));
      entry "objective" (VStr (lit "BRAND_AWARENESS"));
      entry "created_time" (VDatetime (minus_days (now 3) 20));
      entry "updated_time" (VDatetime (minus_days (now 4) 2));
      entry "start_time" (VDatetime (minus_days (now 5) 20));
      entry "stop_time" VNone;
      entry "budget_remaining" (VFloat (float_lit "3000.0"));
      entry "daily_budget" (VFloat (float_lit "75.0"));
      entry "lifetime_budget" VNone;
      entry "data" (VDict []) ] ].

Definition _get_sample_adsets (account_id : str) (now : nat -> D)
    : list record :=
  [ [ entry "id" (VStr (lit "adset_001"));
      entry "account_id" (VStr account_id);
      entry "campaign_id" (VStr (lit "camp_001"));
      entry "name" (VStr (lit "Holiday Sales - Desktop"));
      entry "status" (VStr (lit "ACTIVE"));
      entry "optimization_goal" (VStr (lit "CONVERSIONS"));
      entry "billing_event" (VStr (lit "IMPRESSIONS"));
      entry "bid_amount" (VFloat (float_lit "2.50"));
      entry "daily_budget" (VFloat (float_lit "50.0"));
      entry "lifetime_budget" VNone;
      entry "start_time" (VDatetime (minus_days (now 0) 30));
      entry "end_time" VNone;
      entry "created_time" (VDatetime (minus_days (now 1) 30));
      entry "updated_time" (VDatetime (minus_days (now 2) 1));
      entry "data" (VDict []) ];
    [ entry "id" (VStr (lit "adset_002"));
      entry "account_id" (VStr account_id);
      entry "campaign_id" (VStr (lit "camp_001"));
      entry "name" (VStr (lit "Holiday Sales - Mobile"));
      entry "status" (VStr (lit "ACTIVE"));
      entry "optimization_goal" (VStr (lit "CONVERSIONS"));
      entry "billing_event" (VStr (lit "IMPRESSIONS"));
      entry "bid_amount" (VFloat (float_lit "2.00"));
      entry "daily_budget" (VFloat (float_lit "50.0"));
      entry "lifetime_budget" VNone;
      entry "start_time" (VDatetime (minus_days (now 3) 30));
      entry "end_time" VNone;
      entry "created_time" (VDatetime (minus_days (now 4) 30));
      entry "updated_time" (VDatetime (minus_days (now 5) 1));
      entry "data" (VDict []) ] ].

Definition _get_sample_ads (account_id : str) (now : nat -> D)
    : list record :=
  [ [ entry "id" (VStr (lit "ad_001"));
      entry "account_id" (VStr account_id);
      entry "campaign_id" (VStr (lit "camp_001"));
      entry "adset_id" (VStr (lit "adset_001"));
      entry "name" (VStr (lit "Holiday Sale - Desktop Video"));
      entry "status" (VStr (lit "ACTIVE"));
      entry "created_time" (VDatetime (minus_days (now 0) 30));
      entry "updated_time" (VDatetime (minus_days (now 1) 1));
      entry "data" (VDict []) ];
    [ entry "id" (VStr (lit "ad_002"));
      entry "account_id" (VStr account_id);
      entry "campaign_id" (VStr (lit "camp_001"));
      entry "adset_id" (VStr (lit "adset_002"));
      entry "name" (VStr (lit "Holiday Sale - Mobile Image"));
      entry "status" (VStr (lit "ACTIVE"));
      entry "created_time" (VDatetime (minus_days (now 2) 30));
      entry "updated_time" (VDatetime (minus_days (now 3) 1));
      entry "data" (VDict []) ] ].

(** [a + (i * b)] with an integer [a], an integer [i] and a float [b]. *)
Definition int_plus_scaled (a : Z) (i : nat) (b : string) : F :=
  float_add (float_of_int a) (float_mul (float_of_int (Z.of_nat i)) (float_lit b)).

(** [a + (i * b)] with floats [a] and [b]. *)
Definition float_plus_scaled (a : string) (i : nat) (b : string) : F :=
  float_add (float_lit a) (float_mul (float_of_int (Z.of_nat i)) (float_lit b)).

Definition sample_insight_pair (account_id : str) (now : nat -> D) (i : nat)
    : list record :=
  let date := VDatetime (minus_days (now i) i) in
  let zi := Z.of_nat i in
  [ [ entry "id" (VStr (lit "insight_" ++ str_of_nat i ++ lit "_1"));
      entry "account_id" (VStr account_id);
      entry "campaign_id" (VStr (lit "camp_001"));
      entry "adset_id" (VStr (lit "adset_001"));
      entry "ad_id" (VStr (lit "ad_001"));
      entry "date_start" date;
      entry "date_stop" date;
      entry "impressions" (VInt (1000 + zi * 50));
      entry "clicks" (VInt (50 + zi * 2));
      entry "spend" (VFloat (float_plus_scaled "45.50" i "1.5"));
      entry "reach" (VInt (800 + zi * 30));
      entry "frequency" (VFloat (float_plus_scaled "1.2" i "0.01"));
      entry "cpm" (VFloat (float_lit "45.50"));
      entry "cpc" (VFloat (float_lit "0.91"));
      entry "ctr" (VFloat (float_lit "5.0"));
      entry "cpp" (VFloat (float_lit "0.057"));
      entry "actions" (VList []);
      entry "cost_per_action_type" (VList []);
      entry "data" (VDict []) ];
    [ entry "id" (VStr (lit "insight_" ++ str_of_nat i ++ lit "_2"));
      entry "account_id" (VStr account_id);
      entry "campaign_id" (VStr (lit "camp_002"));
      entry "adset_id" (VStr (lit "adset_002"));
      entry "ad_id" (VStr (lit "ad_002"));
      entry "date_start" date;
      entry "date_stop" date;
      entry "impressions" (VInt (800 + zi * 40));
      entry "clicks" (VFloat (int_plus_scaled 40 i "1.5"));
      entry "spend" (VFloat (float_plus_scaled "35.75" i "1.2"));
      entry "reach" (VInt (650 + zi * 25));
      entry "frequency" (VFloat (float_plus_scaled "1.1" i "0.008"));
      entry "cpm" (VFloat (float_lit "44.69"));
      entry "cpc" (VFloat (float_lit "0.89"));
      entry "ctr" (VFloat (float_lit "5.2"));
      entry "cpp" (VFloat (float_lit "0.055"));
      entry "actions" (VList []);
      entry "cost_per_action_type" (VList []);
      entry "data" (VDict []) ] ].

Definition _get_sample_insights (account_id : str) (now : nat -> D)
    : list record :=
  flat_map (sample_insight_pair account_id now) (seq 0 30).

(** *** The four fetch operations *)

Definition campaign_fields : list str :=
  map lit ["id"; "name"; "status"; "objective"; "created_time"; "updated_time";
           "start_time"; "stop_time"; "budget_remaining"; "daily_budget";
           "lifetime_budget"; "account_id"]%string.

Definition process_campaign (account_id : str) (campaign : record) : record :=
  [ entry "id" (get "id" campaign);
    entry "account_id" (VStr account_id);
    entry "name" (get "name" campaign);
    entry "status" (get "status" campaign);
    entry "objective" (get "objective" campaign);
    entry "created_time" (_parse_datetime (get "created_time" campaign));
    entry "updated_time" (_parse_datetime (get "updated_time" campaign));
    entry "start_time" (_parse_datetime (get "start_time" campaign));
    entry "stop_time" (_parse_datetime (get "stop_time" campaign));
    entry "budget_remaining"
      (VFloat (_parse_float (get "budget_remaining" campaign)));
    entry "daily_budget" (VFloat (_parse_float (get "daily_budget" campaign)));
    entry "lifetime_budget"
      (VFloat (_parse_float (get "lifetime_budget" campaign)));
    entry "data" (VDict campaign) ].

Definition fetch_campaigns (api : FacebookAPI) (account_id : str)
    (now : nat -> D) (w : world) : list record * world :=
  let endpoint := account_id ++ lit "/campaigns" in
  let params := [entry "fields" (VStr (join (lit ",") campaign_fields))] in
  match _paginate_request api endpoint (Some params) w with
  | (inr campaigns, w') => (map (process_campaign account_id) campaigns, w')
  | (inl _, w') => (_get_sample_campaigns account_id now, w')
  end.

Definition adset_fields : list str :=
  map lit ["id"; "name"; "status"; "campaign_id"; "optimization_goal";
           "billing_event"; "bid_amount"; "daily_budget"; "lifetime_budget";
           "start_time"; "end_time"; "created_time"; "updated_time";
           "account_id"]%string.

Definition process_adset (account_id : str) (adset : record) : record :=
  [ entry "id" (get "id" adset);
    entry "account_id" (VStr account_id);
    entry "campaign_id" (get "campaign_id" adset);
    entry "name" (get "name" adset);
    entry "status" (get "status" adset);
    entry "optimization_goal" (get "optimization_goal" adset);
    entry "billing_event" (get "billing_event" adset);
    entry "bid_amount" (VFloat (_parse_float (get "bid_amount" adset)));
    entry "daily_budget" (VFloat (_parse_float (get "daily_budget" adset)));
    entry "lifetime_budget"
      (VFloat (_parse_float (get "lifetime_budget" adset)));
    entry "start_time" (_parse_datetime (get "start_time" adset));
    entry "end_time" (_parse_datetime (get "end_time" adset));
    entry "created_time" (_parse_datetime (get "created_time" adset));
    entry "updated_time" (_parse_datetime (get "updated_time" adset));
    entry "data" (VDict adset) ].

Definition fetch_adsets (api : FacebookAPI) (account_id : str)
    (now : nat -> D) (w : world) : list record * world :=
  let endpoint := account_id ++ lit "/adsets" in
  let params := [entry "fields" (VStr (join (lit ",") adset_fields))] in
  match _paginate_request api endpoint (Some params) w with
  | (inr adsets, w') => (map (process_adset account_id) adsets, w')
  | (inl _, w') => (_get_sample_adsets account_id now, w')
  end.

Definition ad_fields : list str :=
  map lit ["id"; "name"; "status"; "campaign_id"; "adset_id"; "created_time";
           "updated_time"; "account_id"]%string.

Definition process_ad (account_id : str) (ad : record) : record :=
  [ entry "id" (get "id" ad);
    entry "account_id" (VStr account_id);
    entry "campaign_id" (get "campaign_id" ad);
    entry "adset_id" (get "adset_id" ad);
    entry "name" (get "name" ad);
    entry "status" (get "status" ad);
    entry "created_time" (_parse_datetime (get "created_time" ad));
    entry "updated_time" (_parse_datetime (get "updated_time" ad));
    entry "data" (VDict ad) ].

Definition fetch_ads (api : FacebookAPI) (account_id : str)
    (now : nat -> D) (w : world) : list record * world :=
  let endpoint := account_id ++ lit "/ads" in
  let params := [entry "fields" (VStr (join (lit ",") ad_fields))] in
  match _paginate_request api endpoint (Some params) w with
  | (inr ads, w') => (map (process_ad account_id) ads, w')
  | (inl _, w') => (_get_sample_ads account_id now, w')
  end.

Definition insight_fields : list str :=
  map lit ["impressions"; "clicks"; "spend"; "reach"; "frequency"; "cpm";
           "cpc"; "ctr"; "cpp"; "actions"; "cost_per_action_type";
           "campaign_id"; "adset_id"; "ad_id"; "date_start";
           "date_stop"]%string.

(** The record built from [insight] when [n] records have been processed
    before it. *)
Definition process_insight (account_id : str) (n : nat) (insight : record)
    : record :=
  [ entry "id"
      (VStr (py_str (dict_get (lit "campaign_id") insight (VStr [])) ++
             lit "-" ++
             py_str (dict_get (lit "date_start") insight (VStr [])) ++
             lit "-" ++ str_of_nat n));
    entry "account_id" (VStr account_id);
    entry "campaign_id" (get "campaign_id" insight);
    entry "adset_id" (get "adset_id" insight);
    entry "ad_id" (get "ad_id" insight);
    entry "date_start" (_parse_date (get "date_start" insight));
    entry "date_stop" (_parse_date (get "date_stop" insight));
    entry "impressions" (VInt (_parse_int (get "impressions" insight)));
    entry "clicks" (VInt (_parse_int (get "clicks" insight)));
    entry "spend" (VFloat (_parse_float (get "spend" insight)));
    entry "reach" (VInt (_parse_int (get "reach" insight)));
    entry "frequency" (VFloat (_parse_float (get "frequency" insight)));
    entry "cpm" (VFloat (_parse_float (get "cpm" insight)));
    entry "cpc" (VFloat (_parse_float (get "cpc" insight)));
    entry "ctr" (VFloat (_parse_float (get "ctr" insight)));
    entry "cpp" (VFloat (_parse_float (get "cpp" insight)));
    entry "actions" (get "actions" insight);
    entry "cost_per_action_type" (get "cost_per_action_type" insight);
    entry "data" (VDict insight) ].

(** The processing loop of [fetch_insights]: each record is appended to
    [processed_insights], whose length at that moment enters its id. *)
Definition process_insights (account_id : str) (insights : list record)
    : list record :=
  fold_left
    (fun processed_insights insight =>
       processed_insights ++
       [process_insight account_id (length processed_insights) insight])
    insights [].

Definition insight_params (date_preset : str) : record :=
  [ entry "fields" (VStr (join (lit ",") insight_fields));
    entry "date_preset" (VStr date_preset);
    entry "time_increment" (VInt 1) ].

Definition fetch_insights (api : FacebookAPI) (account_id : str)
    (date_preset : str) (now : nat -> D) (w : world) : list record * world :=
  let endpoint := account_id ++ lit "/insights" in
  let params := insight_params date_preset in
  match _paginate_request api endpoint (Some params) w with
  | (inr insights, w') => (process_insights account_id insights, w')
  | (inl _, w') => (_get_sample_insights account_id now, w')
  end.

(** The records that the processing loop appends for [insights] when [k]
    records were processed before. *)
Fixpoint process_from (account_id : str) (k : nat) (insights : list record)
    : list record :=
  match insights with
  | [] => []
  | insight :: rest =>
      process_insight account_id k insight ::
      process_from account_id (S k) rest
  end.

(** The part of an insight id that comes from the field [k]. *)
Definition id_part (k : string) (insight : record) : str :=
  py_str (dict_get (lit k) insight (VStr [])).

(** *** The four operations by entity *)

Definition fetch (t : entity) (api : FacebookAPI) (account_id : str)
    (now : nat -> D) (w : world) : list record * world :=
  match t with
  | Campaigns => fetch_campaigns api account_id now w
  | AdSets => fetch_adsets api account_id now w
  | Ads => fetch_ads api account_id now w
  | Insights => fetch_insights api account_id (lit "last_30d") now w
  end.

Definition sample (t : entity) (account_id : str) (now : nat -> D)
    : list record :=
  match t with
  | Campaigns => _get_sample_campaigns account_id now
  | AdSets => _get_sample_adsets account_id now
  | Ads => _get_sample_ads account_id now
  | Insights => _get_sample_insights account_id now
  end.

Definition processed (t : entity) (account_id : str) (items : list record)
    : list record :=
  match t with
  | Campaigns => map (process_campaign account_id) items
  | AdSets => map (process_adset account_id) items
  | Ads => map (process_ad account_id) items
  | Insights => process_insights account_id items
  end.

(** The fields of a processed record that go through [_parse_float] and
    through [_parse_int]. *)
Definition float_fields (t : entity) : list string :=
  match t with
  | Campaigns => ["budget_remaining"; "daily_budget"; "lifetime_budget"]
  | AdSets => ["bid_amount"; "daily_budget"; "lifetime_budget"]
  | Ads => []
  | Insights => ["spend"; "frequency"; "cpm"; "cpc"; "ctr"; "cpp"]
  end%string.

Definition int_fields (t : entity) : list string :=
  match t with
  | Insights => ["impressions"; "clicks"; "reach"]
  | _ => []
  end%string.

(** The keys of a processed record, in order. *)
Definition record_keys (t : entity) : list str :=
  match t with
  | Campaigns => map fst (process_campaign [] [])
  | AdSets => map fst (process_adset [] [])
  | Ads => map fst (process_ad [] [])
  | Insights => map fst (process_insight [] 0 [])
  end.

Definition fetch_endpoint (t : entity) (account_id : str) : str :=
  match t with
  | Campaigns => account_id ++ lit "/campaigns"
  | AdSets => account_id ++ lit "/adsets"
  | Ads => account_id ++ lit "/ads"
  | Insights => account_id ++ lit "/insights"
  end.

Definition fetch_params (t : entity) : record :=
  match t with
  | Campaigns => [entry "fields" (VStr (join (lit ",") campaign_fields))]
  | AdSets => [entry "fields" (VStr (join (lit ",") adset_fields))]
  | Ads => [entry "fields" (VStr (join (lit ",") ad_fields))]
  | Insights => insight_params (lit "last_30d")
  end.

End FacebookApi.

(** ** The persistence layer ([database.py]) *)

Section Database.

Context {F D : Type} {E : PyEnv F D}.

Notation val := (value F D).
Notation record := (@dict F D).
Notation frame := (DataFrame F D).

Fixpoint str_mem (k : str) (ks : list str) : bool :=
  match ks with
  | [] => false
  | k' :: rest => str_eqb k k' || str_mem k rest
  end.

Definition columns (df : frame) : list str := map fst (df_columns df).

(** The column labels of [pd.DataFrame(records)]: the keys of the records
    in the order in which they first appear. *)
Definition union_keys (records : list record) : list str :=
  fold_left
    (fun acc r =>
       fold_left (fun acc k => if str_mem k acc then acc else acc ++ [k])
         (map fst r) acc)
    records [].

(** [pd.DataFrame(records)]: a record that lacks a column gets NaN
    there. *)
Definition new_DataFrame (records : list record) : frame :=
  let cols := union_keys records in
  let cell c r := dict_get c r (VFloat float_nan) in
  {| df_columns := map (fun c => (c, infer_number (map (cell c) records))) cols;
     df_records := map (fun r => map (fun c => (c, cell c r)) cols) records |}.

(** [df[col] = df[col].apply(lambda x: json.dumps(x) if x is not None else
    None)] under the test [col in df.columns]. *)
Definition dumps_cell (x : val) : val :=
  match x with
  | VNone => VNone
  | _ => VStr (json_dumps x)
  end.

Definition dumps_column (col : str) (df : frame) : frame :=
  if str_mem col (columns df)
  then {| df_columns :=
            map (fun c => if str_eqb col (fst c) then (fst c, false) else c)
              (df_columns df);
          df_records :=
            map (fun r => dict_set col (dumps_cell (dict_get col r VNone)) r)
              (df_records df) |}
  else df.

Fixpoint table_get (name : str) (db : database F D) : option frame :=
  match db with
  | [] => None
  | (n, t) :: rest => if str_eqb name n then Some t else table_get name rest
  end.

Fixpoint table_put (name : str) (t : frame) (db : database F D)
    : database F D :=
  match db with
  | [] => [(name, t)]
  | (n, t') :: rest =>
      if str_eqb name n then (n, t) :: rest
      else (n, t') :: table_put name t rest
  end.

(** The manager's connection: the tables, and the statements that
    [execute_query] has handed to the engine. *)
Record DatabaseManager : Type := {
  tables : database F D;
  executed : list str
}.

(** [df.to_sql(name, engine, if_exists='replace', index=False)]: the table
    is dropped and created anew from the frame. *)
Definition to_sql (name : str) (df : frame) (dm : DatabaseManager)
    : DatabaseManager :=
  {| tables := table_put name df (tables dm); executed := executed dm |}.

Definition store_campaigns (campaigns_data : list record)
    (dm : DatabaseManager) : DatabaseManager :=
  let df := new_DataFrame campaigns_data in
  let df := dumps_column (lit "data") df in
  to_sql (lit "campaigns") df dm.

Definition store_adsets (adsets_data : list record) (dm : DatabaseManager)
    : DatabaseManager :=
  let df := new_DataFrame adsets_data in
  let df := dumps_column (lit "data") df in
  to_sql (lit "adsets") df dm.

Definition store_ads (ads_data : list record) (dm : DatabaseManager)
    : DatabaseManager :=
  let df := new_DataFrame ads_data in
  let df := dumps_column (lit "data") df in
  to_sql (lit "ads") df dm.

Definition store_insights (insights_data : list record)
    (dm : DatabaseManager) : DatabaseManager :=
  let df := new_DataFrame insights_data in
  let json_columns := map lit ["actions"; "cost_per_action_type"; "data"]%string in
  let df := fold_left (fun df col => dumps_column col df) json_columns df in
  to_sql (lit "insights") df dm.

(** *** Retrieval *)

(** Insertion into a list that is in descending order of [col]. *)
Fixpoint insert_desc (col : str) (r : record) (rows : list record)
    : list record :=
  match rows with
  | [] => [r]
  | r' :: rest =>
      if sql_leb (dict_get col r' VNone) (dict_get col r VNone)
      then r :: rows
      else r' :: insert_desc col r rest
  end.

Definition order_by_desc (col : str) (rows : list record) : list record :=
  fold_right (insert_desc col) [] rows.

(** [pd.read_sql("SELECT * FROM name ORDER BY col DESC", engine)]: the
    statement fails when the table or the column does not exist. *)
Definition select_all_order_by_desc (name col : str) (dm : DatabaseManager)
    : exn + frame :=
  match table_get name (tables dm) with
  | None => inl (DatabaseError (lit "relation does not exist"))
  | Some t =>
      if str_mem col (columns t)
      then inr {| df_columns := df_columns t;
                  df_records := order_by_desc col (df_records t) |}
      else inl (DatabaseError (lit "column does not exist"))
  end.

Definition get_campaigns (dm : DatabaseManager) : list record :=
  match select_all_order_by_desc (lit "campaigns") (lit "created_time") dm with
  | inr df => df_records df
  | inl _ => []
  end.

Definition get_adsets (dm : DatabaseManager) : list record :=
  match select_all_order_by_desc (lit "adsets") (lit "created_time") dm with
  | inr df => df_records df
  | inl _ => []
  end.

Definition get_ads (dm : DatabaseManager) : list record :=
  match select_all_order_by_desc (lit "ads") (lit "created_time") dm with
  | inr df => df_records df
  | inl _ => []
  end.

Definition get_insights (dm : DatabaseManager) : list record :=
  match select_all_order_by_desc (lit "insights") (lit "date_start") dm with
  | inr df => df_records df
  | inl _ => []
  end.

(** [execute_query]: the statement goes to the engine as it is; an error
    is logged and raised again. *)
Definition execute_query (query : str) (dm : DatabaseManager)
    : (exn + frame) * DatabaseManager :=
  let '(res, db') := read_sql query (tables dm) in
  (res, {| tables := db'; executed := executed dm ++ [query] |}).

(** *** Sequences of store operations *)

Definition table_name (t : entity) : str :=
  match t with
  | Campaigns => lit "campaigns"
  | AdSets => lit "adsets"
  | Ads => lit "ads"
  | Insights => lit "insights"
  end.

(** The column of the ORDER BY clause of the retrieval. *)
Definition order_column (t : entity) : str :=
  match t with
  | Campaigns | AdSets | Ads => lit "created_time"
  | Insights => lit "date_start"
  end.

Definition store (t : entity) (data : list record) (dm : DatabaseManager)
    : DatabaseManager :=
  match t with
  | Campaigns => store_campaigns data dm
  | AdSets => store_adsets data dm
  | Ads => store_ads data dm
  | Insights => store_insights data dm
  end.

Definition retrieve (t : entity) (dm : DatabaseManager) : list record :=
  match t with
  | Campaigns => get_campaigns dm
  | AdSets => get_adsets dm
  | Ads => get_ads dm
  | Insights => get_insights dm
  end.

(** The frame that a store operation writes for [data]. *)
Definition stored_frame (t : entity) (data : list record) : frame :=
  match t with
  | Insights =>
      dumps_column (lit "data")
        (dumps_column (lit "cost_per_action_type")
           (dumps_column (lit "actions") (new_DataFrame data)))
  | _ => dumps_column (lit "data") (new_DataFrame data)
  end.

Definition run (ops : list (entity * list record)) (dm : DatabaseManager)
    : DatabaseManager :=
  fold_left (fun dm op => store (fst op) (snd op) dm) ops dm.

(** The argument of the most recent store call for [t] in [ops]. *)
Fixpoint last_store (t : entity) (ops : list (entity * list record))
    : option (list record) :=
  match ops with
  | [] => None
  | (t', data) :: rest =>
      match last_store t rest with
      | Some later => Some later
      | None => if entity_eqb t t' then Some data else None
      end
  end.

End Database.

(** ** The query engine ([gemini_query.py]) *)

(** A text all of whose characters are ASCII. *)
Definition is_ascii (s : str) : bool := forallb (fun c => code c <? 128) s.

(** [str.strip()] and [str.upper()] as the interpreter provides them.  They
    know every white-space character and every letter of Unicode, which the
    functions [strip] and [upper] above do not; a text is given by the bytes
    of its UTF-8 encoding, and on a text of ASCII characters the
    interpreter's functions are [strip] and [upper].  The guard of the query
    engine is verified for every implementation of this interface. *)
Class PyText : Type := {
  str_strip : str -> str;
  str_upper : str -> str;
  str_strip_ascii : forall s, is_ascii s = true -> str_strip s = strip s;
  str_upper_ascii : forall s, is_ascii s = true -> str_upper s = upper s
}.

Section GeminiQuery.

Context {F D : Type} {E : PyEnv F D} {T : PyText}.

Notation val := (value F D).
Notation record := (@dict F D).
Notation frame := (DataFrame F D).

(** The engine holds a model only when an API key was configured;
    [generate_content] raises or returns the response text. *)
Record GeminiQueryEngine : Type := {
  model : option (str -> exn + str)
}.

Definition _clean_sql_response (response : str) : str :=
  let response := re_sub_lit_nl (lit "```sql") response in
  let response := re_sub_lit_nl (lit "```") response in
  let response := strip response in
  if negb (endswith (lit ";") response) then response ++ lit ";"
  else response.

(** The text of a response after both deletion passes and stripping. *)
Definition unfenced (response : str) : str :=
  strip (re_sub_lit_nl (lit "```") (re_sub_lit_nl (lit "```sql") response)).

(** [_execute_sql_query]: the test is
    [sql_query.strip().upper().startswith('SELECT')]. *)
Definition _execute_sql_query (sql_query : str) (dm : DatabaseManager)
    : (exn + frame) * DatabaseManager :=
  if negb (startswith (lit "SELECT") (str_upper (str_strip sql_query)))
  then (inl (ValueError (lit "Only SELECT queries are allowed")), dm)
  else execute_query sql_query dm.

Definition nl : str := [newline].

(** [len(data)] *)
Definition len (data : frame) : nat := length (df_records data).

(** [data.select_dtypes(include=['number']).columns] *)
Definition numeric_columns (data : frame) : list str :=
  map fst (filter snd (df_columns data)).

(** [data[col]] *)
Definition series (data : frame) (col : str) : list val :=
  map (fun r => dict_get col r VNone) (df_records data).

(** [data.empty] *)
Definition empty (data : frame) : bool :=
  match df_records data, df_columns data with
  | _ :: _, _ :: _ => false
  | _, _ => true
  end.

Definition _create_data_summary (data : frame) : str :=
  let summary :=
    lit "Rows: " ++ str_of_nat (len data) ++ lit ", Columns: " ++
    str_of_nat (length (columns data)) ++ nl in
  let summary :=
    summary ++ lit "Columns: " ++ join (lit ", ") (columns data) ++ nl in
  let numeric_cols := numeric_columns data in
  let summary :=
    match numeric_cols with
    | [] => summary
    | _ :: _ =>
        fold_left
          (fun summary col =>
             summary ++ col ++
             lit ": min=" ++ format_spec (series_min (series data col)) ".2f" ++
             lit ", max=" ++ format_spec (series_max (series data col)) ".2f" ++
             lit ", mean=" ++ format_spec (series_mean (series data col)) ".2f" ++
             nl)
          (firstn 3 numeric_cols)
          (summary ++ lit "Numeric Data Summary:" ++ nl)
    end in
  if 0 <? len data
  then summary ++ nl ++ lit "Sample Data (first 3 rows):" ++ nl ++
       head_to_string data
  else summary.

(** The sentence that the loop over the numeric columns appends for [col],
    if any. *)
Definition column_sentence (data : frame) (col : str) : list str :=
  if contains (lit "spend") (lower col) then
    let total := series_sum (series data col) in
    let avg := series_mean (series data col) in
    [lit "Total " ++ col ++ lit ": $" ++ format_spec total ",.2f" ++
     lit ", Average: $" ++ format_spec avg ",.2f"]
  else if contains (lit "ctr") (lower col) then
    let avg := series_mean (series data col) in
    [lit "Average " ++ col ++ lit ": " ++ format_spec avg ".2f" ++ lit "%"]
  else if str_mem (lower col) (map lit ["impressions"; "clicks"]%string) then
    let total := series_sum (series data col) in
    [lit "Total " ++ col ++ lit ": " ++ format_spec total ","]
  else [].



(** The list [insights] at the end of [_generate_fallback_insights]. *)
Definition fallback_sentences (data : frame) : list str :=
  let insights :=
    [lit "Found " ++ str_of_nat (len data) ++
     lit " records matching your query."] in
  let numeric_cols := numeric_columns data in
  let insights :=
    fold_left (fun insights col => insights ++ column_sentence data col)
      numeric_cols insights in
  if 1 <? len data then
    match numeric_cols with
    | top_col :: _ =>
        if str_mem (lit "name") (columns data) then
          let top_performer := dict_get (lit "name") (nlargest1 data top_col) VNone in
          insights ++
          [lit "Top performer by " ++ top_col ++ lit ": " ++
           py_str top_performer]
        else insights
    | [] => insights
    end
  else insights.

Definition _generate_fallback_insights (data : frame) (user_query : str)
    : str :=
  let insights := fallback_sentences data in
  match insights with
  | [] => lit "Data retrieved successfully."
  | _ :: _ => join (lit " ") insights
  end.

Definition indent : str := lit "            ".

Definition insights_prompt (user_query sql_query data_summary : str) : str :=
  nl ++
  indent ++ lit "Analyze the following data and provide insights based on the user's question." ++ nl ++
  indent ++ nl ++
  indent ++ lit "User Question: " ++ user_query ++ nl ++
  indent ++ lit "SQL Query: " ++ sql_query ++ nl ++
  indent ++ lit "Data Summary: " ++ data_summary ++ nl ++
  indent ++ nl ++
  indent ++ lit "Provide a concise analysis with:" ++ nl ++
  indent ++ lit "1. Key findings from the data" ++ nl ++
  indent ++ lit "2. Notable trends or patterns" ++ nl ++
  indent ++ lit "3. Actionable insights or recommendations" ++ nl ++
  indent ++ nl ++
  indent ++ lit "Keep the response under 200 words and focus on business value." ++ nl ++
  indent ++ nl ++
  indent ++ lit "Analysis:" ++ nl ++
  indent.

Definition _generate_insights (engine : GeminiQueryEngine) (user_query : str)
    (data : option frame) (sql_query : str) : str :=
  match data with
  | None => lit "No data found for the given query."
  | Some data =>
      if empty data then lit "No data found for the given query."
      else
        let data_summary := _create_data_summary data in
        let prompt := insights_prompt user_query sql_query data_summary in
        match model engine with
        | Some generate_content =>
            match generate_content prompt with
            | inr text => text
            | inl _ => _generate_fallback_insights data user_query
            end
        | None => _generate_fallback_insights data user_query
        end
  end.

Definition analytical_keywords : list str :=
  map lit
    ["roas"; "cac"; "cpr"; "ctr trend"; "vs"; "compared to"; "comparison";
     "best performing"; "worst performing"; "burning budget";
     "low performance"; "drops"; "spikes"; "anomalies"; "top creatives";
     "learning phase"; "limited by budget"; "audience size";
     "impact of changes"; "budget shifts"; "over-spending"; "under-spending";
     "unexpected spike"; "same day last week"; "yesterday vs today";
     "past 7 days"; "trend analysis"; "performance analysis"]%string.

Definition _is_analytical_query (user_query : str) : bool :=
  let query_lower := lower user_query in
  existsb (fun keyword => contains keyword query_lower) analytical_keywords.

End GeminiQuery.

(** ** A small implementation of the interface

    Floats are decimal fixed-point numbers counted in thousandths, with
    [None] for NaN; a [datetime] is a day number.  The instance shows that
    the interface can be implemented and lets the model run on concrete
    inputs. *)

Module Decimal.

Definition float := option Z.
Definition day := Z.

Definition digit_val (c : ascii) : option Z :=
  let n := code c in
  if (48 <=? n) && (n <=? 57) then Some (Z.of_nat (n - 48)) else None.

Fixpoint digits_from (acc : Z) (s : str) : option Z :=
  match s with
  | [] => Some acc
  | c :: r =>
      match digit_val c with
      | Some d => digits_from (acc * 10 + d) r
      | None => None
      end
  end.

Definition parse_digits (s : str) : option Z :=
  match s with
  | [] => None
  | _ :: _ => digits_from 0 s
  end.

Definition parse_signed (parse : str -> option Z) (s : str) : option Z :=
  match s with
  | c :: r =>
      if ascii_eqb c "-"%char then option_map Z.opp (parse r) else parse s
  | [] => None
  end.

Definition parse_thousandths (s : str) : option Z :=
  match split (lit ".") s with
  | [i] => option_map (Z.mul 1000) (parse_digits i)
  | [i; f] =>
      match parse_digits i, digits_from 0 (firstn 3 (f ++ lit "000")) with
      | Some a, Some b => Some (a * 1000 + b)%Z
      | _, _ => None
      end
  | _ => None
  end.

Definition to_float (s : str) : option float :=
  option_map Some (parse_signed parse_thousandths (strip s)).

Definition literal (s : string) : float :=
  match to_float (lit s) with
  | Some f => f
  | None => None
  end.

Definition of_int (z : Z) : float := Some (z * 1000)%Z.

Definition add (a b : float) : float :=
  match a, b with
  | Some x, Some y => Some (x + y)%Z
  | _, _ => None
  end.

Definition mul (a b : float) : float :=
  match a, b with
  | Some x, Some y => Some (Z.quot (x * y) 1000)
  | _, _ => None
  end.

Definition show_Z (z : Z) : str :=
  lit (NilEmpty.string_of_int (Z.to_int z)).

Definition pad3 (s : str) : str :=
  skipn (length s) (lit "000") ++ s.

Definition show (a : float) : str :=
  match a with
  | None => lit "nan"
  | Some x =>
      (if (x <? 0)%Z then lit "-" else []) ++
      show_Z (Z.quot (Z.abs x) 1000) ++ lit "." ++
      pad3 (show_Z (Z.rem (Z.abs x) 1000))
  end.

Definition truncate (a : float) : option Z :=
  option_map (fun x => Z.quot x 1000) a.

Definition to_int (s : str) : option Z :=
  parse_signed parse_digits (strip s).

Definition quote (s : str) : str := lit "'" ++ s ++ lit "'".

Definition parse_day (s : str) (format : string) : option day :=
  parse_digits s.

Fixpoint join_with (sep : str) (parts : list str) : str :=
  match parts with
  | [] => []
  | [p] => p
  | p :: rest => p ++ sep ++ join_with sep rest
  end.

Fixpoint dumps (v : value float day) : str :=
  match v with
  | VNone => lit "null"
  | VBool true => lit "true"
  | VBool false => lit "false"
  | VInt z => show_Z z
  | VFloat f => show f
  | VStr s => quote s
  | VList l => lit "[" ++ join_with (lit ", ") (map dumps l) ++ lit "]"
  | VDict kv =>
      lit "{" ++
      join_with (lit ", ")
        (map (fun e => match e with
                       | (k, x) => quote k ++ lit ": " ++ dumps x
                       end) kv) ++
      lit "}"
  | VDatetime d => show_Z d
  end.

(** The number in a cell, in thousandths. *)
Definition cell_number (v : value float day) : option Z :=
  match v with
  | VInt z => Some (z * 1000)%Z
  | VFloat (Some x) => Some x
  | _ => None
  end.

Definition numbers (cells : list (value float day)) : list Z :=
  flat_map (fun v => match cell_number v with
                     | Some x => [x]
                     | None => []
                     end) cells.

Definition is_number (cells : list (value float day)) : bool :=
  forallb (fun v => match v with
                    | VInt _ | VFloat _ => true
                    | _ => false
                    end) cells.

Definition total (cells : list (value float day)) : value float day :=
  VFloat (Some (fold_right Z.add 0%Z (numbers cells))).

Definition mean (cells : list (value float day)) : value float day :=
  match numbers cells with
  | [] => VFloat None
  | x :: xs =>
      VFloat (Some (Z.quot (fold_right Z.add 0%Z (x :: xs))
                      (Z.of_nat (length (x :: xs)))))
  end.

Definition least (cells : list (value float day)) : value float day :=
  match numbers cells with
  | [] => VFloat None
  | x :: xs => VFloat (Some (fold_right Z.min x xs))
  end.

Definition greatest (cells : list (value float day)) : value float day :=
  match numbers cells with
  | [] => VFloat None
  | x :: xs => VFloat (Some (fold_right Z.max x xs))
  end.

Definition format (v : value float day) (spec : string) : str :=
  match v with
  | VFloat f => show f
  | VInt z => show_Z z
  | VStr s => s
  | _ => dumps v
  end.

(** The first record whose cell in [col] is the greatest. *)
Definition largest (df : DataFrame float day) (col : str)
    : list (str * value float day) :=
  let key r :=
    match cell_number (dict_get col r VNone) with
    | Some x => x
    | None => 0%Z
    end in
  match df_records df with
  | [] => []
  | r :: rest =>
      fold_left (fun best r' => if (key best <? key r')%Z then r' else best)
        rest r
  end.

Definition head_rows (df : DataFrame float day) : str :=
  join_with [newline]
    (map (fun r => dumps (VDict r)) (firstn 3 (df_records df))).

(** NULL sorts as the greatest value. *)
Definition leb (a b : value float day) : bool :=
  match a, b with
  | _, VNone => true
  | VNone, _ => false
  | VDatetime x, VDatetime y => (x <=? y)%Z
  | VInt x, VInt y => (x <=? y)%Z
  | _, _ => true
  end.

(** A query engine that understands [SELECT * FROM name] only. *)
Definition query (q : str) (db : database float day)
    : (exn + DataFrame float day) * database float day :=
  let statement := upper (strip q) in
  if startswith (lit "SELECT * FROM ") statement then
    let name := skipn 14 (strip q) in
    match
      (fix find (tables : database float day) :=
         match tables with
         | [] => None
         | (n, t) :: rest => if str_eqb name n then Some t else find rest
         end) db
    with
    | Some t => (inr t, db)
    | None => (inl (DatabaseError (lit "relation does not exist")), db)
    end
  else (inl (DatabaseError (lit "syntax error")), db).

#[export] Instance env : PyEnv float day := {|
  float_lit := literal;
  float_nan := None;
  float_of_int := of_int;
  float_of_str := to_float;
  float_add := add;
  float_mul := mul;
  float_repr := show;
  int_of_float := truncate;
  int_of_str := to_int;
  str_repr := quote;
  strptime := parse_day;
  minus_days := fun d n => (d - Z.of_nat n)%Z;
  datetime_str := show_Z;
  datetime_repr := show_Z;
  json_dumps := dumps;
  format_spec := format;
  infer_number := is_number;
  series_sum := total;
  series_mean := mean;
  series_min := least;
  series_max := greatest;
  nlargest1 := largest;
  head_to_string := head_rows;
  sql_leb := leb;
  read_sql := query
|}.

End Decimal.

(** ** Concrete inputs *)

Module Demo.

Import Decimal.

Definition record := @dict float day.

Definition account : str := lit "act_1234567890".

Definition clock (k : nat) : day := (20000 + Z.of_nat k)%Z.

Definition api : FacebookAPI := init (lit "token").

(** Two raw campaigns as the API returns them. *)
Definition raw_campaign_1 : record :=
  [ entry "id" (VStr (lit "111"));
    entry "name" (VStr (lit "Spring"));
    entry "status" (VStr (lit "ACTIVE"));
    entry "created_time" (VStr (lit "19000"));
    entry "daily_budget" (VStr (lit "2500")) ].

Definition raw_campaign_2 : record :=
  [ entry "id" (VStr (lit "222"));
    entry "name" (VStr (lit "Summer"));
    entry "status" (VStr (lit "PAUSED"));
    entry "created_time" (VStr (lit "19500"));
    entry "daily_budget" (VStr (lit "")) ].

Definition next_url : str :=
  lit "https://graph.facebook.com/v18.0/act_1234567890/campaigns?limit=500&after=QVFIUjE&access_token=token".

Definition page_1 : @response float day :=
  {| resp_data := Some [raw_campaign_1];
     resp_paging := Some {| paging_next := Some next_url |} |}.

Definition page_2 : @response float day :=
  {| resp_data := Some [raw_campaign_2];
     resp_paging := Some {| paging_next := None |} |}.

Definition two_pages : @world float day :=
  {| script := [Returns page_1; Returns page_2]; sent := []; slept := 0 |}.

Definition second_page_fails : @world float day :=
  {| script := [Returns page_1; Raises (lit "500 Server Error")];
     sent := []; slept := 0 |}.

Definition campaign_params : option record :=
  Some (fetch_params Campaigns).

(** Two raw insights, the second without campaign id. *)
Definition raw_insight_1 : record :=
  [ entry "campaign_id" (VStr (lit "111"));
    entry "date_start" (VStr (lit "2024-05-01"));
    entry "impressions" (VStr (lit "1200"));
    entry "spend" (VStr (lit "45.5")) ].

Definition raw_insight_2 : record :=
  [ entry "date_start" (VStr (lit "2024-05-02"));
    entry "impressions" (VStr (lit "n/a")) ].

Definition insights_page : @response float day :=
  {| resp_data := Some [raw_insight_1; raw_insight_2]; resp_paging := None |}.

Definition one_insights_page : @world float day :=
  {| script := [Returns insights_page]; sent := []; slept := 0 |}.

(** A database that is written three times. *)
Definition empty_manager : @DatabaseManager float day :=
  {| tables := []; executed := [] |}.

Definition first_batch : list record :=
  map (process_campaign account) [raw_campaign_1].

Definition second_batch : list record :=
  map (process_campaign account) [raw_campaign_1; raw_campaign_2].

Definition three_stores : list (entity * list record) :=
  [ (Campaigns, first_batch);
    (Ads, _get_sample_ads account clock);
    (Campaigns, second_batch) ].

(** The result of an aggregate query over campaigns. *)
Definition campaign_totals : DataFrame float day :=
  {| df_columns :=
       [ (lit "campaign_name", false); (lit "total_spend", true);
         (lit "total_impressions", true); (lit "total_clicks", true) ];
     df_records :=
       [ [ entry "campaign_name" (VStr (lit "Spring"));
           entry "total_spend" (VFloat (Some 120500%Z));
           entry "total_impressions" (VInt 48000);
           entry "total_clicks" (VInt 950) ];
         [ entry "campaign_name" (VStr (lit "Summer"));
           entry "total_spend" (VFloat (Some 79500%Z));
           entry "total_impressions" (VInt 31000);
           entry "total_clicks" (VInt 640) ] ] |}.

Definition no_model : GeminiQueryEngine := {| model := None |}.

End Demo.

(** ** More of the persistence layer: connection, schema, start-up *)

Section DatabaseSetup.

Context {F D : Type} {E : PyEnv F D}.

Notation record := (@dict F D).
Notation frame := (DataFrame F D).

(** [os.getenv(name, default)] over an environment. *)
Definition getenv (environ : str -> option str) (name : string)
    (default : string) : str :=
  match environ (lit name) with
  | Some v => v
  | None => lit default
  end.

(** [s.replace(old, new, 1)] for a non-empty [old]. *)
Fixpoint replace_first (old new s : str) : str :=
  if startswith old s then new ++ skipn (length old) s
  else match s with
       | [] => []
       | c :: r => c :: replace_first old new r
       end.

(** [_create_engine]: the URL that is handed to [create_engine]. *)
Definition _create_engine (environ : str -> option str) : str :=
  match environ (lit "DATABASE_URL") with
  | Some ((_ :: _) as database_url) =>
      if startswith (lit "postgres://") database_url
      then replace_first (lit "postgres://") (lit "postgresql://") database_url
      else database_url
  | _ =>
      let host := getenv environ "PGHOST" "localhost" in
      let port := getenv environ "PGPORT" "5432" in
      let database := getenv environ "PGDATABASE" "facebookdb" in
      let username := getenv environ "PGUSER" "postgres" in
      let password := getenv environ "PGPASSWORD" "" in
      lit "postgresql://" ++ username ++ lit ":" ++ password ++ lit "@" ++
      host ++ lit ":" ++ port ++ lit "/" ++ database
  end.

(** [_define_tables]: the columns of each table; the flag says that the
    column type is [Float] or [Integer]. *)
Definition text_column (k : string) : str * bool := (lit k, false).
Definition number_column (k : string) : str * bool := (lit k, true).

Definition defined_columns (t : entity) : list (str * bool) :=
  match t with
  | Campaigns =>
      [ text_column "id"; text_column "account_id"; text_column "name";
        text_column "status"; text_column "objective";
        text_column "created_time"; text_column "updated_time";
        text_column "start_time"; text_column "stop_time";
        number_column "budget_remaining"; number_column "daily_budget";
        number_column "lifetime_budget"; text_column "data";
        text_column "inserted_at" ]
  | AdSets =>
      [ text_column "id"; text_column "account_id"; text_column "campaign_id";
        text_column "name"; text_column "status";
        text_column "optimization_goal"; text_column "billing_event";
        number_column "bid_amount"; number_column "daily_budget";
        number_column "lifetime_budget"; text_column "start_time";
        text_column "end_time"; text_column "created_time";
        text_column "updated_time"; text_column "data";
        text_column "inserted_at" ]
  | Ads =>
      [ text_column "id"; text_column "account_id"; text_column "campaign_id";
        text_column "adset_id"; text_column "name"; text_column "status";
        text_column "created_time"; text_column "updated_time";
        text_column "data"; text_column "inserted_at" ]
  | Insights =>
      [ text_column "id"; text_column "account_id"; text_column "campaign_id";
        text_column "adset_id"; text_column "ad_id"; text_column "date_start";
        text_column "date_stop"; number_column "impressions";
        number_column "clicks"; number_column "spend"; number_column "reach";
        number_column "frequency"; number_column "cpm"; number_column "cpc";
        number_column "ctr"; number_column "cpp"; text_column "actions";
        text_column "cost_per_action_type"; text_column "data";
        text_column "inserted_at" ]
  end.

Definition defined_table (t : entity) : frame :=
  {| df_columns := defined_columns t; df_records := [] |}.

(** [_create_tables]: [metadata.create_all] creates the tables that do not
    exist yet and leaves the others alone. *)
Definition create_if_missing (db : database F D) (t : entity) : database F D :=
  match table_get (table_name t) db with
  | Some _ => db
  | None => table_put (table_name t) (defined_table t) db
  end.

Definition _create_tables (db : database F D) : database F D :=
  fold_left create_if_missing [Campaigns; AdSets; Ads; Insights] db.

(** [DatabaseManager.__init__] on the database that the connection URL
    points to. *)
Definition DatabaseManager__init__ (db : database F D) : DatabaseManager :=
  {| tables := _create_tables db; executed := [] |}.

(** [get_schema_info]: for each table its name, the columns told to the
    language model, and a description. *)
Record table_info : Type := {
  info_table : str;
  info_columns : list str;
  info_description : str
}.

Definition get_schema_info : list (str * table_info) :=
  [ (lit "campaigns",
     {| info_table := lit "campaigns";
        info_columns :=
          map lit ["id"; "account_id"; "name"; "status"; "objective";
                   "created_time"; "updated_time"; "start_time"; "stop_time";
                   "budget_remaining"; "daily_budget";
                   "lifetime_budget"]%string;
        info_description :=
          lit "Facebook advertising campaigns data with campaign details" |});
    (lit "adsets",
     {| info_table := lit "adsets";
        info_columns :=
          map lit ["id"; "account_id"; "campaign_id"; "name"; "status";
                   "optimization_goal"; "billing_event"; "bid_amount";
                   "daily_budget"; "lifetime_budget"; "start_time";
                   "end_time"]%string;
        info_description := lit "Facebook ad sets data linked to campaigns" |});
    (lit "ads",
     {| info_table := lit "ads";
        info_columns :=
          map lit ["id"; "account_id"; "campaign_id"; "adset_id"; "name";
                   "status"; "created_time"; "updated_time"]%string;
        info_description :=
          lit "Individual Facebook ads linked to campaigns and adsets" |});
    (lit "insights",
     {| info_table := lit "insights";
        info_columns :=
          map lit ["id"; "account_id"; "date_start"; "date_stop";
                   "impressions"; "clicks"; "spend"; "reach"; "frequency";
                   "cpm"; "cpc"; "ctr"; "cpp"]%string;
        info_description :=
          lit "Account-level performance metrics by date. NOTE: campaign_id, adset_id, ad_id are mostly NULL - this contains account-level aggregated data" |}) ].

(** The columns that the schema information gives for the table of [t]. *)
Fixpoint info_lookup (name : str) (infos : list (str * table_info))
    : list str :=
  match infos with
  | [] => []
  | (k, info) :: rest =>
      if str_eqb name k then info_columns info else info_lookup name rest
  end.

Definition advertised_columns (t : entity) : list str :=
  info_lookup (table_name t) get_schema_info.

(** Rows in descending order of [col]: no row is followed by one that
    sorts strictly after it. *)
Fixpoint descending (col : str) (rows : list record) : bool :=
  match rows with
  | r1 :: ((r2 :: _) as rest) =>
      sql_leb (dict_get col r2 VNone) (dict_get col r1 VNone) &&
      descending col rest
  | _ => true
  end.

End DatabaseSetup.

(** ** More of the query engine: fallback SQL, prompts, query processing *)

Section GeminiText.

(** The double quote, and the arrow of the prompt examples as its UTF-8
    bytes. *)
Definition dq : str := [ascii_of_nat 34].
Definition arrow : str := map ascii_of_nat [226; 134; 146].

(** A text given line by line: the lines joined by line feeds. *)
Fixpoint unlines (ls : list str) : str :=
  match ls with
  | [] => []
  | [l] => l
  | l :: rest => l ++ newline :: unlines rest
  end.

Definition is_digit (c : ascii) : bool :=
  (48 <=? code c) && (code c <=? 57).

Fixpoint takewhile (p : ascii -> bool) (s : str) : str :=
  match s with
  | [] => []
  | c :: r => if p c then c :: takewhile p r else []
  end.

(** The first match of [\d+] in the text, empty when there is none. *)
Definition first_number (text : str) : str :=
  takewhile is_digit (dropwhile (fun c => negb (is_digit c)) text).

(** [int(digits)] for a run of decimal digits. *)
Definition nat_of_digits (digits : str) : nat :=
  fold_left (fun acc c => acc * 10 + (code c - 48)) digits 0.

Definition _extract_number (text : str) : option nat :=
  match first_number text with
  | [] => None
  | (_ :: _) as digits => Some (nat_of_digits digits)
  end.

(** The statements of [_fallback_sql_generation]. *)
Definition top_ads_sql (limit : nat) : str :=
  (unlines
    [ [];
      lit "            SELECT a.name, SUM(i.spend) as total_spend";
      lit "            FROM ads a";
      lit "            JOIN insights i ON a.id = i.ad_id";
      lit "            WHERE i.spend > 0";
      lit "            GROUP BY a.id, a.name";
      lit "            ORDER BY total_spend DESC";
      lit "            LIMIT " ]) ++
  str_of_nat limit ++
  (unlines
    [ lit ";";
      lit "            " ]).

Definition top_campaigns_sql (limit : nat) : str :=
  (unlines
    [ [];
      lit "            SELECT c.name, SUM(i.spend) as total_spend";
      lit "            FROM campaigns c";
      lit "            JOIN insights i ON c.id = i.campaign_id";
      lit "            WHERE i.spend > 0";
      lit "            GROUP BY c.id, c.name";
      lit "            ORDER BY total_spend DESC";
      lit "            LIMIT " ]) ++
  str_of_nat limit ++
  (unlines
    [ lit ";";
      lit "            " ]).

Definition top_adsets_sql (limit : nat) : str :=
  (unlines
    [ [];
      lit "            SELECT ads.name, SUM(i.spend) as total_spend";
      lit "            FROM adsets ads";
      lit "            JOIN insights i ON ads.id = i.adset_id";
      lit "            WHERE i.spend > 0";
      lit "            GROUP BY ads.id, ads.name";
      lit "            ORDER BY total_spend DESC";
      lit "            LIMIT " ]) ++
  str_of_nat limit ++
  (unlines
    [ lit ";";
      lit "            " ]).

Definition average_ctr_sql : str :=
  unlines
    [ [];
      lit "            SELECT AVG(ctr) as average_ctr";
      lit "            FROM insights";
      lit "            WHERE ctr > 0;";
      lit "            " ].

Definition campaign_performance_sql : str :=
  unlines
    [ [];
      lit "            SELECT ";
      lit "                c.name,";
      lit "                SUM(i.impressions) as total_impressions,";
      lit "                SUM(i.clicks) as total_clicks,";
      lit "                SUM(i.spend) as total_spend,";
      lit "                AVG(i.ctr) as avg_ctr";
      lit "            FROM campaigns c";
      lit "            JOIN insights i ON c.id = i.campaign_id";
      lit "            WHERE i.spend > 0";
      lit "            GROUP BY c.id, c.name";
      lit "            ORDER BY total_spend DESC";
      lit "            LIMIT 20;";
      lit "            " ].

Definition ads_default_sql : str :=
  unlines
    [ [];
      lit "            SELECT ";
      lit "                a.name as ad_name,";
      lit "                SUM(i.spend) as total_spend,";
      lit "                SUM(i.impressions) as total_impressions,";
      lit "                SUM(i.clicks) as total_clicks";
      lit "            FROM ads a";
      lit "            JOIN insights i ON a.id = i.ad_id";
      lit "            WHERE i.spend > 0";
      lit "            GROUP BY a.id, a.name";
      lit "            ORDER BY total_spend DESC";
      lit "            LIMIT 10;";
      lit "            " ].

Definition campaigns_default_sql : str :=
  unlines
    [ [];
      lit "        SELECT ";
      lit "            c.name as campaign_name,";
      lit "            SUM(i.spend) as total_spend,";
      lit "            SUM(i.impressions) as total_impressions,";
      lit "            SUM(i.clicks) as total_clicks";
      lit "        FROM campaigns c";
      lit "        JOIN insights i ON c.id = i.campaign_id";
      lit "        WHERE i.spend > 0";
      lit "        GROUP BY c.id, c.name";
      lit "        ORDER BY total_spend DESC";
      lit "        LIMIT 10;";
      lit "        " ].

(** [self._extract_number(user_query) or 10]: no number and the number 0
    both give 10. *)
Definition limit_or_10 (user_query : str) : nat :=
  match _extract_number user_query with
  | Some (S n) => S n
  | _ => 10
  end.

(** [k in query_lower] *)
Definition mentions (query_lower : str) (k : string) : bool :=
  contains (lit k) query_lower.

Definition _fallback_sql_generation (user_query : str) : str :=
  let query_lower := lower user_query in
  if mentions query_lower "top" && mentions query_lower "ads" &&
     mentions query_lower "spend" then
    top_ads_sql (limit_or_10 user_query)
  else if mentions query_lower "top" && mentions query_lower "campaign" &&
          mentions query_lower "spend" then
    top_campaigns_sql (limit_or_10 user_query)
  else if mentions query_lower "top" &&
          (mentions query_lower "adset" || mentions query_lower "ad set") &&
          mentions query_lower "spend" then
    top_adsets_sql (limit_or_10 user_query)
  else if mentions query_lower "average" && mentions query_lower "ctr" then
    average_ctr_sql
  else if mentions query_lower "campaign" &&
          mentions query_lower "performance" then
    campaign_performance_sql
  else if mentions query_lower "ads" || mentions query_lower "ad" then
    ads_default_sql
  else campaigns_default_sql.

End GeminiText.

(** ** Query processing ([process_query] and the functions it calls) *)

(** The two report writers of the analytical path are left abstract: each
    reads the insights frame, may rewrite its [date_start] column in place,
    and returns a text or raises.  The frame that they leave behind is
    returned with the result. *)
Class Analytics (F D : Type) : Type := {
  _create_analytical_summary :
    DataFrame F D -> DataFrame F D -> DataFrame F D ->
    (exn + str) * DataFrame F D;
  _generate_fallback_analytical_insights :
    str -> DataFrame F D -> (exn + str) * DataFrame F D
}.

Section GeminiProcess.

Context {F D : Type} {E : PyEnv F D} {T : PyText} {A : Analytics F D}.

Notation frame := (DataFrame F D).
Notation DatabaseManager := (@DatabaseManager F D).

(** [str(e)] *)
Definition exn_str (e : exn) : str :=
  match e with
  | RequestException msg => msg
  | ValueError msg => msg
  | DatabaseError msg => msg
  | StopIteration => []
  | OutOfFuel => []
  end.

(** The dictionary that [process_query] returns; [res_query_type] is the
    value under [query_type] when the key is there. *)
Record query_result : Type := {
  res_sql_query : option str;
  res_data : option frame;
  res_insights : option str;
  res_error : option str;
  res_query_type : option str
}.

(** [_create_schema_context] *)
Definition _create_schema_context : str :=
  fold_left
    (fun context item =>
       let table_info := snd item in
       let context :=
         context ++ nl ++ lit "Table: " ++ info_table table_info ++ nl in
       let context :=
         context ++ lit "Description: " ++ info_description table_info ++ nl in
       context ++ lit "Columns: " ++
       join (lit ", ") (info_columns table_info) ++ nl)
    get_schema_info [].

Definition sql_prompt (schema_context user_query : str) : str :=
  (unlines
    [ [];
      lit "            You are a PostgreSQL expert. Convert this natural language query to SQL.";
      lit "            ";
      lit "            Database Schema:";
      lit "            " ]) ++
  schema_context ++
  (unlines
    [ [];
      lit "            ";
      lit "            User Query: " ]) ++
  user_query ++
  (unlines
    [ [];
      lit "            ";
      lit "            Important Guidelines:";
      lit "            - Return ONLY the SQL query, no explanations or markdown";
      lit "            - insights table contains account-level data by date, NOT individual ad/campaign data";
      lit "            - For ad/campaign specific queries, use the ads/campaigns/adsets tables directly";
      lit "            - insights table is mainly useful for time-based analysis and account totals";
      lit "            - Use appropriate aggregations (SUM, AVG, COUNT)";
      lit "            - Limit results appropriately (5-20 rows for " ++ dq ++ lit "top" ++ dq ++ lit " queries)";
      lit "            - Use clear column aliases";
      lit "            ";
      lit "            Examples:";
      lit "            " ++ dq ++ lit "top 5 ads by name" ++ dq ++ lit " " ++ arrow ++ lit " SELECT name FROM ads WHERE status = 'ACTIVE' ORDER BY name LIMIT 5;";
      lit "            " ++ dq ++ lit "top 5 campaigns by budget" ++ dq ++ lit " " ++ arrow ++ lit " SELECT name, daily_budget FROM campaigns WHERE daily_budget > 0 ORDER BY daily_budget DESC LIMIT 5;";
      lit "            " ++ dq ++ lit "total spend by date" ++ dq ++ lit " " ++ arrow ++ lit " SELECT date_start, spend FROM insights WHERE spend > 0 ORDER BY date_start;";
      lit "            " ++ dq ++ lit "campaign count" ++ dq ++ lit " " ++ arrow ++ lit " SELECT COUNT(*) as campaign_count FROM campaigns;";
      lit "            ";
      lit "            SQL Query:";
      lit "            " ]).

Definition simple_prompt (user_query : str) : str :=
  (unlines
    [ lit "Convert to SQL: " ]) ++
  user_query ++
  (unlines
    [ [];
      lit "Use these tables: campaigns, adsets, ads, insights" ]).

Definition analytical_prompt (user_query data_summary : str) : str :=
  (unlines
    [ [];
      lit "            You are a Facebook Ads performance analyst. Analyze the provided data and answer the user's question with detailed insights, calculations, and recommendations.";
      lit "            ";
      lit "            User Question: " ]) ++
  user_query ++
  (unlines
    [ [];
      lit "            ";
      lit "            Available Data Summary:";
      lit "            " ]) ++
  data_summary ++
  (unlines
    [ [];
      lit "            ";
      lit "            Please provide:";
      lit "            1. Direct answer to the user's question";
      lit "            2. Relevant calculations (ROAS, CAC, CPR, CTR trends, etc.)";
      lit "            3. Performance insights and patterns";
      lit "            4. Actionable recommendations";
      lit "            5. Any notable anomalies or concerns";
      lit "            ";
      lit "            Format your response as a comprehensive analysis with clear sections and specific numbers where available.";
      lit "            If the question asks for comparisons (vs yesterday, last week, etc.), calculate and present the differences.";
      lit "            If the question asks about trends, analyze the progression over time.";
      lit "            If the question asks about performance, identify best and worst performers with specific metrics.";
      lit "            ";
      lit "            Make calculations based on the actual data provided. For metrics not directly available, explain what additional data would be needed.";
      lit "            " ]).

Definition insights_query : str :=
  unlines
    [ [];
      lit "            SELECT ";
      lit "                date_start,";
      lit "                spend,";
      lit "                impressions,";
      lit "                clicks,";
      lit "                reach,";
      lit "                frequency,";
      lit "                cpm,";
      lit "                cpc,";
      lit "                ctr,";
      lit "                CASE WHEN clicks > 0 THEN spend / clicks ELSE 0 END as actual_cpc,";
      lit "                CASE WHEN impressions > 0 THEN (clicks::float / impressions::float) * 100 ELSE 0 END as actual_ctr,";
      lit "                CASE WHEN impressions > 0 THEN (spend / impressions) * 1000 ELSE 0 END as actual_cpm";
      lit "            FROM insights ";
      lit "            WHERE spend > 0";
      lit "            ORDER BY date_start DESC";
      lit "            LIMIT 30";
      lit "            " ].

Definition campaigns_query : str :=
  unlines
    [ [];
      lit "            SELECT ";
      lit "                COUNT(*) as total_campaigns,";
      lit "                COUNT(CASE WHEN status = 'ACTIVE' THEN 1 END) as active_campaigns,";
      lit "                AVG(daily_budget) as avg_daily_budget,";
      lit "                SUM(daily_budget) as total_daily_budget";
      lit "            FROM campaigns";
      lit "            " ].

Definition ads_query : str :=
  unlines
    [ [];
      lit "            SELECT ";
      lit "                COUNT(*) as total_ads,";
      lit "                COUNT(CASE WHEN status = 'ACTIVE' THEN 1 END) as active_ads,";
      lit "                COUNT(CASE WHEN status = 'PAUSED' THEN 1 END) as paused_ads";
      lit "            FROM ads";
      lit "            " ].

(** [_generate_sql_query]: the answer of the model to the full prompt,
    cleaned; when that call raises, the answer to the short prompt; [None]
    without a model or when both calls raise. *)
Definition _generate_sql_query (engine : GeminiQueryEngine) (user_query : str)
    : option str :=
  let schema_context := _create_schema_context in
  let prompt := sql_prompt schema_context user_query in
  match model engine with
  | Some generate_content =>
      match generate_content prompt with
      | inr text => Some (_clean_sql_response text)
      | inl _ =>
          match generate_content (simple_prompt user_query) with
          | inr text => Some (_clean_sql_response text)
          | inl _ => None
          end
      end
  | None => None
  end.

(** [pd.DataFrame()] *)
Definition empty_DataFrame : frame := {| df_columns := []; df_records := [] |}.

(** The dictionary of [_get_comprehensive_data].  The keys [insights] and
    [summary] hold one and the same frame when the three statements
    succeed, and two empty frames otherwise: [cd_insights] stands for
    both. *)
Record comprehensive_data : Type := {
  cd_insights : frame;
  cd_campaigns_summary : option frame;
  cd_ads_summary : option frame
}.

Definition no_comprehensive_data : comprehensive_data :=
  {| cd_insights := empty_DataFrame;
     cd_campaigns_summary := None;
     cd_ads_summary := None |}.

Definition _get_comprehensive_data (dm : DatabaseManager)
    : comprehensive_data * DatabaseManager :=
  match execute_query insights_query dm with
  | (inl _, dm) => (no_comprehensive_data, dm)
  | (inr insights_data, dm) =>
      match execute_query campaigns_query dm with
      | (inl _, dm) => (no_comprehensive_data, dm)
      | (inr campaigns_summary, dm) =>
          match execute_query ads_query dm with
          | (inl _, dm) => (no_comprehensive_data, dm)
          | (inr ads_summary, dm) =>
              ({| cd_insights := insights_data;
                  cd_campaigns_summary := Some campaigns_summary;
                  cd_ads_summary := Some ads_summary |}, dm)
          end
      end
  end.

Definition frame_or_empty (df : option frame) : frame :=
  match df with
  | Some df => df
  | None => empty_DataFrame
  end.

Definition error_analyzing (e : exn) : str :=
  lit "Error analyzing data: " ++ exn_str e.

(** [_generate_analytical_insights]: the text, and the insights frame as
    the call leaves it. *)
Definition _generate_analytical_insights (engine : GeminiQueryEngine)
    (user_query : str) (data : comprehensive_data) : str * frame :=
  let insights_df := cd_insights data in
  let campaigns_df := frame_or_empty (cd_campaigns_summary data) in
  let ads_df := frame_or_empty (cd_ads_summary data) in
  if empty insights_df
  then (lit "No recent insights data available for analysis.", insights_df)
  else
    match _create_analytical_summary insights_df campaigns_df ads_df with
    | (inl e, insights_df) => (error_analyzing e, insights_df)
    | (inr data_summary, insights_df) =>
        let prompt := analytical_prompt user_query data_summary in
        match model engine with
        | Some generate_content =>
            match generate_content prompt with
            | inr text => (text, insights_df)
            | inl e => (error_analyzing e, insights_df)
            end
        | None =>
            match _generate_fallback_analytical_insights user_query
                    insights_df with
            | (inr text, insights_df) => (text, insights_df)
            | (inl e, insights_df) => (error_analyzing e, insights_df)
            end
        end
    end.

(** [_process_analytical_query]: neither callee lets an exception out, so
    the handler of this function is never entered. *)
Definition _process_analytical_query (engine : GeminiQueryEngine)
    (user_query : str) (dm : DatabaseManager)
    : query_result * DatabaseManager :=
  let '(all_data, dm) := _get_comprehensive_data dm in
  let '(analytical_response, summary) :=
    _generate_analytical_insights engine user_query all_data in
  ({| res_sql_query := Some (lit "Analytical Query (No SQL Required)");
      res_data := Some summary;
      res_insights := Some analytical_response;
      res_error := None;
      res_query_type := Some (lit "analytical") |}, dm).

Definition failure (message : str) : query_result :=
  {| res_sql_query := None;
     res_data := None;
     res_insights := None;
     res_error := Some message;
     res_query_type := None |}.

Definition process_query (engine : GeminiQueryEngine) (user_query : str)
    (dm : DatabaseManager) : query_result * DatabaseManager :=
  if _is_analytical_query user_query
  then _process_analytical_query engine user_query dm
  else
    match _generate_sql_query engine user_query with
    | None | Some [] => (failure (lit "Failed to generate SQL query"), dm)
    | Some ((_ :: _) as sql_query) =>
        match _execute_sql_query sql_query dm with
        | (inl e, dm) => (failure (exn_str e), dm)
        | (inr data, dm) =>
            let insights :=
              _generate_insights engine user_query (Some data) sql_query in
            ({| res_sql_query := Some sql_query;
                res_data := Some data;
                res_insights := Some insights;
                res_error := None;
                res_query_type := None |}, dm)
        end
    end.


End GeminiProcess.

(** ** The application ([app.py]): fetching into the database, loading
    from it *)

Section App.

Context {F D : Type} {E : PyEnv F D}.

Notation record := (@dict F D).
Notation frame := (DataFrame F D).
Notation world := (@world F D).
Notation DatabaseManager := (@DatabaseManager F D).

(** The keys of [st.session_state] that the two functions write. *)
Record session_state : Type := {
  data_fetched : bool;
  campaigns_df : option frame;
  adsets_df : option frame;
  ads_df : option frame;
  insights_df : option frame
}.

(** The session state of a new session. *)
Definition new_session_state : session_state :=
  {| data_fetched := false;
     campaigns_df := None;
     adsets_df := None;
     ads_df := None;
     insights_df := None |}.

(** [fetch_facebook_data]: four fetches, four stores, the session state,
    and a pause.  The progress display is left out; no fetch and no store
    of this development raises, so the handler is never entered. *)
Definition fetch_facebook_data (account_id : str) (facebook_api : FacebookAPI)
    (now : nat -> D) (db_manager : DatabaseManager) (w : world)
    : world * DatabaseManager * session_state :=
  let '(campaigns, w) := fetch_campaigns facebook_api account_id now w in
  let '(adsets, w) := fetch_adsets facebook_api account_id now w in
  let '(ads, w) := fetch_ads facebook_api account_id now w in
  let '(insights, w) :=
    fetch_insights facebook_api account_id (lit "last_30d") now w in
  let db_manager := store_campaigns campaigns db_manager in
  let db_manager := store_adsets adsets db_manager in
  let db_manager := store_ads ads db_manager in
  let db_manager := store_insights insights db_manager in
  let state :=
    {| campaigns_df := Some (new_DataFrame campaigns);
       adsets_df := Some (new_DataFrame adsets);
       ads_df := Some (new_DataFrame ads);
       insights_df := Some (new_DataFrame insights);
       data_fetched := true |} in
  (sleep w, db_manager, state).

(** [load_existing_data]: the four tables are read, and the session state
    is written only when there are campaigns. *)
Definition load_existing_data (db_manager : DatabaseManager)
    (state : session_state) : session_state :=
  let campaigns := get_campaigns db_manager in
  let adsets := get_adsets db_manager in
  let ads := get_ads db_manager in
  let insights := get_insights db_manager in
  match campaigns with
  | _ :: _ =>
      {| campaigns_df := Some (new_DataFrame campaigns);
         adsets_df := Some (new_DataFrame adsets);
         ads_df := Some (new_DataFrame ads);
         insights_df := Some (new_DataFrame insights);
         data_fetched := true |}
  | [] => state
  end.

(** The frame of the session state for a kind of entity. *)
Definition session_frame (t : entity) (state : session_state)
    : option frame :=
  match t with
  | Campaigns => campaigns_df state
  | AdSets => adsets_df state
  | Ads => ads_df state
  | Insights => insights_df state
  end.

End App.

(** ** More concrete inputs *)

Module Reports.

Import Decimal.

(** A query engine that also answers the three statements of the
    analytical path, each with the content of its table. *)
Definition table_or_error (name : str) (db : database float day)
    : (exn + DataFrame float day) * database float day :=
  match table_get name db with
  | Some t => (inr t, db)
  | None => (inl (DatabaseError (lit "relation does not exist")), db)
  end.

Definition answer (q : str) (db : database float day)
    : (exn + DataFrame float day) * database float day :=
  if str_eqb q insights_query then table_or_error (lit "insights") db
  else if str_eqb q campaigns_query then table_or_error (lit "campaigns") db
  else if str_eqb q ads_query then table_or_error (lit "ads") db
  else Decimal.query q db.

#[export] Instance reporting : PyEnv float day := {|
  float_lit := literal;
  float_nan := None;
  float_of_int := of_int;
  float_of_str := to_float;
  float_add := add;
  float_mul := mul;
  float_repr := show;
  int_of_float := truncate;
  int_of_str := to_int;
  str_repr := quote;
  strptime := parse_day;
  minus_days := fun d n => (d - Z.of_nat n)%Z;
  datetime_str := show_Z;
  datetime_repr := show_Z;
  json_dumps := dumps;
  format_spec := format;
  infer_number := is_number;
  series_sum := total;
  series_mean := mean;
  series_min := least;
  series_max := greatest;
  nlargest1 := largest;
  head_to_string := head_rows;
  sql_leb := leb;
  read_sql := answer
|}.

(** Report writers that leave the frame alone. *)
#[export] Instance analytics : Analytics float day := {|
  _create_analytical_summary :=
    fun insights_df _ _ => (inr (lit "Recent Performance"), insights_df);
  _generate_fallback_analytical_insights :=
    fun _ insights_df => (inr (lit "**Performance Summary:**"), insights_df)
|}.

(** A database with insights and campaigns and without a table of ads. *)
Definition without_ads : @DatabaseManager float day :=
  {| tables :=
       [ (lit "insights", Demo.campaign_totals);
         (lit "campaigns", Demo.campaign_totals) ];
     executed := [] |}.


(** Parameters of a caller that sets its own page size. *)
Definition own_limit : Demo.record :=
  [ entry "limit" (VInt 25); entry "fields" (VStr (lit "id,name")) ].

End Reports.

(** ** Text functions that know Unicode

    An implementation of the text interface on UTF-8.  Stripping removes
    every character for which [str.isspace] holds.  Upper case is that of
    ASCII, and of every character outside ASCII whose capital has an ASCII
    character; any other character is left as it is: its capital has no
    ASCII character, so no test for an ASCII prefix sees the difference. *)

Module Utf8.

Definition bytes (ns : list nat) : str := map ascii_of_nat ns.

(** The white space outside ASCII: U+0085, U+00A0, U+1680, U+2000 to
    U+200A, U+2028, U+2029, U+202F, U+205F and U+3000. *)
Definition blanks : list str :=
  map bytes
    [ [194; 133]; [194; 160]; [225; 154; 128];
      [226; 128; 128]; [226; 128; 129]; [226; 128; 130]; [226; 128; 131];
      [226; 128; 132]; [226; 128; 133]; [226; 128; 134]; [226; 128; 135];
      [226; 128; 136]; [226; 128; 137]; [226; 128; 138];
      [226; 128; 168]; [226; 128; 169]; [226; 128; 175]; [226; 129; 159];
      [227; 128; 128] ].

(** The text without the white-space character at its head, if there is
    one; [bs] lists the characters of more than one byte. *)
Definition drop_blank (bs : list str) (s : str) : option str :=
  match s with
  | [] => None
  | c :: r =>
      if is_space c then Some r
      else match find (fun b => startswith b s) bs with
           | Some b => Some (skipn (length b) s)
           | None => None
           end
  end.

Fixpoint drop_blanks (fuel : nat) (bs : list str) (s : str) : str :=
  match fuel with
  | O => s
  | S fuel' =>
      match drop_blank bs s with
      | Some r => drop_blanks fuel' bs r
      | None => s
      end
  end.

Definition utf8_lstrip (s : str) : str := drop_blanks (length s) blanks s.

Definition utf8_rstrip (s : str) : str :=
  rev (drop_blanks (length s) (map (@rev ascii) blanks) (rev s)).

Definition utf8_strip (s : str) : str := utf8_rstrip (utf8_lstrip s).

(** The characters outside ASCII whose capital has an ASCII character:
    U+00DF, U+0131, U+0149, U+017F, U+01F0, U+1E96 to U+1E9A and U+FB00 to
    U+FB06, each with its capital. *)
Definition capitals : list (str * str) :=
  [ (bytes [195; 159], lit "SS");
    (bytes [196; 177], lit "I");
    (bytes [197; 137], bytes [202; 188] ++ lit "N");
    (bytes [197; 191], lit "S");
    (bytes [199; 176], lit "J" ++ bytes [204; 140]);
    (bytes [225; 186; 150], lit "H" ++ bytes [204; 177]);
    (bytes [225; 186; 151], lit "T" ++ bytes [204; 136]);
    (bytes [225; 186; 152], lit "W" ++ bytes [204; 138]);
    (bytes [225; 186; 153], lit "Y" ++ bytes [204; 138]);
    (bytes [225; 186; 154], lit "A" ++ bytes [202; 190]);
    (bytes [239; 172; 128], lit "FF");
    (bytes [239; 172; 129], lit "FI");
    (bytes [239; 172; 130], lit "FL");
    (bytes [239; 172; 131], lit "FFI");
    (bytes [239; 172; 132], lit "FFL");
    (bytes [239; 172; 133], lit "ST");
    (bytes [239; 172; 134], lit "ST") ].

Fixpoint upper_from (fuel : nat) (s : str) : str :=
  match fuel, s with
  | S fuel', c :: r =>
      match find (fun e => startswith (fst e) s) capitals with
      | Some (k, u) => u ++ upper_from fuel' (skipn (length k) s)
      | None => upper_char c :: upper_from fuel' r
      end
  | _, _ => s
  end.

Definition utf8_upper (s : str) : str := upper_from (length s) s.

#[export] Instance utf8_text : PyText := {|
  str_strip := fun s => if is_ascii s then strip s else utf8_strip s;
  str_upper := fun s => if is_ascii s then upper s else utf8_upper s;
  str_strip_ascii :=
    fun s H => f_equal (fun b : bool => if b then strip s else utf8_strip s) H;
  str_upper_ascii :=
    fun s H => f_equal (fun b : bool => if b then upper s else utf8_upper s) H
|}.

(** Statements that begin with a no-break space, with an em space in front
    of lowercase letters, and with the long s, and one that ends its first
    word with a t under a diaeresis. *)
Definition nbsp_select : str := bytes [194; 160] ++ lit "SELECT 1".
Definition em_space_select : str := bytes [226; 128; 131] ++ lit "select 1".
Definition long_s_select : str := bytes [197; 191] ++ lit "elect 1".
Definition diaeresis_select : str :=
  lit "selec" ++ bytes [225; 186; 151] ++ lit " 1".

End Utf8.

(** * Verification *)

Example upper_select : upper (lit "Select 1") = lit "SELECT 1".
Proof. reflexivity. Qed.

Example strip_ex : strip (lit "  ab c
 ") = lit "ab c".
Proof. reflexivity. Qed.

Example re_sub_ex :
  re_sub_lit_nl (lit "```") (lit "```
SELECT 1;```") = lit "SELECT 1;".
Proof. reflexivity. Qed.

Example str_of_nat_ex : str_of_nat 12 = lit "12".
Proof. reflexivity. Qed.

(** ** Facts about the string primitives *)

Section StringFacts.

Lemma ascii_eqb_eq (a b : ascii) : ascii_eqb a b = true <-> a = b.
Proof. apply Ascii.eqb_eq. Qed.

Lemma ascii_eqb_refl (a : ascii) : ascii_eqb a a = true.
Proof. apply Ascii.eqb_refl. Qed.

Lemma startswith_spec (p s : str) :
  startswith p s = true <-> exists t, s = p ++ t.
Proof.
  revert s. induction p as [|a p IH]; intros s; simpl.
  - split; [intros _; now exists s | reflexivity].
  - destruct s as [|b s].
    + split; [discriminate | intros [t Ht]; discriminate].
    + rewrite andb_true_iff, ascii_eqb_eq, IH. split.
      * intros [-> [t ->]]. now exists t.
      * intros [t Ht]. injection Ht as -> ->. split; [reflexivity | now exists t].
Qed.

Lemma startswith_app (p t : str) : startswith p (p ++ t) = true.
Proof. apply startswith_spec. now exists t. Qed.

Lemma startswith_refl (p : str) : startswith p p = true.
Proof. apply startswith_spec. exists []. now rewrite app_nil_r. Qed.

Lemma startswith_weaken (p q s : str) :
  startswith (p ++ q) s = true -> startswith p s = true.
Proof.
  rewrite !startswith_spec. intros [t ->]. exists (q ++ t).
  now rewrite app_assoc.
Qed.

Lemma contains_spec (p s : str) :
  contains p s = true <-> exists a b, s = a ++ p ++ b.
Proof.
  induction s as [|c s IH].
  - simpl. rewrite orb_false_r, startswith_spec. split.
    + intros [t Ht]. now exists [], t.
    + intros [a [b Hab]]. destruct a; [now exists b | discriminate].
  - simpl. rewrite orb_true_iff, startswith_spec, IH. split.
    + intros [[t Ht] | [a [b Hab]]].
      * now exists [], t.
      * exists (c :: a), b. simpl. now rewrite Hab.
    + intros [a [b Hab]]. destruct a as [|x a].
      * left. now exists b.
      * right. injection Hab as _ Hab. now exists a, b.
Qed.

Lemma contains_cons_false (p : str) (c : ascii) (s : str) :
  contains p (c :: s) = false ->
  startswith p (c :: s) = false /\ contains p s = false.
Proof. simpl. now rewrite orb_false_iff. Qed.

Lemma contains_weaken (p q s : str) :
  contains p s = false -> contains (p ++ q) s = false.
Proof.
  intros H. destruct (contains (p ++ q) s) eqn:E; [|reflexivity].
  apply contains_spec in E. destruct E as [a [b ->]].
  rewrite <- H. symmetry. apply contains_spec.
  exists a, (q ++ b). now rewrite <- !app_assoc.
Qed.

Lemma contains_sub_false (p a s b : str) :
  contains p (a ++ s ++ b) = false -> contains p s = false.
Proof.
  intros H. destruct (contains p s) eqn:E; [|reflexivity].
  apply contains_spec in E. destruct E as [x [y ->]].
  rewrite <- H. symmetry. apply contains_spec.
  exists (a ++ x), (y ++ b). now rewrite <- !app_assoc.
Qed.

(** *** Stripping *)

Lemma dropwhile_suffix (f : ascii -> bool) (s : str) :
  exists a, s = a ++ dropwhile f s /\ forallb f a = true.
Proof.
  induction s as [|c s [a [Ha Hf]]]; simpl.
  - now exists [].
  - destruct (f c) eqn:E.
    + exists (c :: a). simpl. rewrite E, Hf. split; [now f_equal | reflexivity].
    + now exists [].
Qed.

Lemma dropwhile_idem (f : ascii -> bool) (s : str) :
  dropwhile f (dropwhile f s) = dropwhile f s.
Proof.
  induction s as [|c s IH]; simpl; [reflexivity|].
  destruct (f c) eqn:E; [exact IH | simpl; now rewrite E].
Qed.


Lemma dropwhile_fix (f : ascii -> bool) c (r : str) :
  f c = false -> dropwhile f (c :: r) = c :: r.
Proof. intros H. simpl. now rewrite H. Qed.

Lemma rstrip_prefix (s : str) :
  exists b, s = rstrip s ++ b /\ forallb is_space b = true.
Proof.
  unfold rstrip. destruct (dropwhile_suffix is_space (rev s)) as [a [Ha Hf]].
  exists (rev a). split.
  - rewrite <- rev_app_distr, <- Ha. now rewrite rev_involutive.
  - rewrite forallb_forall in *. intros x Hx. apply Hf. now apply in_rev.
Qed.

Lemma strip_decompose (s : str) :
  exists a b, s = a ++ strip s ++ b.
Proof.
  unfold strip, lstrip.
  destruct (dropwhile_suffix is_space s) as [a [Ha _]].
  destruct (rstrip_prefix (dropwhile is_space s)) as [b [Hb _]].
  exists a, b. now rewrite <- Hb.
Qed.

Lemma rstrip_idem (s : str) : rstrip (rstrip s) = rstrip s.
Proof. unfold rstrip. now rewrite rev_involutive, dropwhile_idem. Qed.

Lemma rstrip_snoc (s : str) (c : ascii) :
  is_space c = false -> rstrip (s ++ [c]) = s ++ [c].
Proof.
  intros H. unfold rstrip. rewrite rev_app_distr. simpl. rewrite H.
  simpl. now rewrite rev_involutive.
Qed.

(** A string without leading whitespace keeps that property when trailing
    whitespace is removed. *)
Lemma lstrip_rstrip_fix (s : str) :
  lstrip s = s -> lstrip (rstrip s) = rstrip s.
Proof.
  intros H. destruct (rstrip_prefix s) as [b [Hb _]].
  destruct (rstrip s) as [|c r] eqn:E; [reflexivity|].
  unfold lstrip in *. apply dropwhile_fix.
  rewrite Hb in H. simpl in H.
  destruct (is_space c) eqn:Ec; [|reflexivity].
  exfalso.
  destruct (dropwhile_suffix is_space (r ++ b)) as [a [Ha _]].
  rewrite H in Ha. apply (f_equal (@length ascii)) in Ha.
  rewrite !length_app in Ha. simpl in Ha. rewrite ?length_app in Ha. lia.
Qed.

Lemma strip_lstrip_fix (s : str) : lstrip (strip s) = strip s.
Proof.
  unfold strip. apply lstrip_rstrip_fix. apply dropwhile_idem.
Qed.

Lemma strip_idem (s : str) : strip (strip s) = strip s.
Proof.
  unfold strip at 1. rewrite strip_lstrip_fix. unfold strip.
  apply rstrip_idem.
Qed.

Lemma strip_snoc_fix (t : str) (c : ascii) :
  lstrip t = t -> is_space c = false -> strip (t ++ [c]) = t ++ [c].
Proof.
  intros Ht Hc. unfold strip.
  assert (H : lstrip (t ++ [c]) = t ++ [c]).
  { destruct t as [|x t]; simpl.
    - unfold lstrip. simpl. now rewrite Hc.
    - unfold lstrip in *. simpl in *. destruct (is_space x); [|reflexivity].
      exfalso. destruct (dropwhile_suffix is_space t) as [a [Ha _]].
      rewrite Ht in Ha. apply (f_equal (@length ascii)) in Ha.
      rewrite !length_app in Ha. simpl in Ha. rewrite ?length_app in Ha. lia. }
  rewrite H. now apply rstrip_snoc.
Qed.

Lemma endswith_snoc (t : str) (c : ascii) : endswith [c] (t ++ [c]) = true.
Proof.
  unfold endswith. rewrite rev_app_distr. simpl. now rewrite ascii_eqb_refl.
Qed.

End StringFacts.

(** *** Deleting a literal pattern *)

Lemma re_sub_lit_nl_cons (pat : str) (c : ascii) (r : str) :
  re_sub_lit_nl pat (c :: r) =
  if startswith pat (c :: r)
  then re_sub_lit_nl pat (drop_newline (skipn (length pat - 1) r))
  else c :: re_sub_lit_nl pat r.
Proof.
  simp re_sub_lit_nl. destruct (startswith pat (c :: r)); reflexivity.
Qed.

Lemma drop_newline_length (s : str) : length (drop_newline s) <= length s.
Proof.
  destruct s as [|a s]; simpl; [lia|].
  destruct (ascii_eqb a newline); simpl; lia.
Qed.

(** A string in which the pattern does not occur is left alone. *)
Lemma re_sub_lit_nl_absent (pat s : str) :
  contains pat s = false -> re_sub_lit_nl pat s = s.
Proof.
  induction s as [|c s IH]; intros H.
  - now simp re_sub_lit_nl.
  - apply contains_cons_false in H. destruct H as [H1 H2].
    rewrite re_sub_lit_nl_cons, H1. now rewrite IH.
Qed.

Section FenceRemoval.

(** Induction on the length of the scanned text, the measure of
    [re_sub_lit_nl]. *)
Lemma str_length_ind (P : str -> Prop) :
  (forall s, (forall t, length t < length s -> P t) -> P s) ->
  forall s, P s.
Proof.
  intros H s. remember (length s) as n eqn:E. revert s E.
  induction n as [n IH] using lt_wf_ind. intros s ->.
  apply H. intros t Ht. now apply (IH (length t)).
Qed.

Lemma fence_rest_shorter (r : str) :
  length (drop_newline (skipn (length fence - 1) r)) < length (backtick :: r).
Proof.
  pose proof (drop_newline_length (skipn (length fence - 1) r)).
  pose proof (length_skipn (length fence - 1) r). simpl in *. lia.
Qed.

Lemma startswith_cons (a : ascii) (p : str) (b : ascii) (s : str) :
  startswith (a :: p) (b :: s) = ascii_eqb a b && startswith p s.
Proof. reflexivity. Qed.

Lemma startswith_fence_head (c : ascii) (r : str) :
  startswith fence (c :: r) = true -> c = backtick.
Proof.
  unfold fence. rewrite startswith_cons, andb_true_iff, ascii_eqb_eq.
  now intros [-> _].
Qed.

Lemma sub_fence_head1 (s : str) :
  startswith [backtick] (re_sub_lit_nl fence s) = true ->
  startswith [backtick] s = true.
Proof.
  induction s as [s IH] using str_length_ind.
  destruct s as [|c r]; [now simp re_sub_lit_nl|].
  rewrite re_sub_lit_nl_cons.
  destruct (startswith fence (c :: r)) eqn:E.
  - intros _. apply startswith_fence_head in E. subst c.
    now rewrite startswith_cons, ascii_eqb_refl.
  - now rewrite !startswith_cons.
Qed.

Lemma sub_fence_head2 (s : str) :
  startswith [backtick; backtick] (re_sub_lit_nl fence s) = true ->
  startswith [backtick; backtick] s = true.
Proof.
  destruct s as [|c r]; [now simp re_sub_lit_nl|].
  rewrite re_sub_lit_nl_cons.
  destruct (startswith fence (c :: r)) eqn:E.
  - intros _. change fence with ([backtick; backtick] ++ [backtick]) in E.
    now apply startswith_weaken in E.
  - rewrite !(startswith_cons backtick [backtick]), andb_true_iff.
    intros [Hc Hr]. apply sub_fence_head1 in Hr. now rewrite Hc, Hr.
Qed.

Lemma sub_fence_head3 (s : str) :
  startswith fence (re_sub_lit_nl fence s) = false.
Proof.
  induction s as [s IH] using str_length_ind.
  destruct s as [|c r]; [now simp re_sub_lit_nl|].
  rewrite re_sub_lit_nl_cons.
  destruct (startswith fence (c :: r)) eqn:E.
  - apply IH. apply startswith_fence_head in E. subst c.
    apply fence_rest_shorter.
  - destruct (startswith fence (c :: re_sub_lit_nl fence r)) eqn:E2;
      [|reflexivity].
    unfold fence in E, E2. rewrite startswith_cons in E, E2.
    apply andb_true_iff in E2. destruct E2 as [Hc Hr].
    apply sub_fence_head2 in Hr. rewrite Hc, Hr in E. discriminate.
Qed.

(** After the deletion pass for the bare fence no fence is left: the
    backticks that remain of a run are fewer than three, and the text on
    both sides of a deleted fence cannot join into a new one. *)
Lemma sub_fence_clean (s : str) :
  contains fence (re_sub_lit_nl fence s) = false.
Proof.
  induction s as [s IH] using str_length_ind.
  destruct s as [|c r]; [now simp re_sub_lit_nl|].
  pose proof (sub_fence_head3 (c :: r)) as H3.
  rewrite re_sub_lit_nl_cons in *.
  destruct (startswith fence (c :: r)) eqn:E.
  - apply IH. apply startswith_fence_head in E. subst c.
    apply fence_rest_shorter.
  - change (contains fence (c :: re_sub_lit_nl fence r))
      with (startswith fence (c :: re_sub_lit_nl fence r)
            || contains fence (re_sub_lit_nl fence r)).
    rewrite H3. simpl orb. apply IH. simpl. lia.
Qed.

End FenceRemoval.

(** *** Splitting *)

Section Splitting.

Lemma split_cons (sep : str) (c : ascii) (r : str) :
  split sep (c :: r) =
  if startswith sep (c :: r)
  then [] :: split sep (skipn (length sep - 1) r)
  else cons_head c (split sep r).
Proof.
  simp split. destruct (startswith sep (c :: r)); reflexivity.
Qed.

Lemma split_nonempty (sep s : str) : 1 <= length (split sep s).
Proof.
  destruct s as [|c r]; [simp split; simpl; lia|].
  rewrite split_cons. destruct (startswith sep (c :: r)); simpl; [lia|].
  destruct (split sep r); simpl; lia.
Qed.

Lemma cons_head_length (c : ascii) (parts : list str) :
  1 <= length parts -> length (cons_head c parts) = length parts.
Proof. destruct parts; simpl; lia. Qed.

(** Where the separator occurs there is a part after it: the index 1 of
    the split exists. *)
Lemma split_contains (sep s : str) :
  sep <> [] -> contains sep s = true -> 2 <= length (split sep s).
Proof.
  intros Hsep. induction s as [|c r IH]; intros H.
  - simpl in H. rewrite orb_false_r in H. destruct sep; [contradiction|].
    discriminate.
  - rewrite split_cons. simpl in H.
    destruct (startswith sep (c :: r)) eqn:S1.
    + pose proof (split_nonempty sep (skipn (length sep - 1) r)).
      simpl. lia.
    + simpl in H. rewrite cons_head_length by apply split_nonempty.
      now apply IH.
Qed.

End Splitting.

(** ** Dictionaries *)

Section Dicts.

Context {F D : Type}.

Notation val := (value F D).
Notation record := (@dict F D).

Lemma str_eqb_eq (a b : str) : str_eqb a b = true <-> a = b.
Proof.
  revert b. induction a as [|x a IH]; intros [|y b]; simpl;
    try (split; [discriminate | discriminate]); [tauto|].
  rewrite andb_true_iff, ascii_eqb_eq, IH. split.
  - now intros [-> ->].
  - intros H. injection H as -> ->. tauto.
Qed.

Lemma str_eqb_refl (a : str) : str_eqb a a = true.
Proof. now apply str_eqb_eq. Qed.

Lemma str_eqb_sym (a b : str) : str_eqb a b = str_eqb b a.
Proof.
  destruct (str_eqb a b) eqn:H1, (str_eqb b a) eqn:H2; try reflexivity.
  - apply str_eqb_eq in H1. subst. now rewrite str_eqb_refl in H2.
  - apply str_eqb_eq in H2. subst. now rewrite str_eqb_refl in H1.
Qed.

Lemma str_eqb_neq (a b : str) : str_eqb a b = false <-> a <> b.
Proof.
  split.
  - intros H Heq. subst. now rewrite str_eqb_refl in H.
  - intros H. destruct (str_eqb a b) eqn:X; [|reflexivity].
    now apply str_eqb_eq in X.
Qed.

Lemma dict_get_set (k k' : str) (v dflt : val) (d : record) :
  dict_get k (dict_set k' v d) dflt =
  if str_eqb k k' then v else dict_get k d dflt.
Proof.
  induction d as [|[k0 v0] rest IH]; simpl.
  - reflexivity.
  - destruct (str_eqb k' k0) eqn:E1; simpl.
    + apply str_eqb_eq in E1. subst k0. now destruct (str_eqb k k').
    + rewrite IH. destruct (str_eqb k k0) eqn:E2; [|reflexivity].
      apply str_eqb_eq in E2. subst k0.
      rewrite str_eqb_sym in E1. now rewrite E1.
Qed.

Lemma dict_has_set (k k' : str) (v : val) (d : record) :
  dict_has k (dict_set k' v d) = str_eqb k k' || dict_has k d.
Proof.
  induction d as [|[k0 v0] rest IH]; simpl.
  - now rewrite orb_false_r.
  - destruct (str_eqb k' k0) eqn:E1; simpl.
    + apply str_eqb_eq in E1. subst k0.
      now destruct (str_eqb k k'), (dict_has k rest).
    + rewrite IH. now destruct (str_eqb k k0), (str_eqb k k').
Qed.

Lemma dict_set_absent (k : str) (v : val) (d : record) :
  dict_has k d = false -> dict_set k v d = d ++ [(k, v)].
Proof.
  induction d as [|[k0 v0] rest IH]; simpl; [reflexivity|].
  intros H. apply orb_false_iff in H. destruct H as [H1 H2].
  rewrite H1. now rewrite IH.
Qed.

Lemma dict_update_snoc (d other : record) (k : str) (v : val) :
  dict_update d (other ++ [(k, v)]) = dict_set k v (dict_update d other).
Proof. unfold dict_update. now rewrite fold_left_app. Qed.

Lemma dict_get_update_absent (k : str) (dflt : val) (other : record) :
  forall d, dict_has k other = false ->
  dict_get k (dict_update d other) dflt = dict_get k d dflt.
Proof.
  unfold dict_update.
  induction other as [|[k0 v0] rest IH]; intros d H; simpl; [reflexivity|].
  simpl in H. apply orb_false_iff in H. destruct H as [H1 H2].
  rewrite IH by exact H2. simpl. now rewrite dict_get_set, H1.
Qed.

End Dicts.

(** ** SQL response cleaning *)

Section CleanSql.

Lemma lit_fence : lit "```" = fence.
Proof. reflexivity. Qed.

Lemma lit_fence_sql : lit "```sql" = fence ++ lit "sql".
Proof. reflexivity. Qed.

Lemma semicolon_not_space : is_space ";"%char = false.
Proof. reflexivity. Qed.

Lemma clean_unfold (response : str) :
  _clean_sql_response response =
  if endswith (lit ";") (unfenced response) then unfenced response
  else unfenced response ++ lit ";".
Proof.
  unfold _clean_sql_response, unfenced.
  now destruct (endswith _ _).
Qed.

Lemma unfenced_no_fence (response : str) :
  contains fence (unfenced response) = false.
Proof.
  unfold unfenced. rewrite lit_fence.
  destruct (strip_decompose
              (re_sub_lit_nl fence (re_sub_lit_nl (lit "```sql") response)))
    as [a [b Hab]].
  apply (contains_sub_false fence a _ b). rewrite <- Hab.
  apply sub_fence_clean.
Qed.

Lemma contains_fence_snoc (t : str) (c : ascii) :
  c <> backtick -> contains fence t = false ->
  contains fence (t ++ [c]) = false.
Proof.
  intros Hc Ht. destruct (contains fence (t ++ [c])) eqn:C; [|reflexivity].
  apply contains_spec in C. destruct C as [a [b Hab]].
  induction b as [|x b' _] using rev_ind.
  - rewrite app_nil_r in Hab.
    change fence with ([backtick; backtick] ++ [backtick]) in Hab.
    rewrite app_assoc in Hab. apply app_inj_tail in Hab.
    destruct Hab as [_ Hx]. contradiction.
  - rewrite !app_assoc in Hab. apply app_inj_tail in Hab.
    destruct Hab as [Hab _]. rewrite <- Ht. symmetry.
    apply contains_spec. exists a, b'. now rewrite app_assoc.
Qed.

Lemma clean_no_fence (response : str) :
  contains fence (_clean_sql_response response) = false.
Proof.
  rewrite clean_unfold. pose proof (unfenced_no_fence response) as H.
  destruct (endswith (lit ";") (unfenced response)); [exact H|].
  apply contains_fence_snoc; [discriminate | exact H].
Qed.

Lemma clean_ends_with_semicolon (response : str) :
  endswith (lit ";") (_clean_sql_response response) = true.
Proof.
  rewrite clean_unfold.
  destruct (endswith (lit ";") (unfenced response)) eqn:H; [exact H|].
  apply (endswith_snoc (unfenced response) ";"%char).
Qed.

Lemma clean_stripped (response : str) :
  strip (_clean_sql_response response) = _clean_sql_response response.
Proof.
  rewrite clean_unfold.
  destruct (endswith (lit ";") (unfenced response)).
  - apply strip_idem.
  - apply strip_snoc_fix; [apply strip_lstrip_fix | reflexivity].
Qed.


(** C9.  Cleaning is idempotent. *)
Theorem clean_sql_response_idempotent (s : str) :
  _clean_sql_response (_clean_sql_response s) = _clean_sql_response s.
Proof.
  pose proof (clean_no_fence s) as Hf.
  pose proof (clean_stripped s) as Hs.
  pose proof (clean_ends_with_semicolon s) as He.
  set (r := _clean_sql_response s) in *. clearbody r.
  unfold _clean_sql_response.
  rewrite (re_sub_lit_nl_absent (lit "```sql") r)
    by (rewrite lit_fence_sql; now apply contains_weaken).
  rewrite (re_sub_lit_nl_absent (lit "```") r) by (now rewrite lit_fence).
  now rewrite Hs, He.
Qed.

Example clean_fenced :
  _clean_sql_response (lit "```sql
SELECT name FROM ads
```
") = lit "SELECT name FROM ads;".
Proof. reflexivity. Qed.

Example clean_keeps_semicolon :
  _clean_sql_response (lit "  SELECT 1;  ") = lit "SELECT 1;".
Proof. reflexivity. Qed.

End CleanSql.

(** ** Question classification *)

Section Classifier.


End Classifier.

(** ** The SELECT guard *)

Section Guard.

Context {F D : Type} {E : PyEnv F D} {T : PyText}.

Lemma snoc_neq {A : Type} (l : list A) (x : A) : l ++ [x] <> l.
Proof.
  intros H. apply (f_equal (@length A)) in H.
  rewrite length_app in H. simpl in H. lia.
Qed.

Ltac snoc_absurd :=
  match goal with
  | H : ?l ++ [?x] = ?l |- _ => exfalso; exact (@snoc_neq _ l x H)
  | H : ?l = ?l ++ [?x] |- _ =>
      exfalso; exact (@snoc_neq _ l x (eq_sym H))
  end.

Lemma execute_query_executed (query : str) (dm : DatabaseManager) :
  executed (snd (execute_query query dm)) = executed dm ++ [query].
Proof.
  unfold execute_query. now destruct (read_sql query (tables dm)).
Qed.

Lemma is_ascii_app (a b : str) :
  is_ascii (a ++ b) = is_ascii a && is_ascii b.
Proof. apply forallb_app. Qed.

Lemma is_ascii_strip (s : str) : is_ascii s = true -> is_ascii (strip s) = true.
Proof.
  intros H. destruct (strip_decompose s) as [a [b Hab]].
  rewrite Hab, !is_ascii_app in H.
  apply andb_true_iff in H. destruct H as [_ H].
  now apply andb_true_iff in H.
Qed.

(** On a statement of ASCII characters the test of the guard is the one
    that [strip] and [upper] compute. *)
Lemma guard_ascii (s : str) :
  is_ascii s = true -> str_upper (str_strip s) = upper (strip s).
Proof.
  intros H. rewrite (str_strip_ascii s H).
  apply str_upper_ascii. now apply is_ascii_strip.
Qed.

(** C4.  The guard raises, leaving the database untouched, exactly when
    the statement, stripped and uppercased as the interpreter does it, for
    every character of Unicode, does not start with SELECT; every other
    statement is handed to the database as it is.  On a statement of ASCII
    characters the test is the one that [strip] and [upper] compute. *)
Theorem execute_sql_query_guard (sql_query : str) (dm : DatabaseManager) :
  let passes := startswith (lit "SELECT") (str_upper (str_strip sql_query)) in
  let out := _execute_sql_query sql_query dm in
  (passes = false <->
     out = (inl (ValueError (lit "Only SELECT queries are allowed")), dm))
  /\ (passes = false <-> executed (snd out) = executed dm)
  /\ (passes = true <-> out = execute_query sql_query dm)
  /\ (passes = true <-> executed (snd out) = executed dm ++ [sql_query])
  /\ (is_ascii sql_query = true ->
      passes = startswith (lit "SELECT") (upper (strip sql_query))).
Proof.
  cbv zeta. unfold _execute_sql_query.
  pose proof (execute_query_executed sql_query dm) as Hx.
  assert (Ha : is_ascii sql_query = true ->
               startswith (lit "SELECT") (str_upper (str_strip sql_query))
               = startswith (lit "SELECT") (upper (strip sql_query)))
    by (intros H; now rewrite guard_ascii).
  destruct (startswith (lit "SELECT") (str_upper (str_strip sql_query)));
    simpl negb; cbv iota.
  - repeat split; try discriminate; try reflexivity; try exact Ha;
      try (intros _; exact Hx).
    all: intros H; rewrite H in Hx; simpl in Hx; snoc_absurd.
  - repeat split; try discriminate; try reflexivity; try exact Ha; intros H.
    + rewrite <- H in Hx. simpl in Hx. snoc_absurd.
    + simpl in H. snoc_absurd.
Qed.

End Guard.

(** ** Storage: replace on write *)

Section Storage.

Context {F D : Type} {E : PyEnv F D}.

Notation record := (@dict F D).
Notation frame := (DataFrame F D).

Lemma table_get_put (n n' : str) (f : frame) (db : database F D) :
  table_get n (table_put n' f db) =
  if str_eqb n n' then Some f else table_get n db.
Proof.
  induction db as [|[n0 t0] rest IH]; simpl.
  - reflexivity.
  - destruct (str_eqb n' n0) eqn:E1; simpl.
    + apply str_eqb_eq in E1. subst n0. now destruct (str_eqb n n').
    + rewrite IH. destruct (str_eqb n n0) eqn:E2; [|reflexivity].
      apply str_eqb_eq in E2. subst n0.
      rewrite str_eqb_sym in E1. now rewrite E1.
Qed.

Lemma columns_dumps_column (col : str) (df : frame) :
  columns (dumps_column col df) = columns df.
Proof.
  unfold dumps_column. destruct (str_mem col (columns df)); [|reflexivity].
  unfold columns. simpl. rewrite map_map. apply map_ext.
  intros c. now destruct (str_eqb col (fst c)).
Qed.

Lemma columns_new_DataFrame (data : list record) :
  columns (new_DataFrame data) = union_keys data.
Proof.
  unfold columns, new_DataFrame. simpl. rewrite map_map. simpl.
  apply map_id.
Qed.

Lemma str_mem_In (k : str) (ks : list str) :
  str_mem k ks = true <-> In k ks.
Proof.
  induction ks as [|k' ks IH]; simpl; [split; [discriminate | tauto]|].
  rewrite orb_true_iff, str_eqb_eq, IH. split; intros [H | H]; auto.
Qed.

Lemma add_keys_fresh (ks : list str) :
  forall acc,
    NoDup ks -> (forall k, In k ks -> ~ In k acc) ->
    fold_left (fun acc k => if str_mem k acc then acc else acc ++ [k]) ks acc
    = acc ++ ks.
Proof.
  induction ks as [|k ks IH]; intros acc Hnd Hfresh; simpl.
  - now rewrite app_nil_r.
  - inversion Hnd as [|? ? Hk Hnd']; subst.
    destruct (str_mem k acc) eqn:M.
    + apply str_mem_In in M. exfalso. apply (Hfresh k); simpl; auto.
    + rewrite IH; [now rewrite <- app_assoc | exact Hnd' |].
      intros x Hx Hin. apply in_app_or in Hin. destruct Hin as [Hin | [<- | []]].
      * apply (Hfresh x); simpl; auto.
      * contradiction.
Qed.

Lemma add_keys_known (ks : list str) :
  forall acc,
    (forall k, In k ks -> In k acc) ->
    fold_left (fun acc k => if str_mem k acc then acc else acc ++ [k]) ks acc
    = acc.
Proof.
  induction ks as [|k ks IH]; intros acc Hin; simpl; [reflexivity|].
  assert (M : str_mem k acc = true) by (apply str_mem_In, Hin; simpl; auto).
  rewrite M. apply IH. intros x Hx. apply Hin. simpl. auto.
Qed.

Lemma row_of_record (r : record) (default : value F D) :
  NoDup (map fst r) ->
  map (fun c => (c, dict_get c r default)) (map fst r) = r.
Proof.
  induction r as [|[k v] r IH]; intros Hnd; simpl; [reflexivity|].
  inversion Hnd as [|? ? Hk Hnd']; subst.
  rewrite str_eqb_refl. f_equal.
  rewrite <- (IH Hnd') at 2. apply map_ext_in. intros c Hc.
  destruct (str_eqb c k) eqn:Eq; [|reflexivity].
  apply str_eqb_eq in Eq. subst c. contradiction.
Qed.

(** Records that all have the same keys are the rows of their frame:
    nothing is added to them and nothing is reordered. *)
Lemma new_DataFrame_uniform (keys : list str) (data : list record) :
  NoDup keys -> data <> [] ->
  Forall (fun r => map fst r = keys) data ->
  union_keys data = keys /\ df_records (new_DataFrame data) = data.
Proof.
  intros Hnd Hne Hall.
  assert (Hk : union_keys data = keys).
  { unfold union_keys. destruct data as [|r rest]; [contradiction|].
    inversion Hall as [|? ? Hr Hrest]; subst. simpl.
    rewrite (@add_keys_fresh (map fst r) [] Hnd) by (intros k _ []).
    simpl. clear Hne Hall. induction rest as [|r' rest IH]; [reflexivity|].
    inversion Hrest as [|? ? Hr' Hrest']; subst. simpl.
    rewrite add_keys_known by (intros k Hin; now rewrite <- Hr').
    now apply IH. }
  split; [exact Hk|].
  unfold new_DataFrame. cbn [df_records]. rewrite Hk.
  rewrite <- (map_id data) at 2. apply map_ext_in. intros r Hr.
  rewrite Forall_forall in Hall. rewrite <- (Hall r Hr).
  apply row_of_record. now rewrite (Hall r Hr).
Qed.

Lemma columns_stored_frame (t : entity) (data : list record) :
  columns (stored_frame t data) = union_keys data.
Proof.
  destruct t; simpl; rewrite ?columns_dumps_column;
    apply columns_new_DataFrame.
Qed.

Lemma records_dumps_column_nil (col : str) (df : frame) :
  df_records df = [] -> df_records (dumps_column col df) = [].
Proof.
  intros H. unfold dumps_column. destruct (str_mem col (columns df)); [|exact H].
  simpl. now rewrite H.
Qed.

Lemma stored_frame_nil (t : entity) : df_records (stored_frame t []) = [].
Proof. destruct t; reflexivity. Qed.

Lemma store_writes (t : entity) (data : list record) (dm : DatabaseManager) :
  tables (store t data dm) =
  table_put (table_name t) (stored_frame t data) (tables dm).
Proof. destruct t; reflexivity. Qed.

Lemma table_name_eqb (t t' : entity) :
  str_eqb (table_name t) (table_name t') = entity_eqb t t'.
Proof. destruct t, t'; reflexivity. Qed.

(** After a run, a table holds what the last store for it wrote, or what it
    held before when there was none. *)
Lemma run_table (ops : list (entity * list record)) (t : entity) :
  forall dm,
    table_get (table_name t) (tables (run ops dm)) =
    match last_store t ops with
    | Some data => Some (stored_frame t data)
    | None => table_get (table_name t) (tables dm)
    end.
Proof.
  induction ops as [|[t' data] rest IH]; intros dm; [reflexivity|].
  change (run ((t', data) :: rest) dm) with (run rest (store t' data dm)).
  rewrite IH. simpl. destruct (last_store t rest); [reflexivity|].
  rewrite store_writes, table_get_put, table_name_eqb.
  destruct (entity_eqb t t') eqn:Et; [|reflexivity].
  now destruct t, t'.
Qed.

Lemma insert_desc_perm (col : str) (r : record) (rows : list record) :
  Permutation (insert_desc col r rows) (r :: rows).
Proof.
  induction rows as [|r' rest IH]; simpl; [reflexivity|].
  destruct (sql_leb _ _); [reflexivity|].
  rewrite IH. apply perm_swap.
Qed.

Lemma order_by_desc_perm (col : str) (rows : list record) :
  Permutation (order_by_desc col rows) rows.
Proof.
  induction rows as [|r rest IH]; simpl; [reflexivity|].
  rewrite insert_desc_perm. now constructor.
Qed.

Lemma retrieve_unfold (t : entity) (dm : DatabaseManager) :
  retrieve t dm =
  match select_all_order_by_desc (table_name t) (order_column t) dm with
  | inr df => df_records df
  | inl _ => []
  end.
Proof. destruct t; reflexivity. Qed.


End Storage.

(** ** Pagination *)

Section Pagination.

Context {F D : Type} {E : PyEnv F D}.

Notation record := (@dict F D).
Notation world := (@world F D).
Notation response := (@response F D).

Variable api : FacebookAPI.
Variable endpoint : str.
Variable params : option record.

Lemma world_eta (w : world) :
  w = {| script := script w; sent := sent w; slept := slept w |}.
Proof. now destruct w. Qed.

Lemma make_request_returns (ps : option record) (w : world) r rest :
  script w = Returns r :: rest ->
  _make_request api endpoint ps w =
  (inr r, {| script := rest;
             sent := sent w ++ [request_of api endpoint ps];
             slept := slept w |}).
Proof. intros H. unfold _make_request. now rewrite H. Qed.

Lemma make_request_shrinks (ps : option record) (w w' : world) r :
  _make_request api endpoint ps w = (inr r, w') ->
  script w = Returns r :: script w'.
Proof.
  unfold _make_request. destruct (script w) as [|[msg|r'] rest];
    intros H; inversion H; subst. reflexivity.
Qed.

Lemma make_request_not_fuel (ps : option record) (w w' : world) e :
  _make_request api endpoint ps w = (inl e, w') -> e <> OutOfFuel.
Proof.
  unfold _make_request. destruct (script w) as [|[msg|r'] rest];
    intros H; inversion H; subst; discriminate.
Qed.

Lemma make_request_sent (ps : option record) (w w' : world) r :
  _make_request api endpoint ps w = (inr r, w') ->
  sent w' = sent w ++ [request_of api endpoint ps] /\ slept w' = slept w.
Proof.
  unfold _make_request. destruct (script w) as [|[msg|r'] rest];
    intros H; inversion H; subst. now split.
Qed.

(** One turn of the loop, by the cursor of the current page. *)
Lemma paginate_loop_step (fuel : nat) (current : response)
    (all_data : list record) (w : world) :
  paginate_loop (S fuel) api endpoint params current all_data w =
  match cursor_of current with
  | None => (inr all_data, w)
  | Some after =>
      match _make_request api endpoint (follow_params params after) w with
      | (inl e, w') => (inl e, w')
      | (inr response1, w') =>
          match resp_data response1 with
          | Some d =>
              paginate_loop fuel api endpoint params response1 (all_data ++ d)
                (sleep w')
          | None => (inr all_data, w')
          end
      end
  end.
Proof.
  simpl. unfold cursor_of. destruct (next_of current) as [u|]; [|reflexivity].
  destruct (after_param u) as [[|c a]|]; reflexivity.
Qed.

(** The loop never runs out of turns when it is given more turns than
    there are replies left. *)
Lemma paginate_loop_total (fuel : nat) :
  forall current all_data w,
    length (script w) < fuel ->
    fst (paginate_loop fuel api endpoint params current all_data w)
    <> inl OutOfFuel.
Proof.
  induction fuel as [|fuel IH]; intros current all_data w Hlen; [lia|].
  rewrite paginate_loop_step.
  destruct (cursor_of current) as [after|]; [|discriminate].
  destruct (_make_request api endpoint (follow_params params after) w)
    as [[e|r] w'] eqn:Hreq.
  - simpl. intros H. injection H as ->.
    now apply make_request_not_fuel in Hreq.
  - destruct (resp_data r); [|discriminate].
    apply IH. apply make_request_shrinks in Hreq.
    rewrite Hreq in Hlen. simpl in *. lia.
Qed.

(** Completeness: a script that begins with the pages of a walk is walked
    to its end. *)
Lemma paginate_loop_complete (more : list response) :
  forall fuel current all_data w rest,
    script w = map Returns more ++ rest ->
    walks current more = true ->
    length (script w) < fuel ->
    paginate_loop fuel api endpoint params current all_data w =
    (inr (all_data ++ concat (map page_items more)),
     {| script := rest;
        sent := sent w ++
                map (fun after =>
                       request_of api endpoint (follow_params params after))
                  (cursors_of current more);
        slept := slept w + pauses more |}).
Proof.
  induction more as [|q more IH]; intros fuel current all_data w rest Hs Hw Hlen;
    (destruct fuel as [|fuel]; [lia|]); rewrite paginate_loop_step;
    simpl in Hw.
  - destruct (cursor_of current); [discriminate|].
    simpl in *. subst rest. rewrite !app_nil_r, Nat.add_0_r.
    now rewrite <- world_eta.
  - destruct (cursor_of current) as [after|] eqn:Hc; [|discriminate].
    simpl in Hs, Hw.
    rewrite (make_request_returns _ _ Hs).
    simpl cursors_of. rewrite Hc.
    unfold pauses, page_items. simpl.
    destruct (resp_data q) as [d|] eqn:Hd.
    + rewrite (IH fuel q (all_data ++ d) _ rest); simpl;
        [ | reflexivity | exact Hw | rewrite Hs in Hlen; simpl in Hlen; lia ].
      rewrite <- !app_assoc. simpl.
      unfold pauses. now rewrite Nat.add_succ_r.
    + destruct more; [|discriminate]. simpl.
      now rewrite !app_nil_r, Nat.add_0_r.
Qed.

(** Soundness: when the loop returns, the replies it consumed are the
    pages of a walk. *)
Lemma paginate_loop_sound (fuel : nat) :
  forall current all_data w result w',
    paginate_loop fuel api endpoint params current all_data w
      = (inr result, w') ->
    exists more,
      script w = map Returns more ++ script w' /\ walks current more = true.
Proof.
  induction fuel as [|fuel IH]; intros current all_data w result w' H;
    [discriminate|].
  rewrite paginate_loop_step in H.
  destruct (cursor_of current) as [after|] eqn:Hc.
  - destruct (_make_request api endpoint (follow_params params after) w)
      as [[e|r] w1] eqn:Hreq; [discriminate|].
    apply make_request_shrinks in Hreq.
    destruct (resp_data r) as [d|] eqn:Hd.
    + apply IH in H. destruct H as [more [Hs Hw]].
      exists (r :: more). simpl in *. rewrite Hreq, Hs, Hc, Hd. now split.
    + injection H as <- <-. exists [r]. simpl. rewrite Hreq, Hc, Hd. now split.
  - injection H as <- <-. exists []. simpl. now rewrite Hc.
Qed.

Lemma request_limit (ps : option record) :
  match ps with Some p => dict_has (lit "limit") p = false | None => True end ->
  param_of "limit" (request_of api endpoint ps) = VInt (limit api).
Proof.
  unfold param_of, request_of. destruct ps as [[|e p]|]; intros H;
    try reflexivity.
  cbn [req_params].
  rewrite (dict_get_update_absent (lit "limit") VNone (e :: p) _ H).
  reflexivity.
Qed.

Lemma follow_request_params (after : str) :
  plain params = true ->
  param_of "limit" (request_of api endpoint (follow_params params after))
    = VInt (limit api)
  /\ param_of "after" (request_of api endpoint (follow_params params after))
    = VStr after.
Proof.
  intros Hp. split.
  - apply request_limit. simpl. rewrite dict_has_set. simpl.
    destruct params as [p|]; [|reflexivity].
    simpl in Hp. apply andb_true_iff in Hp. destruct Hp as [H _].
    now apply negb_true_iff in H.
  - unfold param_of, follow_params, request_of.
    assert (Ha : dict_has (lit "after")
                   (match params with Some p => p | None => [] end) = false).
    { destruct params as [p|]; [|reflexivity].
      simpl in Hp. apply andb_true_iff in Hp. destruct Hp as [_ H].
      now apply negb_true_iff in H. }
    rewrite (dict_set_absent _ _ _ Ha).
    destruct (match params with Some p => p | None => [] end) as [|e p];
      [reflexivity|].
    change ((e :: p) ++ [(lit "after", VStr after)])
      with (e :: (p ++ [(lit "after", @VStr F D after)])).
    cbn [req_params].
    change (e :: (p ++ [(lit "after", VStr after)]))
      with ((e :: p) ++ [(lit "after", @VStr F D after)]).
    rewrite dict_update_snoc, dict_get_set. now rewrite str_eqb_refl.
Qed.

Lemma cursors_of_length (more : list response) :
  forall current,
    walks current more = true ->
    length (cursors_of current more) = length more.
Proof.
  induction more as [|q more IH]; intros current H; [reflexivity|].
  simpl in *. destruct (cursor_of current); [|discriminate].
  simpl in *. f_equal. destruct (resp_data q).
  - now apply IH.
  - now destruct more.
Qed.

(** C2.  For every script of replies the pagination terminates.  It returns
    exactly when the script begins with the pages of a walk: a first page,
    then one page for each cursor found in the page before, ending at a
    page without cursor (or one without a data array); the result is then
    the concatenation of the data arrays of these pages in the order of the
    requests, each follow-up request carries the fixed page size and the
    cursor of the page before it, and the rest of the script is left
    unread. *)
Theorem paginate_request_spec (w : world) :
  let out := _paginate_request api endpoint params w in
  fst out <> inl OutOfFuel
  /\ (forall first more rest,
        script w = map Returns (first :: more) ++ rest ->
        walks first more = true ->
        out =
        (inr (concat (map page_items (first :: more))),
         {| script := rest;
            sent := sent w ++
                    request_of api endpoint params ::
                    map (fun after =>
                           request_of api endpoint (follow_params params after))
                      (cursors_of first more);
            slept := slept w + pauses more |})
        /\ length (cursors_of first more) = length more)
  /\ (forall all_data,
        fst out = inr all_data ->
        exists first more rest,
          script w = map Returns (first :: more) ++ rest
          /\ walks first more = true)
  /\ (plain params = true ->
      param_of "limit" (request_of api endpoint params) = VInt (limit api)
      /\ forall after,
           param_of "limit"
             (request_of api endpoint (follow_params params after))
             = VInt (limit api)
           /\ param_of "after"
                (request_of api endpoint (follow_params params after))
                = VStr after).
Proof.
  cbv zeta. unfold _paginate_request. repeat split.
  - destruct (_make_request api endpoint params w) as [[e|r] w1] eqn:Hreq.
    + simpl. intros H. injection H as ->.
      now apply make_request_not_fuel in Hreq.
    + apply paginate_loop_total. lia.
  - simpl in H. rewrite (make_request_returns _ _ H).
    rewrite (@paginate_loop_complete more _ first _ _ rest); simpl;
      [ | reflexivity | exact H0 | lia ].
    unfold page_items at 2. rewrite <- app_assoc. reflexivity.
  - now apply cursors_of_length.
  - intros all_data H.
    destruct (_make_request api endpoint params w) as [[e|r] w1] eqn:Hreq;
      [discriminate|].
    apply make_request_shrinks in Hreq.
    destruct (paginate_loop _ _ _ _ _ _ _) as [res w2] eqn:Hloop.
    simpl in H. subst res. apply paginate_loop_sound in Hloop.
    destruct Hloop as [more [Hs Hw]].
    exists r, more, (script w2). simpl. now rewrite Hreq, Hs.
  - apply request_limit. destruct params as [p|]; [|exact I].
    simpl in H. apply andb_true_iff in H. destruct H as [H _].
    now apply negb_true_iff in H.
  - now apply follow_request_params.
  - now apply follow_request_params.
Qed.

End Pagination.

(** ** Fallback to the sample data *)

Section Fallback.

Context {F D : Type} {E : PyEnv F D}.

Notation record := (@dict F D).
Notation world := (@world F D).
Notation response := (@response F D).
Notation reply := (@reply F D).

Variable api : FacebookAPI.

Lemma make_request_fails (endpoint : str) (ps : option record) (w : world) :
  request_fails (script w) = true ->
  exists e w',
    _make_request api endpoint ps w = (inl e, w')
    /\ script w' = tl (script w).
Proof.
  unfold _make_request. destruct (script w) as [|[msg|r] rest]; intros H;
    try discriminate; eexists; eexists; split; reflexivity.
Qed.

Lemma paginate_loop_raises (endpoint : str) (params : option record)
    (more : list response) :
  forall fuel current all_data (w : world) tail,
    script w = map Returns more ++ tail ->
    keeps_going current more = true ->
    request_fails tail = true ->
    length (script w) < fuel ->
    exists e w',
      paginate_loop fuel api endpoint params current all_data w = (inl e, w')
      /\ script w' = tl tail.
Proof.
  induction more as [|q more IH];
    intros fuel current all_data w tail Hs Hk Hf Hlen;
    (destruct fuel as [|fuel]; [lia|]); rewrite paginate_loop_step;
    simpl in Hk; apply andb_true_iff in Hk; destruct Hk as [Hc Hk];
    destruct (cursor_of current) as [after|]; try discriminate.
  - simpl in Hs. rewrite <- Hs in Hf.
    destruct (make_request_fails endpoint (follow_params params after) w Hf)
      as [e [w' [Hreq Hw']]].
    rewrite Hreq. exists e, w'. now rewrite Hw', Hs.
  - simpl in Hs. rewrite (make_request_returns _ _ _ _ Hs).
    apply andb_true_iff in Hk. destruct Hk as [Hd Hk].
    destruct (resp_data q) as [d|]; [|discriminate].
    apply IH; simpl; try assumption; try reflexivity.
    rewrite Hs in Hlen. simpl in Hlen. lia.
Qed.

(** A fetch whose next request fails raises, whatever was fetched
    before. *)
Lemma paginate_request_raises (endpoint : str) (params : option record)
    (w : world) (pages : list response) (tail : list reply) :
  script w = map Returns pages ++ tail ->
  continues pages = true ->
  request_fails tail = true ->
  exists e w',
    _paginate_request api endpoint params w = (inl e, w')
    /\ script w' = tl tail.
Proof.
  intros Hs Hc Hf. unfold _paginate_request.
  destruct pages as [|first more].
  - simpl in Hs. rewrite <- Hs in Hf.
    destruct (make_request_fails endpoint params w Hf) as [e [w' [Hreq Hw']]].
    rewrite Hreq. exists e, w'. now rewrite Hw', Hs.
  - simpl in Hs, Hc. rewrite (make_request_returns _ _ _ _ Hs).
    apply (paginate_loop_raises endpoint params more) with (tail := tail);
      simpl; try assumption; try reflexivity. lia.
Qed.

Lemma fetch_unfold (t : entity) (account_id : str) (now : nat -> D)
    (w : world) :
  fetch t api account_id now w =
  match _paginate_request api (fetch_endpoint t account_id)
          (Some (fetch_params t)) w with
  | (inr items, w') => (processed t account_id items, w')
  | (inl _, w') => (sample t account_id now, w')
  end.
Proof. destruct t; reflexivity. Qed.

Lemma process_from_shift (account_id : str) (insights : list record) :
  forall acc,
    fold_left
      (fun processed_insights insight =>
         processed_insights ++
         [process_insight account_id (length processed_insights) insight])
      insights acc
    = acc ++ process_from account_id (length acc) insights.
Proof.
  induction insights as [|x rest IH]; intros acc; simpl.
  - now rewrite app_nil_r.
  - rewrite IH, length_app, <- app_assoc. simpl.
    now rewrite Nat.add_1_r.
Qed.

Lemma process_insights_from (account_id : str) (insights : list record) :
  process_insights account_id insights = process_from account_id 0 insights.
Proof. unfold process_insights. now rewrite process_from_shift. Qed.

(** The sample data is never the outcome of processing fetched items: the
    first sample record has an id and an empty raw payload, and a processed
    record with an empty payload has no such id. *)
Lemma sample_not_processed (t : entity) (account_id : str) (now : nat -> D)
    (items : list record) :
  sample t account_id now <> processed t account_id items.
Proof.
  intros H.
  assert (Hfield : forall k,
            option_map (get k) (hd_error (sample t account_id now)) =
            option_map (get k) (hd_error (processed t account_id items)))
    by (intros k; now rewrite H).
  clear H. pose proof (Hfield "data"%string) as Hd.
  specialize (Hfield "id"%string).
  destruct t; unfold sample, processed in *;
    try rewrite process_insights_from in *;
    (destruct items as [|i rest]; [discriminate Hfield|]);
    lazy in Hd; injection Hd as <-; lazy in Hfield; discriminate.
Qed.

Lemma sample_account (t : entity) (account_id : str) (now : nat -> D) :
  Forall (fun r => get "account_id" r = VStr account_id)
    (sample t account_id now).
Proof.
  destruct t; unfold sample.
  1-3: repeat constructor.
  unfold _get_sample_insights. apply Forall_forall. intros r Hr.
  apply in_flat_map in Hr. destruct Hr as [i [_ Hr]].
  unfold sample_insight_pair in Hr.
  destruct Hr as [<- | [<- | []]]; reflexivity.
Qed.

(** C3.  When a page request of a fetch fails, after any number of pages
    that were fetched well, the fetch returns the sample data of its entity
    type, with the given account id in every record; the result is never
    what processing the pages fetched so far would give, and the fetch
    itself returns normally. *)
Theorem fetch_falls_back (t : entity) (account_id : str) (now : nat -> D)
    (w : world) (pages : list response) (tail : list reply) :
  script w = map Returns pages ++ tail ->
  continues pages = true ->
  request_fails tail = true ->
  fst (fetch t api account_id now w) = sample t account_id now
  /\ (forall items,
        fst (fetch t api account_id now w) <> processed t account_id items)
  /\ Forall (fun r => get "account_id" r = VStr account_id)
       (fst (fetch t api account_id now w))
  /\ script (snd (fetch t api account_id now w)) = tl tail.
Proof.
  intros Hs Hc Hf.
  destruct (@paginate_request_raises (fetch_endpoint t account_id)
              (Some (fetch_params t)) w pages tail Hs Hc Hf)
    as [e [w' [Hreq Hw']]].
  rewrite fetch_unfold, Hreq. simpl. repeat split.
  - intros items. apply sample_not_processed.
  - apply sample_account.
  - exact Hw'.
Qed.

End Fallback.

(** ** Record processing *)

Section Processing.

Context {F D : Type} {E : PyEnv F D}.

Notation val := (value F D).
Notation record := (@dict F D).
Notation world := (@world F D).

Lemma process_from_nth (account_id : str) (insights : list record) :
  forall k n,
    nth_error (process_from account_id k insights) n =
    option_map (process_insight account_id (k + n)) (nth_error insights n).
Proof.
  induction insights as [|x rest IH]; intros k n.
  - now destruct n.
  - destruct n as [|n]; simpl.
    + now rewrite Nat.add_0_r.
    + rewrite IH. now rewrite Nat.add_succ_r.
Qed.

Lemma process_from_length (account_id : str) (insights : list record) :
  forall k, length (process_from account_id k insights) = length insights.
Proof.
  induction insights as [|x rest IH]; intros k; simpl; [reflexivity|].
  now rewrite IH.
Qed.

Lemma dict_get_missing (k : str) (d : record) (default : val) :
  dict_has k d = false -> dict_get k d default = default.
Proof.
  induction d as [|[k0 v0] rest IH]; simpl; [reflexivity|].
  intros H. apply orb_false_iff in H. destruct H as [H1 H2].
  rewrite H1. now apply IH.
Qed.

Lemma dict_get_present (k : str) (d : record) (default default' : val) :
  dict_has k d = true -> dict_get k d default = dict_get k d default'.
Proof.
  induction d as [|[k0 v0] rest IH]; simpl; [discriminate|].
  destruct (str_eqb k k0); [reflexivity|]. exact IH.
Qed.

(** C8.  When the API returns a list of raw insight records, the record
    processed at position [n] gets the id made of its campaign_id, its
    date_start and [n], joined by hyphens; a field that is missing
    contributes the empty string, and a string field contributes
    itself. *)
Theorem insight_synthetic_id (api : FacebookAPI) (account_id date_preset : str)
    (now : nat -> D) (w : world) (insights : list record) :
  fst (_paginate_request api (account_id ++ lit "/insights")
         (Some (insight_params date_preset)) w) = inr insights ->
  fst (fetch_insights api account_id date_preset now w)
    = process_insights account_id insights
  /\ length (process_insights account_id insights) = length insights
  /\ (forall n insight,
        nth_error insights n = Some insight ->
        exists r,
          nth_error (fst (fetch_insights api account_id date_preset now w)) n
            = Some r
          /\ get "id" r =
             VStr (id_part "campaign_id" insight ++ lit "-" ++
                   id_part "date_start" insight ++ lit "-" ++ str_of_nat n))
  /\ (forall (k : string) insight,
        dict_has (lit k) insight = false -> id_part k insight = [])
  /\ (forall (k : string) insight s,
        dict_has (lit k) insight = true ->
        get k insight = VStr s -> id_part k insight = s).
Proof.
  intros Hp.
  assert (Hf : fst (fetch_insights api account_id date_preset now w)
               = process_insights account_id insights).
  { unfold fetch_insights.
    destruct (_paginate_request _ _ _ _) as [[e|items] w']; simpl in *;
      [discriminate|]. now injection Hp as ->. }
  split; [exact Hf|]. split; [|split; [|split]].
  - rewrite process_insights_from. apply process_from_length.
  - intros n insight Hn. rewrite Hf, process_insights_from, process_from_nth.
    rewrite Hn. simpl. eexists. split; reflexivity.
  - intros k insight H. unfold id_part. now rewrite dict_get_missing.
  - intros k insight s H Hs. unfold id_part.
    rewrite (dict_get_present _ _ (VStr []) VNone H).
    unfold get in Hs. now rewrite Hs.
Qed.

(** *** The numeric parsers *)

Lemma parse_float_missing (k : string) (raw : record) :
  dict_has (lit k) raw = false ->
  _parse_float (get k raw) = float_lit "0.0".
Proof.
  intros H. unfold get. now rewrite dict_get_missing.
Qed.

Lemma parse_int_missing (k : string) (raw : record) :
  dict_has (lit k) raw = false -> _parse_int (get k raw) = 0%Z.
Proof.
  intros H. unfold get. now rewrite dict_get_missing.
Qed.

Lemma processed_nth (t : entity) (account_id : str) (items : list record)
    (n : nat) (r : record) :
  nth_error (processed t account_id items) n = Some r ->
  exists raw,
    nth_error items n = Some raw /\
    r = match t with
        | Campaigns => process_campaign account_id raw
        | AdSets => process_adset account_id raw
        | Ads => process_ad account_id raw
        | Insights => process_insight account_id n raw
        end.
Proof.
  destruct t; simpl; try rewrite nth_error_map;
    try rewrite process_insights_from, process_from_nth;
    destruct (nth_error items n) as [raw|]; simpl; intros H;
    try discriminate; injection H as <-; now exists raw.
Qed.

(** C10.  The parsers are total: the float parser gives 0.0 and the integer
    parser gives 0 for [None], for the empty string and for a value that
    the conversion rejects, and the converted number otherwise.  Hence each
    numeric field of a processed record holds a number, which is zero when
    the raw record lacks the field. *)
Theorem parsers_total :
  (forall v : val,
     v = VNone \/ v = VStr [] \/ py_float v = None ->
     _parse_float v = float_lit "0.0")
  /\ (forall (v : val) f,
        py_float v = Some f -> v <> VStr [] -> _parse_float v = f)
  /\ (forall v : val,
        v = VNone \/ v = VStr [] \/ py_int v = None -> _parse_int v = 0%Z)
  /\ (forall (v : val) z,
        py_int v = Some z -> v <> VStr [] -> _parse_int v = z)
  /\ (forall t account_id items n r,
        nth_error (processed t account_id items) n = Some r ->
        exists raw,
          nth_error items n = Some raw
          /\ (forall k, In k (float_fields t) ->
                get k r = VFloat (_parse_float (get k raw))
                /\ (dict_has (lit k) raw = false ->
                    get k r = VFloat (float_lit "0.0")))
          /\ (forall k, In k (int_fields t) ->
                get k r = VInt (_parse_int (get k raw))
                /\ (dict_has (lit k) raw = false -> get k r = VInt 0))).
Proof.
  split; [|split; [|split; [|split]]].
  - intros v [-> | [-> | H]]; try reflexivity.
    unfold _parse_float. rewrite H. now destruct (is_none_or_empty v).
  - intros v f H Hv. unfold _parse_float. rewrite H.
    destruct v as [| | | |[|c s]| | |]; try reflexivity; try discriminate.
    now contradiction Hv.
  - intros v [-> | [-> | H]]; try reflexivity.
    unfold _parse_int. rewrite H. now destruct (is_none_or_empty v).
  - intros v z H Hv. unfold _parse_int. rewrite H.
    destruct v as [| | | |[|c s]| | |]; try reflexivity; try discriminate.
    now contradiction Hv.
  - intros t account_id items n r Hr.
    apply processed_nth in Hr. destruct Hr as [raw [Hraw ->]].
    exists raw. split; [exact Hraw|].
    split; intros k Hk.
    + destruct t; simpl in Hk;
        repeat (destruct Hk as [<- | Hk];
                [split; [reflexivity|];
                 intros Hm; rewrite <- (parse_float_missing _ _ Hm);
                 reflexivity|]);
        contradiction.
    + destruct t; simpl in Hk;
        repeat (destruct Hk as [<- | Hk];
                [split; [reflexivity|];
                 intros Hm; rewrite <- (parse_int_missing _ _ Hm);
                 reflexivity|]);
        contradiction.
Qed.

End Processing.

(** ** Fetched records in the store *)

Section FetchStore.

Context {F D : Type} {E : PyEnv F D}.

Notation record := (@dict F D).

Lemma record_keys_NoDup (t : entity) : NoDup (record_keys t).
Proof.
  destruct t; cbv [record_keys process_campaign process_adset process_ad
                   process_insight map fst entry];
    repeat (constructor; [cbn [In]; intuition discriminate|]);
    constructor.
Qed.

Lemma process_from_uniform (account_id : str) (items : list record) :
  forall k,
    Forall (fun r => map fst r = record_keys Insights)
      (process_from account_id k items).
Proof.
  induction items as [|x rest IH]; intros k; simpl; constructor;
    [reflexivity | apply IH].
Qed.

Lemma processed_uniform (t : entity) (account_id : str)
    (items : list record) :
  Forall (fun r => map fst r = record_keys t) (processed t account_id items).
Proof.
  destruct t; simpl;
    try (apply Forall_forall; intros r Hr;
         apply in_map_iff in Hr; destruct Hr as [raw [<- _]]; reflexivity).
  rewrite process_insights_from. apply process_from_uniform.
Qed.

Lemma processed_nonempty (t : entity) (account_id : str)
    (items : list record) :
  items <> [] -> processed t account_id items <> [].
Proof.
  destruct items as [|x rest]; [contradiction|]. intros _.
  destruct t; simpl; try discriminate.
  rewrite process_insights_from. discriminate.
Qed.

(** Processed records enter their table as they are, and they carry the
    column by which the table is read back. *)
Lemma processed_rows (t : entity) (account_id : str) (items : list record) :
  items <> [] ->
  df_records (new_DataFrame (processed t account_id items))
    = processed t account_id items
  /\ str_mem (order_column t) (union_keys (processed t account_id items))
     = true.
Proof.
  intros Hne.
  destruct (@new_DataFrame_uniform F D E (record_keys t)
              (processed t account_id items)
              (record_keys_NoDup t)
              (processed_nonempty t account_id Hne)
              (processed_uniform t account_id items)) as [Hk Hr].
  split; [exact Hr|]. rewrite Hk. now destruct t.
Qed.

End FetchStore.

(** ** Fallback narration *)

Section Narration.

Context {F D : Type} {E : PyEnv F D}.

Notation frame := (DataFrame F D).





End Narration.

(** ** The model at concrete inputs *)

Section Instances.

Import Decimal.
Import Utf8.

Example after_param_of_next_url :
  after_param Demo.next_url = Some (lit "QVFIUjE").
Proof. reflexivity. Qed.

Example after_param_absent :
  after_param (lit "https://graph.facebook.com/v18.0/act_1/ads?limit=500")
  = None.
Proof. reflexivity. Qed.

Example split_example :
  split (lit "&") (lit "a&b&&c") = [lit "a"; lit "b"; []; lit "c"].
Proof. reflexivity. Qed.

Example process_campaign_budget :
  get "daily_budget" (process_campaign Demo.account Demo.raw_campaign_1)
    = VFloat (Some 2500000%Z)
  /\ get "daily_budget" (process_campaign Demo.account Demo.raw_campaign_2)
    = VFloat (Some 0%Z)
  /\ get "lifetime_budget" (process_campaign Demo.account Demo.raw_campaign_2)
    = VFloat (Some 0%Z).
Proof. repeat split; reflexivity. Qed.

(** The sample campaigns carry no lifetime budget: the statement about the
    numeric fields is about processed records. *)
Example sample_lifetime_budget :
  map (get "lifetime_budget") (_get_sample_campaigns Demo.account Demo.clock)
  = [VNone; VNone].
Proof. reflexivity. Qed.

Example guard_examples :
  fst (_execute_sql_query (lit "  select * from ads") Demo.empty_manager)
    = inl (DatabaseError (lit "relation does not exist"))
  /\ _execute_sql_query (lit "DROP TABLE ads") Demo.empty_manager
    = (inl (ValueError (lit "Only SELECT queries are allowed")),
       Demo.empty_manager).
Proof. split; reflexivity. Qed.

(** A statement that begins with a no-break space, with an em space in
    front of lowercase letters or with the long s, or whose first word ends
    with a t under a diaeresis, passes the guard, as it does in the
    interpreter. *)
Example guard_unicode_examples :
  Forall
    (fun q =>
       _execute_sql_query q Demo.empty_manager
       = execute_query q Demo.empty_manager)
    [ Utf8.nbsp_select; Utf8.em_space_select; Utf8.long_s_select;
      Utf8.diaeresis_select ].
Proof. repeat constructor. Qed.


(** Witness for C2: two pages, the first with a cursor. *)
Lemma paginate_request_spec_witness :
  _paginate_request Demo.api (fetch_endpoint Campaigns Demo.account)
    Demo.campaign_params Demo.two_pages
  = (inr [Demo.raw_campaign_1; Demo.raw_campaign_2],
     {| script := [];
        sent :=
          [ request_of Demo.api (fetch_endpoint Campaigns Demo.account)
              Demo.campaign_params;
            request_of Demo.api (fetch_endpoint Campaigns Demo.account)
              (follow_params Demo.campaign_params (lit "QVFIUjE")) ];
        slept := 1 |}).
Proof.
  apply (proj1 (proj2 (@paginate_request_spec _ _ Demo.api
                         (fetch_endpoint Campaigns Demo.account)
                         Demo.campaign_params Demo.two_pages))
           Demo.page_1 [Demo.page_2] []);
    reflexivity.
Defined.

(** Witness for C3: the request for the second page fails. *)
Lemma fetch_falls_back_witness :
  fst (fetch Campaigns Demo.api Demo.account Demo.clock
         Demo.second_page_fails)
  = _get_sample_campaigns Demo.account Demo.clock.
Proof.
  apply (@fetch_falls_back _ _ env Demo.api Campaigns Demo.account Demo.clock
           Demo.second_page_fails [Demo.page_1]
           [Raises (lit "500 Server Error")]);
    reflexivity.
Defined.

(** Witness for C8: the second insight has no campaign id. *)
Lemma insight_synthetic_id_witness :
  exists r,
    nth_error
      (fst (fetch_insights Demo.api Demo.account (lit "last_30d") Demo.clock
              Demo.one_insights_page)) 1 = Some r
    /\ get "id" r = VStr (lit "-2024-05-02-1").
Proof.
  apply (proj1 (proj2 (proj2
           (@insight_synthetic_id _ _ env Demo.api Demo.account
              (lit "last_30d") Demo.clock Demo.one_insights_page
              [Demo.raw_insight_1; Demo.raw_insight_2] eq_refl)))
           1 Demo.raw_insight_2 eq_refl).
Defined.


End Instances.

(** ** The persistence layer: tables, order, start-up *)

Section DatabaseMore.

Context {F D : Type} {E : PyEnv F D}.

Notation record := (@dict F D).
Notation frame := (DataFrame F D).
Notation manager := (@DatabaseManager F D).

Lemma table_name_inj (t t' : entity) :
  entity_eqb t t' = false -> str_eqb (table_name t') (table_name t) = false.
Proof. destruct t, t'; simpl; intros H; try discriminate; reflexivity. Qed.

(** X1.  A store operation touches its own table only: reading any other
    table gives what it gave before. *)
Theorem store_leaves_other_tables (t t' : entity) (data : list record)
    (dm : manager) :
  entity_eqb t t' = false ->
  retrieve t' (store t data dm) = retrieve t' dm
  /\ executed (store t data dm) = executed dm.
Proof.
  intros Hne. split; [|now destruct t].
  rewrite !retrieve_unfold. unfold select_all_order_by_desc.
  rewrite store_writes, table_get_put, (table_name_inj _ _ Hne).
  reflexivity.
Qed.

Lemma descending_cons2 (col : str) (r1 r2 : record) (rest : list record) :
  descending col (r1 :: r2 :: rest) =
  sql_leb (dict_get col r2 VNone) (dict_get col r1 VNone)
  && descending col (r2 :: rest).
Proof. reflexivity. Qed.

Section Ordered.

Hypothesis sql_leb_total :
  forall a b : value F D, sql_leb a b = true \/ sql_leb b a = true.

Lemma insert_desc_descending (col : str) (r : record) (rows : list record) :
  descending col rows = true -> descending col (insert_desc col r rows) = true.
Proof.
  induction rows as [|r1 rest IH]; intros H; [reflexivity|].
  simpl insert_desc.
  destruct (sql_leb (dict_get col r1 VNone) (dict_get col r VNone)) eqn:L1.
  - rewrite descending_cons2, L1. exact H.
  - assert (L2 : sql_leb (dict_get col r VNone) (dict_get col r1 VNone) = true).
    { destruct (sql_leb_total (dict_get col r VNone) (dict_get col r1 VNone))
        as [G | G]; [exact G | congruence]. }
    destruct rest as [|r2 rest'].
    + simpl insert_desc. rewrite descending_cons2, L2. reflexivity.
    + rewrite descending_cons2 in H. apply andb_true_iff in H.
      destruct H as [H12 H2]. specialize (IH H2).
      simpl insert_desc in *.
      destruct (sql_leb (dict_get col r2 VNone) (dict_get col r VNone)) eqn:L3.
      * rewrite descending_cons2, L2. exact IH.
      * rewrite descending_cons2, H12. exact IH.
Qed.

Lemma order_by_desc_descending (col : str) (rows : list record) :
  descending col (order_by_desc col rows) = true.
Proof.
  induction rows as [|r rest IH]; [reflexivity|].
  simpl. now apply insert_desc_descending.
Qed.

(** X2.  Where the engine's order on the timestamp column is total, every
    retrieval lists the rows newest first. *)
Theorem retrieve_descending (t : entity) (dm : manager) :
  descending (order_column t) (retrieve t dm) = true.
Proof.
  rewrite retrieve_unfold. unfold select_all_order_by_desc.
  destruct (table_get (table_name t) (tables dm)) as [f|]; [|reflexivity].
  destruct (str_mem (order_column t) (columns f)); [|reflexivity].
  apply order_by_desc_descending.
Qed.

End Ordered.

(** X3.  The connection URL never has the legacy scheme [postgres://]: a
    DATABASE_URL with that scheme is rewritten to [postgresql://] with the
    rest unchanged, any other non-empty DATABASE_URL is used as it is, and
    without one the URL is assembled from the PG variables. *)
Theorem create_engine_scheme (environ : str -> option str) :
  startswith (lit "postgres://") (_create_engine environ) = false
  /\ (forall rest,
        environ (lit "DATABASE_URL") = Some (lit "postgres://" ++ rest) ->
        _create_engine environ = lit "postgresql://" ++ rest)
  /\ (forall url,
        environ (lit "DATABASE_URL") = Some url -> url <> [] ->
        startswith (lit "postgres://") url = false ->
        _create_engine environ = url)
  /\ (environ (lit "DATABASE_URL") = None
      \/ environ (lit "DATABASE_URL") = Some [] ->
      _create_engine environ =
        lit "postgresql://" ++ getenv environ "PGUSER" "postgres" ++ lit ":" ++
        getenv environ "PGPASSWORD" "" ++ lit "@" ++
        getenv environ "PGHOST" "localhost" ++ lit ":" ++
        getenv environ "PGPORT" "5432" ++ lit "/" ++
        getenv environ "PGDATABASE" "facebookdb").
Proof.
  assert (Hrw : forall rest,
            replace_first (lit "postgres://") (lit "postgresql://")
              (lit "postgres://" ++ rest) = lit "postgresql://" ++ rest)
    by reflexivity.
  split; [|split; [|split]].
  - unfold _create_engine.
    destruct (environ (lit "DATABASE_URL")) as [[|c url]|]; try reflexivity.
    destruct (startswith (lit "postgres://") (c :: url)) eqn:S1; [|exact S1].
    apply startswith_spec in S1. destruct S1 as [rest ->].
    rewrite Hrw. reflexivity.
  - intros rest H. unfold _create_engine. rewrite H.
    change (lit "postgres://" ++ rest) with
      ("p"%char :: tl (lit "postgres://") ++ rest).
    cbv iota.
    change ("p"%char :: tl (lit "postgres://") ++ rest)
      with (lit "postgres://" ++ rest).
    now rewrite startswith_app, Hrw.
  - intros url H Hne Hs. unfold _create_engine. rewrite H.
    destruct url as [|c url]; [contradiction|]. now rewrite Hs.
  - intros [H | H]; unfold _create_engine; now rewrite H.
Qed.

Lemma create_if_missing_get (db : database F D) (t t' : entity) :
  table_get (table_name t) (create_if_missing db t') =
  match table_get (table_name t) db with
  | Some f => Some f
  | None => if entity_eqb t t' then Some (defined_table t') else None
  end.
Proof.
  unfold create_if_missing.
  destruct (table_get (table_name t') db) as [f'|] eqn:G'.
  - destruct (table_get (table_name t) db) as [f|] eqn:G; [reflexivity|].
    destruct (entity_eqb t t') eqn:Et; [|reflexivity].
    assert (t = t') by (destruct t, t'; simpl in Et; congruence).
    subst t'. congruence.
  - rewrite table_get_put, table_name_eqb.
    destruct (entity_eqb t t') eqn:Et.
    + assert (t = t') by (destruct t, t'; simpl in Et; congruence).
      subst t'. now rewrite G'.
    + now destruct (table_get (table_name t) db).
Qed.

(** X4.  Start-up keeps every table that exists, with its rows, and creates
    each missing table empty with the defined columns; so reading a table
    after start-up gives its former rows, or no rows and no error. *)
Theorem init_keeps_tables (db : database F D) (t : entity) :
  table_get (table_name t) (tables (DatabaseManager__init__ db)) =
    Some (match table_get (table_name t) db with
          | Some f => f
          | None => defined_table t
          end)
  /\ (forall f,
        table_get (table_name t) db = Some f ->
        retrieve t (DatabaseManager__init__ db)
          = retrieve t {| tables := db; executed := [] |})
  /\ (table_get (table_name t) db = None ->
      select_all_order_by_desc (table_name t) (order_column t)
        (DatabaseManager__init__ db) = inr (defined_table t)
      /\ retrieve t (DatabaseManager__init__ db) = []).
Proof.
  assert (Hget : table_get (table_name t) (tables (DatabaseManager__init__ db))
                 = Some (match table_get (table_name t) db with
                         | Some f => f
                         | None => defined_table t
                         end)).
  { unfold DatabaseManager__init__, _create_tables. cbn [tables fold_left].
    rewrite !create_if_missing_get.
    destruct (table_get (table_name t) db); [reflexivity|].
    now destruct t. }
  split; [exact Hget|]. split.
  - intros f Hf. rewrite !retrieve_unfold. unfold select_all_order_by_desc.
    rewrite Hget, Hf. cbn [tables]. now rewrite Hf.
  - intros Hnone.
    assert (Hsel : select_all_order_by_desc (table_name t) (order_column t)
                     (DatabaseManager__init__ db) = inr (defined_table t)).
    { unfold select_all_order_by_desc. rewrite Hget, Hnone. now destruct t. }
    split; [exact Hsel|]. now rewrite retrieve_unfold, Hsel.
Qed.

(** X5.  Storing an empty list leaves a table without columns: the
    retrieval statement then fails on its ORDER BY column, and the
    retrieval answers with the empty list through its error path. *)
Theorem store_empty_drops_columns (t : entity) (dm : manager) :
  (exists f,
     table_get (table_name t) (tables (store t [] dm)) = Some f
     /\ columns f = [] /\ df_records f = [])
  /\ select_all_order_by_desc (table_name t) (order_column t) (store t [] dm)
     = inl (DatabaseError (lit "column does not exist"))
  /\ retrieve t (store t [] dm) = [].
Proof.
  assert (Hget : table_get (table_name t) (tables (store t [] dm))
                 = Some (stored_frame t [])).
  { now rewrite store_writes, table_get_put, str_eqb_refl. }
  assert (Hsel : select_all_order_by_desc (table_name t) (order_column t)
                   (store t [] dm)
                 = inl (DatabaseError (lit "column does not exist"))).
  { unfold select_all_order_by_desc. rewrite Hget. now destruct t. }
  split; [|split].
  - exists (stored_frame t []). split; [exact Hget|]. now destruct t.
  - exact Hsel.
  - now rewrite retrieve_unfold, Hsel.
Qed.

End DatabaseMore.

(** ** The API client: requests, failures, processed records *)

Section ApiMore.

Context {F D : Type} {E : PyEnv F D}.

Notation val := (value F D).
Notation record := (@dict F D).
Notation world := (@world F D).
Notation response := (@response F D).
Notation reply := (@reply F D).

Lemma dict_has_snoc (k k0 : str) (v0 : val) (d : record) :
  dict_has k (d ++ [(k0, v0)]) = dict_has k d || str_eqb k k0.
Proof.
  induction d as [|[k1 v1] rest IH]; simpl; [now rewrite orb_false_r|].
  rewrite IH. now rewrite orb_assoc.
Qed.

Lemma dict_get_snoc (k k0 : str) (v0 dflt : val) (d : record) :
  dict_get k (d ++ [(k0, v0)]) dflt =
  if dict_has k d then dict_get k d dflt
  else if str_eqb k k0 then v0 else dflt.
Proof.
  induction d as [|[k1 v1] rest IH]; simpl; [reflexivity|].
  destruct (str_eqb k k1); [reflexivity|]. exact IH.
Qed.

Lemma dict_has_In (k : str) (d : record) :
  dict_has k d = true <-> In k (map fst d).
Proof.
  induction d as [|[k1 v1] rest IH]; simpl; [split; [discriminate | tauto]|].
  rewrite orb_true_iff, str_eqb_eq, IH. split; intros [H | H]; auto.
Qed.

(** With distinct keys, an update gives each key the value of the update
    where it has one, and the former value elsewhere. *)
Lemma dict_get_update (k : str) (dflt : val) (other : record) :
  forall d,
    NoDup (map fst other) ->
    dict_get k (dict_update d other) dflt =
    if dict_has k other then dict_get k other dflt else dict_get k d dflt.
Proof.
  induction other as [|[k0 v0] rest IH] using rev_ind; intros d Hnd;
    [reflexivity|].
  rewrite dict_update_snoc, dict_get_set, dict_has_snoc, dict_get_snoc.
  rewrite map_app in Hnd. simpl in Hnd.
  apply NoDup_remove in Hnd. rewrite app_nil_r in Hnd.
  destruct Hnd as [Hnd Hnot].
  rewrite (IH d Hnd).
  destruct (str_eqb k k0) eqn:Ek.
  - apply str_eqb_eq in Ek. subst k0.
    destruct (dict_has k rest) eqn:Hh; [|reflexivity].
    apply dict_has_In in Hh. contradiction.
  - rewrite orb_false_r. now destruct (dict_has k rest).
Qed.

(** X6.  In a request the caller's parameters take precedence over the
    defaults: a key of the caller carries the caller's value, also for
    [limit] and [access_token]; every other key carries its default. *)
Theorem request_params_precedence (api : FacebookAPI) (endpoint : str)
    (params : record) (k : str) :
  NoDup (map fst params) ->
  dict_get k (req_params (request_of api endpoint (Some params))) VNone =
    (if dict_has k params then dict_get k params VNone
     else dict_get k
            [(lit "access_token", VStr (access_token api));
             (lit "limit", VInt (limit api))] VNone)
  /\ req_url (request_of api endpoint (Some params))
     = base_url api ++ lit "/" ++ endpoint.
Proof.
  intros Hnd. split; [|reflexivity].
  unfold request_of. cbn [req_params].
  destruct params as [|e p]; [reflexivity|].
  now rewrite dict_get_update.
Qed.

Variable api : FacebookAPI.

Lemma make_request_raises (endpoint : str) (ps : option record) (w : world)
    msg rest :
  script w = Raises msg :: rest ->
  _make_request api endpoint ps w =
  (inl (RequestException msg),
   {| script := rest;
      sent := sent w ++ [request_of api endpoint ps];
      slept := slept w |}).
Proof. intros H. unfold _make_request. now rewrite H. Qed.

Lemma paginate_loop_propagates (endpoint : str) (params : option record)
    (more : list response) :
  forall fuel current all_data (w : world) msg rest,
    script w = map Returns more ++ Raises msg :: rest ->
    keeps_going current more = true ->
    length (script w) < fuel ->
    exists w',
      paginate_loop fuel api endpoint params current all_data w
        = (inl (RequestException msg), w')
      /\ script w' = rest
      /\ length (sent w') = length (sent w) + S (length more).
Proof.
  induction more as [|q more IH];
    intros fuel current all_data w msg rest Hs Hk Hlen;
    (destruct fuel as [|fuel]; [lia|]); rewrite paginate_loop_step;
    simpl in Hk; apply andb_true_iff in Hk; destruct Hk as [Hc Hk];
    destruct (cursor_of current) as [after|]; try discriminate.
  - simpl in Hs. rewrite (make_request_raises _ _ _ Hs).
    eexists. split; [reflexivity|]. cbn [script sent].
    split; [reflexivity|]. rewrite length_app. simpl. lia.
  - simpl in Hs. rewrite (make_request_returns _ _ _ _ Hs).
    apply andb_true_iff in Hk. destruct Hk as [Hd Hk].
    destruct (resp_data q) as [d|]; [|discriminate].
    destruct (IH fuel q (all_data ++ d)
                (sleep {| script := map Returns more ++ Raises msg :: rest;
                          sent := sent w ++
                                  [request_of api endpoint
                                     (follow_params params after)];
                          slept := slept w |}) msg rest)
      as [w' [Hloop [Hscript Hsent]]];
      [reflexivity | exact Hk | rewrite Hs in Hlen; simpl in *; lia |].
    exists w'. split; [exact Hloop|]. split; [exact Hscript|].
    rewrite Hsent. cbn [sleep sent]. rewrite length_app. simpl. lia.
Qed.

(** X7.  A failing page request ends the pagination with that very
    exception, whatever was fetched before: the pages already received are
    dropped, and exactly one request per page plus the failing one was
    sent. *)
Theorem paginate_request_propagates (endpoint : str) (params : option record)
    (w : world) (pages : list response) (msg : str) (rest : list reply) :
  script w = map Returns pages ++ Raises msg :: rest ->
  continues pages = true ->
  exists w',
    _paginate_request api endpoint params w = (inl (RequestException msg), w')
    /\ script w' = rest
    /\ length (sent w') = length (sent w) + S (length pages).
Proof.
  intros Hs Hc. unfold _paginate_request.
  destruct pages as [|first more].
  - simpl in Hs. rewrite (make_request_raises _ _ _ Hs).
    eexists. split; [reflexivity|]. cbn [script sent].
    split; [reflexivity|]. rewrite length_app. simpl. lia.
  - simpl in Hs, Hc. rewrite (make_request_returns _ _ _ _ Hs).
    destruct (@paginate_loop_propagates endpoint params more
                (S (length (map Returns more ++ Raises msg :: rest)))
                first
                (match resp_data first with Some d => d | None => [] end)
                {| script := map Returns more ++ Raises msg :: rest;
                   sent := sent w ++ [request_of api endpoint params];
                   slept := slept w |} msg rest eq_refl Hc)
      as [w' [Hloop [Hscript Hsent]]]; [simpl; lia|].
    exists w'. cbn [script] in *. split; [exact Hloop|].
    split; [exact Hscript|]. rewrite Hsent. cbn [sent].
    rewrite length_app. simpl. lia.
Qed.

(** X8.  When the pagination returns, a fetch gives one record for each raw
    item, in the same order; each record keeps the raw item under [data],
    carries the account id of the call, and, except for insights, the id of
    the raw item. *)
Theorem fetch_processes_each_item (t : entity) (account_id : str)
    (now : nat -> D) (w : world) (items : list record) :
  fst (_paginate_request api (fetch_endpoint t account_id)
         (Some (fetch_params t)) w) = inr items ->
  fst (fetch t api account_id now w) = processed t account_id items
  /\ length (fst (fetch t api account_id now w)) = length items
  /\ (forall n raw,
        nth_error items n = Some raw ->
        exists r,
          nth_error (fst (fetch t api account_id now w)) n = Some r
          /\ get "data" r = VDict raw
          /\ get "account_id" r = VStr account_id
          /\ (t <> Insights -> get "id" r = get "id" raw)).
Proof.
  intros Hp.
  assert (Hf : fst (fetch t api account_id now w)
               = processed t account_id items).
  { rewrite fetch_unfold.
    destruct (_paginate_request _ _ _ _) as [[e|xs] w']; simpl in *;
      [discriminate|]. now injection Hp as ->. }
  split; [exact Hf|]. rewrite Hf. split.
  - destruct t; simpl; rewrite ?length_map; try reflexivity.
    rewrite process_insights_from. apply process_from_length.
  - intros n raw Hn.
    destruct (nth_error (processed t account_id items) n) as [r|] eqn:Hr.
    + destruct (processed_nth _ _ _ _ Hr) as [raw' [Hraw ->]].
      rewrite Hn in Hraw. injection Hraw as <-.
      eexists. split; [reflexivity|]. destruct t; repeat split; try reflexivity.
      intros Hne. now contradiction Hne.
    + exfalso. apply nth_error_None in Hr.
      assert (Hlen : length (processed t account_id items) = length items).
      { destruct t; simpl; rewrite ?length_map; try reflexivity.
        rewrite process_insights_from. apply process_from_length. }
      assert (n < length items) by (apply nth_error_Some; congruence).
      lia.
Qed.

End ApiMore.

(** ** Insight ids and cursors *)

From Stdlib Require Import DecimalNat.

Section InsightIds.

Context {F D : Type} {E : PyEnv F D}.

Notation record := (@dict F D).

Lemma lit_inj (a b : string) : lit a = lit b -> a = b.
Proof.
  unfold lit. intros H.
  rewrite <- (string_of_list_ascii_of_string a),
          <- (string_of_list_ascii_of_string b).
  now rewrite H.
Qed.

Lemma str_of_nat_inj (n m : nat) : str_of_nat n = str_of_nat m -> n = m.
Proof.
  unfold str_of_nat. intros H. apply lit_inj in H.
  apply DecimalNat.Unsigned.to_uint_inj.
  assert (Hs : Some (Nat.to_uint n) = Some (Nat.to_uint m)).
  { rewrite <- !NilEmpty.usu. now rewrite H. }
  now injection Hs.
Qed.

Lemma uint_digits_no_dash (d : Decimal.uint) :
  ~ In "-"%char (lit (NilEmpty.string_of_uint d)).
Proof.
  unfold lit. induction d; simpl; intros H;
    try (destruct H as [H | H]; [discriminate | auto]); auto.
Qed.

Lemma str_of_nat_no_dash (n : nat) : ~ In "-"%char (str_of_nat n).
Proof. apply uint_digits_no_dash. Qed.

Lemma prefix_until {A : Type} (d : A) (x : list A) :
  forall y p q,
    ~ In d x -> ~ In d y -> x ++ d :: p = y ++ d :: q -> x = y.
Proof.
  induction x as [|a x IH]; intros [|b y] p q Hx Hy H; simpl in *.
  - reflexivity.
  - injection H as -> _. exfalso. apply Hy. now left.
  - injection H as -> _. exfalso. apply Hx. now left.
  - injection H as -> H. f_equal. apply (IH y p q); auto.
Qed.

Lemma suffix_after_last {A : Type} (d : A) (x y p q : list A) :
  ~ In d x -> ~ In d y -> p ++ d :: x = q ++ d :: y -> x = y.
Proof.
  intros Hx Hy H. apply (f_equal (@rev A)) in H.
  rewrite !rev_app_distr in H. simpl in H. rewrite <- !app_assoc in H.
  simpl in H.
  apply prefix_until in H; try (rewrite <- in_rev; assumption).
  rewrite <- (rev_involutive x), <- (rev_involutive y). now rewrite H.
Qed.

Lemma insight_id_unfold (account_id : str) (n : nat) (x : record) :
  get "id" (process_insight account_id n x) =
  VStr ((id_part "campaign_id" x ++ "-"%char :: id_part "date_start" x)
        ++ "-"%char :: str_of_nat n).
Proof.
  change (get "id" (process_insight account_id n x))
    with (@VStr F D (id_part "campaign_id" x ++ lit "-" ++
                     id_part "date_start" x ++ lit "-" ++ str_of_nat n)).
  f_equal. change (lit "-") with ["-"%char]. now rewrite <- app_assoc.
Qed.

Lemma insight_id_ordinal (account_id : str) (n m : nat) (x y : record) :
  get "id" (process_insight account_id n x)
    = get "id" (process_insight account_id m y) ->
  n = m.
Proof.
  rewrite !insight_id_unfold. intros H. injection H as H.
  apply suffix_after_last in H; try apply str_of_nat_no_dash.
  now apply str_of_nat_inj.
Qed.

Lemma process_from_In (account_id : str) (items : list record) :
  forall k r,
    In r (process_from account_id k items) ->
    exists j x, k <= j /\ r = process_insight account_id j x.
Proof.
  induction items as [|x rest IH]; intros k r H; [contradiction|].
  simpl in H. destruct H as [<- | H].
  - exists k, x. split; [lia | reflexivity].
  - destruct (IH _ _ H) as [j [y [Hj ->]]]. exists j, y. split; [lia|].
    reflexivity.
Qed.

(** X9.  The ids that one fetch gives to its insight records are pairwise
    distinct, whatever the raw records hold: the ordinal at the end of the
    id tells them apart. *)
Theorem insight_ids_distinct (account_id : str) (insights : list record) :
  NoDup (map (get "id") (process_insights account_id insights)).
Proof.
  rewrite process_insights_from. generalize 0.
  induction insights as [|x rest IH]; intros k; simpl; constructor.
  - intros Hin. apply in_map_iff in Hin. destruct Hin as [r [Hid Hr]].
    apply process_from_In in Hr. destruct Hr as [j [y [Hj ->]]].
    apply insight_id_ordinal in Hid. lia.
  - apply IH.
Qed.

End InsightIds.

Section Cursor.

Lemma split_absent (sep s : str) :
  contains sep s = false -> split sep s = [s].
Proof.
  induction s as [|c r IH]; intros H; [now simp split|].
  apply contains_cons_false in H. destruct H as [H1 H2].
  rewrite split_cons, H1, (IH H2). reflexivity.
Qed.

(** A text in which no occurrence of the separator begins stays in front
    of the first part. *)
Lemma split_skip (sep x y : str) :
  (forall x1 x2, x = x1 ++ x2 -> x2 <> [] -> startswith sep (x2 ++ y) = false) ->
  split sep (x ++ y) =
  (x ++ hd [] (split sep y)) :: tl (split sep y).
Proof.
  induction x as [|c x IH]; intros H.
  - simpl. pose proof (split_nonempty sep y) as Hn.
    destruct (split sep y); [simpl in Hn; lia | reflexivity].
  - change ((c :: x) ++ y) with (c :: (x ++ y)).
    rewrite split_cons.
    assert (Hs : startswith sep (c :: (x ++ y)) = false)
      by (apply (H [] (c :: x) eq_refl); discriminate).
    rewrite Hs, IH.
    + reflexivity.
    + intros x1 x2 -> Hne. apply (H (c :: x1) x2); [reflexivity | exact Hne].
Qed.

Lemma startswith_firstn (p s : str) :
  startswith p s = true <-> firstn (length p) s = p.
Proof.
  rewrite startswith_spec. split.
  - intros [t ->]. rewrite firstn_app, Nat.sub_diag, firstn_all. simpl.
    now rewrite app_nil_r.
  - intros H. exists (skipn (length p) s). rewrite <- H at 1.
    now rewrite firstn_skipn.
Qed.

Lemma startswith_short (p w z : str) :
  startswith p (w ++ z) = true -> length p <= length w ->
  startswith p w = true.
Proof.
  rewrite !startswith_firstn. intros H Hlen.
  rewrite firstn_app in H.
  replace (length p - length w) with 0 in H by lia.
  simpl in H. now rewrite app_nil_r in H.
Qed.

Lemma startswith_within (p u v : str) (d : ascii) :
  ~ In d p -> startswith p (u ++ d :: v) = true -> startswith p u = true.
Proof.
  revert u. induction p as [|a p IH]; intros u Hd H; [reflexivity|].
  destruct u as [|c u]; simpl in *.
  - apply andb_true_iff in H. destruct H as [H _].
    apply ascii_eqb_eq in H. subst. exfalso. apply Hd. now left.
  - apply andb_true_iff in H. destruct H as [H1 H2]. rewrite H1. simpl.
    apply IH; auto.
Qed.

Lemma contains_char (d : ascii) (s : str) :
  ~ In d s -> contains [d] s = false.
Proof.
  induction s as [|c s IH]; intros H; [reflexivity|].
  simpl in *. destruct (ascii_eqb d c) eqn:Ec.
  - apply ascii_eqb_eq in Ec. subst. exfalso. apply H. now left.
  - simpl. apply IH. tauto.
Qed.

Lemma split_char (d : ascii) (x y : str) :
  ~ In d x -> split [d] (x ++ d :: y) = x :: split [d] y.
Proof.
  intros H. rewrite split_skip.
  - rewrite split_cons. simpl. rewrite ascii_eqb_refl. simpl.
    now rewrite app_nil_r.
  - intros x1 [|c x2] -> Hne; [contradiction|]. simpl.
    destruct (ascii_eqb d c) eqn:Ec; [|reflexivity].
    apply ascii_eqb_eq in Ec. subst. exfalso. apply H.
    apply in_or_app. right. now left.
Qed.

Lemma split_after (pre b : str) :
  contains (lit "after=") (pre ++ lit "after") = false ->
  split (lit "after=") (pre ++ lit "after=" ++ b)
  = pre :: split (lit "after=") b.
Proof.
  intros H. rewrite split_skip.
  - change (lit "after=" ++ b)
      with ("a"%char :: lit "fter=" ++ b).
    rewrite split_cons.
    change (startswith (lit "after=") ("a"%char :: lit "fter=" ++ b))
      with (startswith (lit "after=") (lit "after=" ++ b)).
    rewrite startswith_app. simpl. now rewrite app_nil_r.
  - intros x1 x2 -> Hne.
    destruct (startswith (lit "after=") (x2 ++ lit "after=" ++ b)) eqn:S1;
      [|reflexivity].
    exfalso.
    change (lit "after=" ++ b) with (lit "after" ++ lit "=" ++ b) in S1.
    rewrite app_assoc in S1. apply startswith_short in S1.
    + apply startswith_spec in S1. destruct S1 as [t Ht].
      rewrite <- app_assoc, Ht in H.
      assert (C : contains (lit "after=") (x1 ++ lit "after=" ++ t) = true)
        by (apply contains_spec; now exists x1, t).
      rewrite C in H. discriminate.
    + rewrite length_app. destruct x2; [contradiction|]. simpl. lia.
Qed.

(** X10.  The cursor is read back from a next-page URL: where the URL
    holds [after=] followed by a cursor that ends at the next [&] or at the
    end of the URL, and no [after=] occurs before it or inside it, the
    extracted parameter is that cursor. *)
Theorem after_param_extracts (pre cursor rest : str) :
  contains (lit "after=") (pre ++ lit "after") = false ->
  contains (lit "after=") cursor = false ->
  ~ In "&"%char cursor ->
  rest = [] \/ (exists rest', rest = "&"%char :: rest') ->
  after_param (pre ++ lit "after=" ++ cursor ++ rest) = Some cursor.
Proof.
  intros Hpre Hcur Hamp Hrest. unfold after_param.
  assert (C : contains (lit "after=") (pre ++ lit "after=" ++ cursor ++ rest)
              = true)
    by (apply contains_spec; now exists pre, (cursor ++ rest)).
  rewrite C, (split_after _ _ Hpre). cbn [nth]. f_equal.
  destruct Hrest as [-> | [rest' ->]].
  - rewrite app_nil_r, (split_absent _ _ Hcur). cbn [nth].
    change (lit "&") with ["&"%char].
    now rewrite (split_absent _ _ (contains_char _ _ Hamp)).
  - change (cursor ++ "&"%char :: rest')
      with (cursor ++ ["&"%char] ++ rest').
    rewrite app_assoc, split_skip.
    + cbn [nth]. rewrite <- app_assoc. change (lit "&") with ["&"%char].
      cbn [app]. now rewrite (split_char _ _ _ Hamp).
    + intros x1 x2 Hx Hne.
      destruct (startswith (lit "after=") (x2 ++ rest')) eqn:S1;
        [|reflexivity].
      exfalso. induction x2 as [|c x2' _] using rev_ind; [contradiction|].
      rewrite app_assoc in Hx. apply app_inj_tail in Hx.
      destruct Hx as [-> <-]. rewrite <- app_assoc in S1.
      change (["&"%char] ++ rest') with ("&"%char :: rest') in S1.
      apply startswith_within in S1;
        [|simpl; intuition discriminate].
      apply startswith_spec in S1. destruct S1 as [t ->].
      assert (C2 : contains (lit "after=") (x1 ++ lit "after=" ++ t) = true)
        by (apply contains_spec; now exists x1, t).
      rewrite C2 in Hcur. discriminate.
Qed.

End Cursor.

(** ** The query engine: numbers in questions and fallback SQL *)

Section ExtractNumber.




Lemma uint_digits (d : Decimal.uint) :
  forallb is_digit (lit (NilEmpty.string_of_uint d)) = true.
Proof. unfold lit. induction d; simpl; auto. Qed.





End ExtractNumber.

Section FallbackSql.

Context {F D : Type} {E : PyEnv F D} {T : PyText}.

Notation DatabaseManager := (@DatabaseManager F D).

Lemma dropwhile_app (f : ascii -> bool) (a y : str) :
  dropwhile f a <> [] -> dropwhile f (a ++ y) = dropwhile f a ++ y.
Proof.
  induction a as [|c a IH]; intros H; [now contradiction H|].
  simpl in *. destruct (f c); [now apply IH | reflexivity].
Qed.

Lemma rstrip_app (x b : str) :
  rstrip b <> [] -> rstrip (x ++ b) = x ++ rstrip b.
Proof.
  unfold rstrip. intros H. rewrite rev_app_distr, dropwhile_app.
  - now rewrite rev_app_distr, rev_involutive.
  - intros H0. apply H. now rewrite H0.
Qed.

Lemma startswith_app_l (p x y : str) :
  startswith p x = true -> startswith p (x ++ y) = true.
Proof.
  intros H. apply startswith_spec in H. destruct H as [t ->].
  rewrite <- app_assoc. apply startswith_app.
Qed.

(** A statement made of a head that starts, after blanks, with SELECT, a
    middle, and a tail whose text is a semicolon followed by blanks. *)
Lemma sandwich_passes (a n b : str) :
  startswith (lit "SELECT") (upper (lstrip a)) = true ->
  rstrip b = lit ";" ->
  startswith (lit "SELECT") (upper (strip (a ++ n ++ b))) = true
  /\ endswith (lit ";") (strip (a ++ n ++ b)) = true.
Proof.
  intros Ha Hb.
  assert (Hne : lstrip a <> []) by (intros H0; now rewrite H0 in Ha).
  assert (Hs : strip (a ++ n ++ b) = (lstrip a ++ n) ++ lit ";").
  { unfold strip, lstrip in *. rewrite (dropwhile_app _ _ _ Hne).
    rewrite app_assoc, rstrip_app by (now rewrite Hb). now rewrite Hb. }
  rewrite Hs. split.
  - unfold upper in *. rewrite <- app_assoc, map_app.
    now apply startswith_app_l.
  - apply endswith_snoc.
Qed.

Lemma fallback_cases (P : str -> Prop) (user_query : str) :
  P (top_ads_sql (limit_or_10 user_query)) ->
  P (top_campaigns_sql (limit_or_10 user_query)) ->
  P (top_adsets_sql (limit_or_10 user_query)) ->
  P average_ctr_sql -> P campaign_performance_sql ->
  P ads_default_sql -> P campaigns_default_sql ->
  P (_fallback_sql_generation user_query).
Proof.
  intros. unfold _fallback_sql_generation. cbv zeta.
  repeat match goal with
         | |- P (if ?c then _ else _) => destruct c
         end; assumption.
Qed.


Lemma is_ascii_str_of_nat (n : nat) : is_ascii (str_of_nat n) = true.
Proof.
  unfold is_ascii, str_of_nat. apply forallb_forall. intros c Hc.
  pose proof (uint_digits (Nat.to_uint n)) as Hd.
  rewrite forallb_forall in Hd. specialize (Hd c Hc).
  unfold is_digit in Hd. apply andb_true_iff in Hd. destruct Hd as [_ Hd].
  apply Nat.leb_le in Hd. apply Nat.ltb_lt. lia.
Qed.

Lemma fallback_is_ascii (user_query : str) :
  is_ascii (_fallback_sql_generation user_query) = true.
Proof.
  apply fallback_cases with (P := fun sql => is_ascii sql = true).
  1-3: unfold top_ads_sql, top_campaigns_sql, top_adsets_sql;
       rewrite !is_ascii_app, is_ascii_str_of_nat; reflexivity.
  all: reflexivity.
Qed.

(** X12.  Whatever the question, the fallback statement is a SELECT that
    ends in a semicolon once stripped, so the guard of
    [_execute_sql_query] never rejects it: it is handed to the database. *)
Theorem fallback_sql_passes_guard (user_query : str) (dm : DatabaseManager) :
  let sql := _fallback_sql_generation user_query in
  startswith (lit "SELECT") (upper (strip sql)) = true
  /\ endswith (lit ";") (strip sql) = true
  /\ _execute_sql_query sql dm = execute_query sql dm.
Proof.
  cbv zeta.
  assert (H : startswith (lit "SELECT")
                (upper (strip (_fallback_sql_generation user_query))) = true
              /\ endswith (lit ";")
                   (strip (_fallback_sql_generation user_query)) = true).
  { apply fallback_cases with
      (P := fun sql =>
              startswith (lit "SELECT") (upper (strip sql)) = true
              /\ endswith (lit ";") (strip sql) = true).
    1-3: apply sandwich_passes; vm_compute; reflexivity.
    all: split; vm_compute; reflexivity. }
  destruct H as [H1 H2]. split; [exact H1|]. split; [exact H2|].
  unfold _execute_sql_query.
  now rewrite (guard_ascii _ (fallback_is_ascii user_query)), H1.
Qed.


End FallbackSql.

(** ** Cleaning a fenced answer *)

Section Fencing.

Context {F D : Type} {E : PyEnv F D}.










End Fencing.

(** ** Query processing *)

Section Process.

Context {F D : Type} {E : PyEnv F D} {T : PyText} {A : Analytics F D}.

Notation frame := (DataFrame F D).
Notation DatabaseManager := (@DatabaseManager F D).
Notation query_result := (@query_result F D).

Lemma clean_nonempty (response : str) : _clean_sql_response response <> [].
Proof.
  intros H. pose proof (clean_ends_with_semicolon response) as Hs.
  rewrite H in Hs. discriminate.
Qed.


(** X14.  A generated statement is always a cleaned answer of the model:
    it is not empty and ends in a semicolon, and it comes from the short
    prompt only when the call with the full prompt raised.  There is no
    statement exactly when there is no model or both calls raise. *)
Theorem generate_sql_query_spec (engine : GeminiQueryEngine)
    (user_query : str) :
  let full := sql_prompt _create_schema_context user_query in
  let short := simple_prompt user_query in
  match _generate_sql_query engine user_query with
  | Some sql =>
      sql <> [] /\ endswith (lit ";") sql = true /\
      exists generate_content text,
        model engine = Some generate_content /\
        sql = _clean_sql_response text /\
        (generate_content full = inr text \/
         (exists e, generate_content full = inl e) /\
         generate_content short = inr text)
  | None =>
      model engine = None \/
      exists generate_content e1 e2,
        model engine = Some generate_content /\
        generate_content full = inl e1 /\
        generate_content short = inl e2
  end.
Proof.
  cbv zeta. unfold _generate_sql_query.
  destruct (model engine) as [g|]; [|now left].
  destruct (g (sql_prompt _create_schema_context user_query)) as [e1|text]
    eqn:H1.
  - destruct (g (simple_prompt user_query)) as [e2|text] eqn:H2.
    + right. now exists g, e1, e2.
    + split; [apply clean_nonempty|].
      split; [apply clean_ends_with_semicolon|].
      exists g, text. split; [reflexivity|]. split; [reflexivity|].
      right. split; [now exists e1 | assumption].
  - split; [apply clean_nonempty|].
    split; [apply clean_ends_with_semicolon|].
    exists g, text. split; [reflexivity|]. split; [reflexivity|].
    now left.
Qed.





(** X16.  A result of [process_query] carries either an error and
    nothing else, or a statement, data and insights and no error; and an
    analytical question never gives an error. *)
Theorem process_query_result_shape (engine : GeminiQueryEngine)
    (user_query : str) (dm : DatabaseManager) :
  let result := fst (process_query engine user_query dm) in
  match res_error result with
  | None =>
      res_sql_query result <> None /\ res_data result <> None /\
      res_insights result <> None
  | Some _ =>
      res_sql_query result = None /\ res_data result = None /\
      res_insights result = None /\
      _is_analytical_query user_query = false
  end.
Proof.
  cbv zeta. unfold process_query.
  destruct (_is_analytical_query user_query).
  - unfold _process_analytical_query.
    destruct (_get_comprehensive_data dm) as [all_data dm'].
    destruct (_generate_analytical_insights engine user_query all_data).
    simpl. repeat split; discriminate.
  - destruct (_generate_sql_query engine user_query) as [[|c sql]|];
      try (simpl; now repeat split).
    destruct (_execute_sql_query (c :: sql) dm) as [[e|data] dm'];
      simpl; repeat split; discriminate.
Qed.


(** X18.  An analytical question is answered from the three fixed
    statements together or not at all: when the statement over campaigns
    or the one over ads fails, the insights rows that were read before are
    dropped, the text says that there are no recent insights, the data is
    an empty frame, and no error is reported. *)
Theorem analytical_needs_all_statements (engine : GeminiQueryEngine)
    (user_query : str) (dm dm1 dm2 dm3 : DatabaseManager)
    (insights_data : frame) (campaigns_summary : exn + frame)
    (ads_summary : exn + frame) :
  _is_analytical_query user_query = true ->
  execute_query insights_query dm = (inr insights_data, dm1) ->
  execute_query campaigns_query dm1 = (campaigns_summary, dm2) ->
  execute_query ads_query dm2 = (ads_summary, dm3) ->
  let nothing :=
    {| res_sql_query := Some (lit "Analytical Query (No SQL Required)");
       res_data := Some empty_DataFrame;
       res_insights :=
         Some (lit "No recent insights data available for analysis.");
       res_error := None;
       res_query_type := Some (lit "analytical") |} in
  match campaigns_summary, ads_summary with
  | inl _, _ => process_query engine user_query dm = (nothing, dm2)
  | inr _, inl _ => process_query engine user_query dm = (nothing, dm3)
  | inr _, inr _ =>
      snd (process_query engine user_query dm) = dm3 /\
      res_error (fst (process_query engine user_query dm)) = None
  end.
Proof.
  intros Hq H1 H2 H3. cbv zeta. unfold process_query. rewrite Hq.
  unfold _process_analytical_query, _get_comprehensive_data.
  rewrite H1, H2.
  destruct campaigns_summary as [e2|f2]; [reflexivity|].
  rewrite H3. destruct ads_summary as [e3|f3]; [reflexivity|].
  destruct (_generate_analytical_insights engine user_query _).
  now split.
Qed.

End Process.

(** ** The application: fetching and loading *)

Section AppTheorems.

Context {F D : Type} {E : PyEnv F D}.

Notation record := (@dict F D).
Notation frame := (DataFrame F D).
Notation world := (@world F D).
Notation response := (@response F D).
Notation DatabaseManager := (@DatabaseManager F D).
Notation session_state := (@session_state F D).

Lemma stored_frame_length (t : entity) (data : list record) :
  length (df_records (stored_frame t data)) = length data.
Proof.
  destruct t; simpl; unfold dumps_column;
    repeat (match goal with
            | |- context [if ?b then _ else _] => destruct b
            end; simpl);
    now rewrite !length_map.
Qed.

Lemma sample_uniform (t : entity) (account_id : str) (now : nat -> D) :
  Forall (fun r : record => map fst r = record_keys t)
    (sample t account_id now).
Proof.
  destruct t; unfold sample.
  1-3: repeat constructor.
  unfold _get_sample_insights. apply Forall_forall. intros r Hr.
  apply in_flat_map in Hr. destruct Hr as [i [_ Hr]].
  unfold sample_insight_pair in Hr.
  destruct Hr as [<- | [<- | []]]; reflexivity.
Qed.

Lemma fetch_origin (t : entity) (api : FacebookAPI) (account_id : str)
    (now : nat -> D) (w : world) :
  fst (fetch t api account_id now w) = sample t account_id now
  \/ exists items,
       fst (fetch t api account_id now w) = processed t account_id items.
Proof.
  rewrite fetch_unfold.
  destruct (_paginate_request _ _ _ _) as [[e|items] w'];
    [left | right; exists items]; reflexivity.
Qed.

(** What a fetch returns carries, unless it is empty, the column by which
    its table is read back. *)
Lemma fetched_order_column (t : entity) (api : FacebookAPI)
    (account_id : str) (now : nat -> D) (w : world) :
  fst (fetch t api account_id now w) <> [] ->
  str_mem (order_column t) (union_keys (fst (fetch t api account_id now w)))
  = true.
Proof.
  intros Hne.
  assert (Hu : Forall (fun r : record => map fst r = record_keys t)
                 (fst (fetch t api account_id now w))).
  { destruct (fetch_origin t api account_id now w) as [-> | [items ->]];
      [apply sample_uniform | apply processed_uniform]. }
  destruct (@new_DataFrame_uniform F D E (record_keys t) _
              (record_keys_NoDup t) Hne Hu) as [Hk _].
  rewrite Hk. now destruct t.
Qed.

Lemma run_executed (ops : list (entity * list record)) :
  forall dm : DatabaseManager, executed (run ops dm) = executed dm.
Proof.
  induction ops as [|[t data] rest IH]; intros dm; [reflexivity|].
  change (run ((t, data) :: rest) dm) with (run rest (store t data dm)).
  rewrite IH. now destruct t.
Qed.

Lemma fetch_facebook_data_unfold (account_id : str) (api : FacebookAPI)
    (now : nat -> D) (dm : DatabaseManager) (w : world) :
  let c := fetch Campaigns api account_id now w in
  let a := fetch AdSets api account_id now (snd c) in
  let d := fetch Ads api account_id now (snd a) in
  let i := fetch Insights api account_id now (snd d) in
  fetch_facebook_data account_id api now dm w =
  (sleep (snd i),
   run [(Campaigns, fst c); (AdSets, fst a); (Ads, fst d); (Insights, fst i)]
     dm,
   {| campaigns_df := Some (new_DataFrame (fst c));
      adsets_df := Some (new_DataFrame (fst a));
      ads_df := Some (new_DataFrame (fst d));
      insights_df := Some (new_DataFrame (fst i));
      data_fetched := true |}).
Proof.
  cbv zeta. unfold fetch_facebook_data, fetch.
  destruct (fetch_campaigns api account_id now w) as [c w1]. cbn [snd].
  destruct (fetch_adsets api account_id now w1) as [a w2]. cbn [snd].
  destruct (fetch_ads api account_id now w2) as [d w3]. cbn [snd].
  destruct (fetch_insights api account_id (lit "last_30d") now w3) as [i w4].
  reflexivity.
Qed.

Lemma retrieve_stored (t : entity) (data : list record)
    (dm : DatabaseManager) :
  table_get (table_name t) (tables dm) = Some (stored_frame t data) ->
  (data <> [] -> str_mem (order_column t) (union_keys data) = true) ->
  retrieve t dm =
  order_by_desc (order_column t) (df_records (stored_frame t data)).
Proof.
  intros Ht Hcol. rewrite retrieve_unfold. unfold select_all_order_by_desc.
  rewrite Ht, columns_stored_frame.
  destruct (str_mem (order_column t) (union_keys data)) eqn:M; [reflexivity|].
  destruct data as [|r data].
  - now rewrite stored_frame_nil.
  - assert (N : r :: data <> []) by discriminate. discriminate (Hcol N).
Qed.

(** X19.  After [fetch_facebook_data], for each of the four kinds the
    table and the frame of the session state come from one and the same
    list, which is either the sample of the kind or the processed items of
    the API; reading the table back gives the rows that were stored, and
    the log of executed statements is as before. *)
Theorem fetch_facebook_data_consistent (account_id : str)
    (api : FacebookAPI) (now : nat -> D) (dm : DatabaseManager) (w : world) :
  let out := fetch_facebook_data account_id api now dm w in
  let dm' := snd (fst out) in
  data_fetched (snd out) = true
  /\ executed dm' = executed dm
  /\ forall t, exists data,
       session_frame t (snd out) = Some (new_DataFrame data)
       /\ table_get (table_name t) (tables dm') = Some (stored_frame t data)
       /\ (data = sample t account_id now \/
           exists items, data = processed t account_id items)
       /\ Permutation (retrieve t dm') (df_records (stored_frame t data)).
Proof.
  cbv zeta. rewrite fetch_facebook_data_unfold. cbv zeta. cbn [fst snd].
  split; [reflexivity|]. split; [apply run_executed|].
  intros t.
  set (c := fetch Campaigns api account_id now w).
  set (a := fetch AdSets api account_id now (snd c)).
  set (d := fetch Ads api account_id now (snd a)).
  set (i := fetch Insights api account_id now (snd d)).
  assert (Hgen : forall data,
            table_get (table_name t)
              (tables (run [(Campaigns, fst c); (AdSets, fst a);
                            (Ads, fst d); (Insights, fst i)] dm))
            = Some (stored_frame t data) ->
            (data <> [] -> str_mem (order_column t) (union_keys data) = true) ->
            Permutation
              (retrieve t (run [(Campaigns, fst c); (AdSets, fst a);
                                (Ads, fst d); (Insights, fst i)] dm))
              (df_records (stored_frame t data))).
  { intros data Ht Hcol. rewrite (@retrieve_stored t data _ Ht Hcol).
    apply order_by_desc_perm. }
  destruct t.
  - exists (fst c). split; [reflexivity|].
    assert (Ht : table_get (table_name Campaigns)
                   (tables (run [(Campaigns, fst c); (AdSets, fst a);
                                 (Ads, fst d); (Insights, fst i)] dm))
                 = Some (stored_frame Campaigns (fst c)))
      by (now rewrite run_table).
    split; [exact Ht|]. split; [apply fetch_origin|].
    apply Hgen; [exact Ht | apply fetched_order_column].
  - exists (fst a). split; [reflexivity|].
    assert (Ht : table_get (table_name AdSets)
                   (tables (run [(Campaigns, fst c); (AdSets, fst a);
                                 (Ads, fst d); (Insights, fst i)] dm))
                 = Some (stored_frame AdSets (fst a)))
      by (now rewrite run_table).
    split; [exact Ht|]. split; [apply fetch_origin|].
    apply Hgen; [exact Ht | apply fetched_order_column].
  - exists (fst d). split; [reflexivity|].
    assert (Ht : table_get (table_name Ads)
                   (tables (run [(Campaigns, fst c); (AdSets, fst a);
                                 (Ads, fst d); (Insights, fst i)] dm))
                 = Some (stored_frame Ads (fst d)))
      by (now rewrite run_table).
    split; [exact Ht|]. split; [apply fetch_origin|].
    apply Hgen; [exact Ht | apply fetched_order_column].
  - exists (fst i). split; [reflexivity|].
    assert (Ht : table_get (table_name Insights)
                   (tables (run [(Campaigns, fst c); (AdSets, fst a);
                                 (Ads, fst d); (Insights, fst i)] dm))
                 = Some (stored_frame Insights (fst i)))
      by (now rewrite run_table).
    split; [exact Ht|]. split; [apply fetch_origin|].
    apply Hgen; [exact Ht | apply fetched_order_column].
Qed.

(** X20.  Loading after a fetch is decided by the campaigns alone: when
    the fetch found campaigns, the session state gets the four tables as
    they are read back, and when it found none, as for an account whose
    first page of campaigns is empty, the session state stays as it was,
    whatever the other tables hold. *)
Theorem load_after_fetch (account_id : str) (api : FacebookAPI)
    (now : nat -> D) (dm : DatabaseManager) (w : world)
    (state : session_state) :
  let dm' := snd (fst (fetch_facebook_data account_id api now dm w)) in
  let campaigns := fst (fetch_campaigns api account_id now w) in
  (campaigns = [] -> load_existing_data dm' state = state)
  /\ (campaigns <> [] ->
      load_existing_data dm' state =
      {| campaigns_df := Some (new_DataFrame (get_campaigns dm'));
         adsets_df := Some (new_DataFrame (get_adsets dm'));
         ads_df := Some (new_DataFrame (get_ads dm'));
         insights_df := Some (new_DataFrame (get_insights dm'));
         data_fetched := true |})
  /\ (forall rest,
        script w = Returns {| resp_data := Some []; resp_paging := None |}
                   :: rest ->
        campaigns = []).
Proof.
  cbv zeta. rewrite fetch_facebook_data_unfold. cbv zeta. cbn [fst snd].
  set (c := fetch Campaigns api account_id now w).
  set (a := fetch AdSets api account_id now (snd c)).
  set (d := fetch Ads api account_id now (snd a)).
  set (i := fetch Insights api account_id now (snd d)).
  set (dm' := run [(Campaigns, fst c); (AdSets, fst a); (Ads, fst d);
                   (Insights, fst i)] dm).
  change (fetch_campaigns api account_id now w) with c.
  assert (Ht : table_get (table_name Campaigns) (tables dm')
               = Some (stored_frame Campaigns (fst c)))
    by (unfold dm'; now rewrite run_table).
  assert (Hget : get_campaigns dm' =
                 order_by_desc (order_column Campaigns)
                   (df_records (stored_frame Campaigns (fst c)))).
  { apply (@retrieve_stored Campaigns (fst c) dm' Ht).
    apply fetched_order_column. }
  assert (Hlen : length (get_campaigns dm') = length (fst c)).
  { rewrite Hget, (Permutation_length (order_by_desc_perm _ _)).
    apply stored_frame_length. }
  split; [|split].
  - intros Hc. rewrite Hc in Hlen. unfold load_existing_data.
    now destruct (get_campaigns dm').
  - intros Hc. unfold load_existing_data.
    destruct (get_campaigns dm') as [|r rows] eqn:Hg; [|reflexivity].
    destruct (fst c); [contradiction | discriminate].
  - intros rest Hs. unfold c, fetch, fetch_campaigns, _paginate_request,
      _make_request. now rewrite Hs.
Qed.

(** X21.  After a fetch that found something, the table of a kind has
    the columns that [_define_tables] gives it except [inserted_at], which
    the replacing store never writes, and among them every column that
    [get_schema_info] tells the model; after a fetch that found nothing
    the table has no column at all. *)
Theorem stored_columns_vs_schema (t : entity) (api : FacebookAPI)
    (account_id : str) (now : nat -> D) (w : world) :
  let data := fst (fetch t api account_id now w) in
  let stored := columns (stored_frame t data) in
  (data <> [] ->
     map fst (defined_columns t) = stored ++ [lit "inserted_at"]
     /\ forallb (fun c => str_mem c stored) (advertised_columns t) = true)
  /\ (data = [] -> stored = []).
Proof.
  cbv zeta. rewrite columns_stored_frame. split.
  - intros Hne.
    assert (Hu : Forall (fun r : record => map fst r = record_keys t)
                   (fst (fetch t api account_id now w))).
    { destruct (fetch_origin t api account_id now w) as [-> | [items ->]];
        [apply sample_uniform | apply processed_uniform]. }
    destruct (@new_DataFrame_uniform F D E (record_keys t) _
                (record_keys_NoDup t) Hne Hu) as [Hk _].
    rewrite Hk. destruct t; split; vm_compute; reflexivity.
  - intros ->. reflexivity.
Qed.

End AppTheorems.

(** ** Instances on concrete inputs *)

Section Witnesses.

Import Decimal.

Lemma leb_total (a b : value float day) : leb a b = true \/ leb b a = true.
Proof.
  destruct a, b; simpl; auto;
    match goal with
    | |- (?x <=? ?y)%Z = true \/ _ =>
        destruct (Z.leb_spec x y); [now left | right; apply Z.leb_le; lia]
    end.
Qed.

(** Witness for X1: storing ads after three stores leaves the campaigns. *)
Lemma store_leaves_other_tables_witness :
  retrieve Campaigns
    (store Ads (_get_sample_ads Demo.account Demo.clock)
       (run Demo.three_stores Demo.empty_manager))
  = retrieve Campaigns (run Demo.three_stores Demo.empty_manager)
  /\ executed
       (store Ads (_get_sample_ads Demo.account Demo.clock)
          (run Demo.three_stores Demo.empty_manager))
     = executed (run Demo.three_stores Demo.empty_manager).
Proof.
  apply (@store_leaves_other_tables _ _ env Ads Campaigns
           (_get_sample_ads Demo.account Demo.clock)
           (run Demo.three_stores Demo.empty_manager)).
  reflexivity.
Defined.

(** Witness for X2: the campaigns of the three stores, newest first. *)
Lemma retrieve_descending_witness :
  descending (order_column Campaigns)
    (retrieve Campaigns (run Demo.three_stores Demo.empty_manager)) = true.
Proof.
  apply (@retrieve_descending _ _ env leb_total Campaigns
           (run Demo.three_stores Demo.empty_manager)).
Defined.

(** Witness for X6: the caller's page size replaces the default of 500. *)
Lemma request_params_precedence_witness :
  dict_get (lit "limit")
    (req_params
       (request_of Demo.api (fetch_endpoint Campaigns Demo.account)
          (Some Reports.own_limit))) VNone
  = VInt 25
  /\ req_url
       (request_of Demo.api (fetch_endpoint Campaigns Demo.account)
          (Some Reports.own_limit))
     = lit "https://graph.facebook.com/v18.0/act_1234567890/campaigns".
Proof.
  apply (@request_params_precedence _ _ Demo.api
           (fetch_endpoint Campaigns Demo.account) Reports.own_limit
           (lit "limit")).
  repeat constructor; cbn [In]; intuition discriminate.
Defined.

(** Witness for X7: the request for the second page fails. *)
Lemma paginate_request_propagates_witness :
  exists w',
    _paginate_request Demo.api (fetch_endpoint Campaigns Demo.account)
      Demo.campaign_params Demo.second_page_fails
    = (inl (RequestException (lit "500 Server Error")), w')
    /\ script w' = []
    /\ length (sent w') = 2.
Proof.
  apply (@paginate_request_propagates _ _ Demo.api
           (fetch_endpoint Campaigns Demo.account) Demo.campaign_params
           Demo.second_page_fails [Demo.page_1] (lit "500 Server Error") []);
    reflexivity.
Defined.

(** Witness for X8: two pages with one campaign each. *)
Lemma fetch_processes_each_item_witness :
  fst (fetch Campaigns Demo.api Demo.account Demo.clock Demo.two_pages)
  = processed Campaigns Demo.account [Demo.raw_campaign_1; Demo.raw_campaign_2].
Proof.
  apply (proj1 (@fetch_processes_each_item _ _ env Demo.api Campaigns
                  Demo.account Demo.clock Demo.two_pages
                  [Demo.raw_campaign_1; Demo.raw_campaign_2] eq_refl)).
Defined.

(** Witness for X10: the cursor of the next-page URL of the first page. *)
Lemma after_param_extracts_witness :
  after_param Demo.next_url = Some (lit "QVFIUjE").
Proof.
  apply (@after_param_extracts
           (lit "https://graph.facebook.com/v18.0/act_1234567890/campaigns?limit=500&")
           (lit "QVFIUjE") (lit "&access_token=token")).
  - reflexivity.
  - reflexivity.
  - intros H. repeat (destruct H as [H | H]; [discriminate H|]). exact H.
  - right. eexists. reflexivity.
Defined.



(** Witness for X18: insights and campaigns are there, the table of ads is
    not. *)
Lemma analytical_needs_all_statements_witness :
  @process_query _ _ Reports.reporting Utf8.utf8_text Reports.analytics
    Demo.no_model
    (lit "ROAS trend") Reports.without_ads
  = ({| res_sql_query := Some (lit "Analytical Query (No SQL Required)");
        res_data := Some empty_DataFrame;
        res_insights :=
          Some (lit "No recent insights data available for analysis.");
        res_error := None;
        res_query_type := Some (lit "analytical") |},
     {| tables := tables Reports.without_ads;
        executed := [insights_query; campaigns_query; ads_query] |}).
Proof.
  apply (@analytical_needs_all_statements _ _ Reports.reporting
           Utf8.utf8_text Reports.analytics Demo.no_model (lit "ROAS trend")
           Reports.without_ads
           {| tables := tables Reports.without_ads;
              executed := [insights_query] |}
           {| tables := tables Reports.without_ads;
              executed := [insights_query; campaigns_query] |}
           {| tables := tables Reports.without_ads;
              executed := [insights_query; campaigns_query; ads_query] |}
           Demo.campaign_totals (inr Demo.campaign_totals)
           (inl (DatabaseError (lit "relation does not exist"))));
    vm_compute; reflexivity.
Defined.


End Witnesses.

